(** * StudyDeck: the spaced-repetition core, embedded and verified

    A shallow embedding of the scheduling and analytics code of the StudyDeck
    backend:

    - [calculateSM2], [isDue], [getOverdueDays], [getNextReviewDescription],
      [predictIntervals] (the SM-2 module),
    - [createDeck], [updateDeck], [getDecksWithStats], [buildDeckHierarchy],
      [getDeckCards], [getSubDeckIds], [getDueCards], [shuffleArray]
      (deck.service.ts),
    - [createCards], [reviewCard], [resetCard] (card.service.ts),
    - [getUserStats], [calculateStreaks], [getRecentActivity],
      [getDeckStats], [getAllDeckStats] (stats.service.ts),
    - [getSessionWithStats], [getRecentSessions], [getUserStats],
      [calculateStreak] (study.service.ts, in the module [StudyService]).

    JavaScript numbers are kept abstract behind the interface [JsNumber],
    with two instances: exact rational arithmetic ([Q], used for the
    properties that hold for every input) and IEEE binary64 (primitive
    floats, the arithmetic of a JavaScript engine, used to run the code on
    concrete inputs and to compare it with exact arithmetic where rounding
    can show).  Instants are milliseconds since the epoch, in [Z]; they are
    not cut off at the range of [Date] ([inDateRange]).  The persistent
    store behind [prisma] is a record of tables; every call to it is a step
    of a state-and-error monad and may be made to fail. *)

From Stdlib Require Import ZArith QArith Qround Qminmax Floats Uint63 Lia Lqa String.
From Stdlib Require DecimalString.
From stdpp Require Import base option list sorting.

Set Default Proof Using "Type".

(** ** JavaScript numbers *)

Declare Scope js_scope.
Delimit Scope js_scope with js.

(** The operations the code applies to values of type [number]. *)
Class JsNumber (num : Type) := {
  lit : Q -> num;                  (* a numeric literal *)
  num_add : num -> num -> num;
  num_sub : num -> num -> num;
  num_mul : num -> num -> num;
  num_div : num -> num -> num;
  num_ltb : num -> num -> bool;    (* a < b *)
  num_leb : num -> num -> bool;    (* a <= b *)
  num_eqb : num -> num -> bool;    (* a === b *)
  Math_max : num -> num -> num;
  Math_min : num -> num -> num;
  Math_round : num -> num;
  Math_floor : num -> num;
  toInteger : num -> Z             (* ToIntegerOrInfinity, for array indices and day counts *)
}.

Notation "x + y" := (num_add x y) : js_scope.
Notation "x - y" := (num_sub x y) : js_scope.
Notation "x * y" := (num_mul x y) : js_scope.
Notation "x / y" := (num_div x y) : js_scope.
Notation "x <? y" := (num_ltb x y) : js_scope.
Notation "x <=? y" := (num_leb x y) : js_scope.
Notation "x >? y" := (num_ltb y x) : js_scope.
Notation "x >=? y" := (num_leb y x) : js_scope.
Notation "x === y" := (num_eqb x y) (at level 70, no associativity) : js_scope.

(** An integer (a count, an array length) as a number. *)
Definition ofZ {num : Type} `{!JsNumber num} (z : Z) : num := lit (inject_Z z).

(** *** Exact arithmetic

    Numbers as rationals: no rounding error, no NaN, no infinities.
    [Math.round] rounds half up, as in JavaScript. *)

Definition Qltb (a b : Q) : bool := negb (Qle_bool b a).

Definition Qround_half_up (x : Q) : Z := Qfloor (x + (1 # 2))%Q.

#[export] Instance exact : JsNumber Q := {|
  lit q := q;
  num_add := Qplus;
  num_sub := Qminus;
  num_mul := Qmult;
  num_div := Qdiv;
  num_ltb := Qltb;
  num_leb := Qle_bool;
  num_eqb := Qeq_bool;
  Math_max := Qmax;
  Math_min := Qmin;
  Math_round x := inject_Z (Qround_half_up x);
  Math_floor x := inject_Z (Qfloor x);
  toInteger x := (Qnum x ÷ Zpos (Qden x))%Z
|}.

(** *** IEEE 754 binary64

    Numbers as the kernel's primitive floats, whose operations are the
    correctly rounded binary64 operations of a JavaScript engine. *)

Definition f64_of_Z (z : Z) : float :=
  match z with
  | Z0 => PrimFloat.zero
  | Zpos _ => PrimFloat.of_uint63 (Uint63.of_Z z)
  | Zneg p => PrimFloat.opp (PrimFloat.of_uint63 (Uint63.of_Z (Zpos p)))
  end.

(** An integer result that keeps the sign of the argument it came from, so
    that [Math.round (-0.2)] is [-0]. *)
Definition f64_of_Z_signed (negative : bool) (z : Z) : float :=
  if (z =? 0)%Z then (if negative then PrimFloat.neg_zero else PrimFloat.zero)
  else f64_of_Z z.

(** A decimal literal denotes the double nearest to it; for a numerator and
    a denominator below 2^53 the correctly rounded quotient is that double. *)
Definition f64_lit (q : Q) : float :=
  PrimFloat.div (f64_of_Z (Qnum q)) (f64_of_Z (Zpos (Qden q))).

(** [floor (x + bias / 2)] computed on the exact value [m * 2^e] of a finite
    double; zeros, infinities and NaN are returned as they are. *)
Definition f64_floor_plus (bias : Z) (x : float) : float :=
  match Prim2SF x with
  | S754_finite s m e =>
      if (0 <=? e)%Z then x
      else
        let d := (2 ^ (- e))%Z in
        let n := if s then Zneg m else Zpos m in
        f64_of_Z_signed s ((2 * n + bias * d) / (2 * d))%Z
  | _ => x
  end.

Definition f64_round (x : float) : float := f64_floor_plus 1 x.
Definition f64_floor (x : float) : float := f64_floor_plus 0 x.

Definition f64_is_neg_zero (x : float) : bool :=
  PrimFloat.is_zero x && PrimFloat.get_sign x.

Definition f64_max (a b : float) : float :=
  if PrimFloat.is_nan a || PrimFloat.is_nan b then PrimFloat.nan
  else if PrimFloat.ltb a b then b
  else if PrimFloat.ltb b a then a
  else if f64_is_neg_zero a then b else a.

Definition f64_min (a b : float) : float :=
  if PrimFloat.is_nan a || PrimFloat.is_nan b then PrimFloat.nan
  else if PrimFloat.ltb a b then a
  else if PrimFloat.ltb b a then b
  else if f64_is_neg_zero b then b else a.

(** Truncation toward zero of a finite double; 0 for NaN and the
    infinities (where a [Date] built from the value would be invalid). *)
Definition f64_toInteger (x : float) : Z :=
  match Prim2SF x with
  | S754_finite s m e =>
      let a := if (0 <=? e)%Z then (Zpos m * 2 ^ e)%Z else (Zpos m / 2 ^ (- e))%Z in
      if s then (- a)%Z else a
  | _ => 0%Z
  end.

#[export] Instance binary64 : JsNumber float := {|
  lit := f64_lit;
  num_add := PrimFloat.add;
  num_sub := PrimFloat.sub;
  num_mul := PrimFloat.mul;
  num_div := PrimFloat.div;
  num_ltb := PrimFloat.ltb;
  num_leb := PrimFloat.leb;
  num_eqb := PrimFloat.eqb;
  Math_max := f64_max;
  Math_min := f64_min;
  Math_round := f64_round;
  Math_floor := f64_floor;
  toInteger := f64_toInteger
|}.

(** ** Dates

    A [Date] is its time value, in milliseconds since the epoch.  Local
    time is UTC shifted by the fixed offset [tzOffset] of the process (no
    daylight-saving change), and the ambient clock [new Date()] is passed
    explicitly; it stands still during one operation. *)

Record Clock := { now : Z; tzOffset : Z }.

Definition msPerDay : Z := 86400000.

Section Dates.
Local Open Scope Z_scope.

(** Local midnight of the day of [t]. *)
Definition startOfLocalDay (clk : Clock) (t : Z) : Z :=
  (t + tzOffset clk) / msPerDay * msPerDay - tzOffset clk.

(** [d.setHours(h, m, s, ms)] *)
Definition setHours (clk : Clock) (t h m s ms : Z) : Z :=
  startOfLocalDay clk t + ((h * 60 + m) * 60 + s) * 1000 + ms.

(** [d.setDate(d.getDate() + n)], for an integral [n] *)
Definition addDays (t n : Z) : Z := t + n * msPerDay.

(** [d.toISOString().split('T')[0]]: the UTC calendar date, represented by
    its day number (days since 1970-01-01).  For the four-digit years the
    ISO format covers, the order of the date strings is the order of the
    day numbers. *)
Definition isoDate (t : Z) : Z := t / msPerDay.

(** [new Date(dateString).getTime()] for such a date: UTC midnight *)
Definition dateOfIso (day : Z) : Z := day * msPerDay.

End Dates.

(** ** The SM-2 module *)

Module SM2Input.
Record t (num : Type) := Build {
  quality : num;       (* 0-5 rating *)
  repetitions : num;   (* number of successful reviews *)
  easeFactor : num;    (* current ease factor *)
  interval : num       (* current interval in days *)
}.
Arguments Build {num}.
Arguments quality {num}.
Arguments repetitions {num}.
Arguments easeFactor {num}.
Arguments interval {num}.
End SM2Input.

Module SM2Result.
Record t (num : Type) := Build {
  repetitions : num;       (* updated repetition count *)
  easeFactor : num;        (* updated ease factor *)
  interval : num;          (* new interval in days *)
  nextReviewDate : Z       (* when to review next *)
}.
Arguments Build {num}.
Arguments repetitions {num}.
Arguments easeFactor {num}.
Arguments interval {num}.
Arguments nextReviewDate {num}.
End SM2Result.

Section SM2.
Context {num : Type} `{!JsNumber num}.
Local Open Scope js_scope.

Definition MIN_EASE_FACTOR : num := lit 1.3.
Definition DEFAULT_EASE_FACTOR : num := lit 2.5.

(** [Math.max(0, Math.min(5, Math.round(quality)))] *)
Definition clampQuality (quality : num) : num :=
  Math_max (lit 0) (Math_min (lit 5) (Math_round quality)).

(** Calculate the next review parameters.  The interval added to the date
    is 1, 6 or a rounded number, so [setDate] adds that many whole days. *)
Definition calculateSM2 (clk : Clock) (input : SM2Input.t num) : SM2Result.t num :=
  let quality := clampQuality (SM2Input.quality input) in
  let repetitions := SM2Input.repetitions input in
  let easeFactor := SM2Input.easeFactor input in
  let interval := SM2Input.interval input in
  let newEaseFactor :=
    Math_max MIN_EASE_FACTOR
      (easeFactor + (lit 0.1 - (lit 5 - quality) * (lit 0.08 + (lit 5 - quality) * lit 0.02))) in
  let '(repetitions, interval) :=
    if quality <? lit 3 then (lit 0, lit 1)
    else
      let repetitions := repetitions + lit 1 in
      if repetitions === lit 1 then (repetitions, lit 1)
      else if repetitions === lit 2 then (repetitions, lit 6)
      else (repetitions, Math_round (interval * newEaseFactor)) in
  let nextReviewDate :=
    setHours clk (addDays (now clk) (toInteger interval)) 0 0 0 0 in
  {| SM2Result.repetitions := repetitions;
     SM2Result.easeFactor := Math_round (newEaseFactor * lit 100) / lit 100;
     SM2Result.interval := interval;
     SM2Result.nextReviewDate := nextReviewDate |}.

Definition isDue (clk : Clock) (nextReviewAt : Z) : bool :=
  let now := setHours clk (now clk) 23 59 59 999 in
  (nextReviewAt <=? now)%Z.

Definition getOverdueDays (clk : Clock) (nextReviewAt : Z) : Z :=
  let diffTime := (now clk - nextReviewAt)%Z in
  (diffTime / (1000 * 60 * 60 * 24))%Z.

Definition predictIntervals (clk : Clock) (repetitions easeFactor interval : num)
  : list (Z * num) :=
  map (fun q => (q, SM2Result.interval
                      (calculateSM2 clk (SM2Input.Build (ofZ q) repetitions easeFactor interval))))
      [0; 1; 2; 3; 4; 5]%Z.

End SM2.

(** ** The store behind [prisma]

    The rows of the four tables the core reads and writes, with the columns
    it uses (a card's text, a deck's name and the like are left out). *)

Module Deck.
Record t := Build {
  id : string;
  userId : string;
  parentId : option string
}.
End Deck.

Module Card.
Record t (num : Type) := Build {
  id : string;
  deckId : string;
  easeFactor : num;
  interval : num;
  repetitions : num;
  nextReviewAt : Z;
  lastReviewAt : option Z;
  createdAt : Z
}.
Arguments Build {num}.
Arguments id {num}.
Arguments deckId {num}.
Arguments easeFactor {num}.
Arguments interval {num}.
Arguments repetitions {num}.
Arguments nextReviewAt {num}.
Arguments lastReviewAt {num}.
Arguments createdAt {num}.
End Card.

Module CardReview.
Record t (num : Type) := Build {
  cardId : string;
  sessionId : string;
  quality : num;
  previousInterval : num;
  previousEaseFactor : num;
  newInterval : num;
  newEaseFactor : num;
  reviewedAt : Z
}.
Arguments Build {num}.
Arguments cardId {num}.
Arguments sessionId {num}.
Arguments quality {num}.
Arguments previousInterval {num}.
Arguments previousEaseFactor {num}.
Arguments newInterval {num}.
Arguments newEaseFactor {num}.
Arguments reviewedAt {num}.
End CardReview.

Module StudySession.
Record t := Build {
  id : string;
  userId : string;
  startedAt : Z
}.
End StudySession.

Record DB (num : Type) := {
  decks : list Deck.t;
  cards : list (Card.t num);
  cardReviews : list (CardReview.t num);   (* in order of creation *)
  studySessions : list StudySession.t
}.
Arguments Build_DB {num}.
Arguments decks {num}.
Arguments cards {num}.
Arguments cardReviews {num}.
Arguments studySessions {num}.

(** ** Effects

    What an operation runs in: the store, the clock, the source of
    [Math.random()] (its successive values, and how many were drawn), and a
    script of storage failures: each call to [prisma] consumes one entry,
    and fails (its promise rejects, nothing is written) when the entry is
    [true].  An empty script means that no call fails. *)

Record World (num : Type) := {
  db : DB num;
  clock : Clock;
  random : nat -> num;
  drawn : nat;
  faults : list bool
}.
Arguments Build_World {num}.
Arguments db {num}.
Arguments clock {num}.
Arguments random {num}.
Arguments drawn {num}.
Arguments faults {num}.

Inductive Error :=
  | JsError (message : string)   (* throw new Error(message) *)
  | Rejected                     (* a rejected call to the store *)
  | OutOfFuel.                   (* the recursion did not end within the fuel given *)

Inductive Outcome (A : Type) :=
  | Ok (a : A)
  | Throw (e : Error).
Arguments Ok {A}.
Arguments Throw {A}.

Definition M (num A : Type) : Type := World num -> Outcome A * World num.

Section Monad.
Context {num : Type}.

Definition ret {A} (a : A) : M num A := fun w => (Ok a, w).

Definition throw {A} (e : Error) : M num A := fun w => (Throw e, w).

Definition bind {A B} (m : M num A) (k : A -> M num B) : M num B :=
  fun w => match m w with
           | (Ok a, w') => k a w'
           | (Throw e, w') => (Throw e, w')
           end.

Definition getClock : M num Clock := fun w => (Ok (clock w), w).

(** [Math.random()] *)
Definition Math_random : M num num :=
  fun w => (Ok (random w (drawn w)),
            {| db := db w; clock := clock w; random := random w;
               drawn := S (drawn w); faults := faults w |}).

Definition setStore (w : World num) (d : DB num) (fs : list bool) : World num :=
  {| db := d; clock := clock w; random := random w; drawn := drawn w; faults := fs |}.

(** A query: it fails when the script says so, and otherwise answers from
    the store, which it leaves as it is. *)
Definition prisma_read {A} (query : DB num -> A) : M num A :=
  fun w => match faults w with
           | true :: fs => (Throw Rejected, setStore w (db w) fs)
           | false :: fs => (Ok (query (db w)), setStore w (db w) fs)
           | [] => (Ok (query (db w)), w)
           end.

(** A write: it fails when the script says so or when the store refuses it
    ([None]: no such row); a failed write changes nothing. *)
Definition prisma_write {A} (action : DB num -> option (A * DB num)) : M num A :=
  fun w => match faults w with
           | true :: fs => (Throw Rejected, setStore w (db w) fs)
           | false :: fs =>
               match action (db w) with
               | Some (a, d) => (Ok a, setStore w d fs)
               | None => (Throw Rejected, setStore w (db w) fs)
               end
           | [] =>
               match action (db w) with
               | Some (a, d) => (Ok a, setStore w d [])
               | None => (Throw Rejected, w)
               end
           end.

End Monad.

Notation "x <- m ;; k" := (bind m (fun x => k))
  (at level 100, m at next level, right associativity).

Fixpoint foldM {num A B} (f : B -> A -> M num B) (l : list A) (acc : B) : M num B :=
  match l with
  | [] => ret acc
  | x :: l' => acc' <- f acc x ;; foldM f l' acc'
  end.

Fixpoint mapM {num A B} (f : A -> M num B) (l : list A) : M num (list B) :=
  match l with
  | [] => ret []
  | x :: l' => y <- f x ;; ys <- mapM f l' ;; ret (y :: ys)
  end.

(** *** Queries

    [findMany] filters a table, orders the rows by a column and keeps the
    first [take] of them; the order among rows with equal keys is the
    store's own. *)

Definition keyLe {A} (key : A -> Z) (a b : A) : Prop := (key a <= key b)%Z.

#[export] Instance keyLe_dec {A} (key : A -> Z) : RelDecision (keyLe key).
Proof. intros a b. unfold keyLe. apply _. Defined.

Definition orderByAsc {A} (key : A -> Z) (rows : list A) : list A :=
  merge_sort (keyLe key) rows.

(** [take: n] of [findMany]: the first [n] rows of the ordered list; a
    negative [n] is counted from the end of the list, and selects its last
    [-n] rows. *)
Definition takeRows {A} (n : Z) (rows : list A) : list A :=
  if (n <? 0)%Z then drop (length rows - Z.to_nat (- n)) rows
  else take (Z.to_nat n) rows.

Definition count {A} (rows : list A) : Z := Z.of_nat (length rows).

Section Queries.
Context {num : Type} `{!JsNumber num}.

Definition findDeck (d : DB num) (deckId : string) : option Deck.t :=
  List.find (fun x => String.eqb (Deck.id x) deckId) (decks d).

Definition findSession (d : DB num) (sessionId : string) : option StudySession.t :=
  List.find (fun x => String.eqb (StudySession.id x) sessionId) (studySessions d).

(** the relation filter [deck: { userId }] on a card *)
Definition cardOfUser (d : DB num) (userId : string) (c : Card.t num) : bool :=
  match findDeck d (Card.deckId c) with
  | Some dk => String.eqb (Deck.userId dk) userId
  | None => false
  end.

(** the relation filter [session: { userId }] on a review *)
Definition reviewOfUser (d : DB num) (userId : string) (r : CardReview.t num) : bool :=
  match findSession d (CardReview.sessionId r) with
  | Some s => String.eqb (StudySession.userId s) userId
  | None => false
  end.

(** [deckId: { in: deckIds }] *)
Definition deckIn (deckIds : list string) (c : Card.t num) : bool :=
  existsb (String.eqb (Card.deckId c)) deckIds.

Definition deck_findFirst (where_ : Deck.t -> bool) : M num (option Deck.t) :=
  prisma_read (fun d => List.find where_ (decks d)).

Definition deck_findMany (where_ : Deck.t -> bool) : M num (list Deck.t) :=
  prisma_read (fun d => List.filter where_ (decks d)).

Definition deck_count (where_ : Deck.t -> bool) : M num Z :=
  prisma_read (fun d => count (List.filter where_ (decks d))).

Definition card_findFirst (where_ : DB num -> Card.t num -> bool)
  : M num (option (Card.t num)) :=
  prisma_read (fun d => List.find (where_ d) (cards d)).

Definition card_findMany (where_ : DB num -> Card.t num -> bool)
    (take_ : Z) (orderBy : Card.t num -> Z) : M num (list (Card.t num)) :=
  prisma_read (fun d => takeRows take_ (orderByAsc orderBy (List.filter (where_ d) (cards d)))).

Definition card_count (where_ : DB num -> Card.t num -> bool) : M num Z :=
  prisma_read (fun d => count (List.filter (where_ d) (cards d))).

(** [prisma.card.update({ where: { id }, data })]: rejects when there is no
    such card, else rewrites the row and returns it. *)
Definition card_update (cardId : string) (data : Card.t num -> Card.t num)
  : M num (Card.t num) :=
  prisma_write (fun d =>
    match List.find (fun c => String.eqb (Card.id c) cardId) (cards d) with
    | None => None
    | Some c =>
        Some (data c,
              {| decks := decks d;
                 cards := map (fun c' => if String.eqb (Card.id c') cardId then data c' else c')
                              (cards d);
                 cardReviews := cardReviews d;
                 studySessions := studySessions d |})
    end).

(** [prisma.cardReview.create({ data })]: appends the row. *)
Definition cardReview_create (data : CardReview.t num) : M num (CardReview.t num) :=
  prisma_write (fun d =>
    Some (data,
          {| decks := decks d;
             cards := cards d;
             cardReviews := cardReviews d ++ [data];
             studySessions := studySessions d |})).

Definition cardReview_findMany (where_ : DB num -> CardReview.t num -> bool)
  : M num (list (CardReview.t num)) :=
  prisma_read (fun d => List.filter (where_ d) (cardReviews d)).

Definition cardReview_count (where_ : DB num -> CardReview.t num -> bool) : M num Z :=
  prisma_read (fun d => count (List.filter (where_ d) (cardReviews d))).

(** [findMany] on sessions, most recent first *)
Definition studySession_findMany_desc (where_ : StudySession.t -> bool)
  : M num (list StudySession.t) :=
  prisma_read (fun d =>
    reverse (orderByAsc StudySession.startedAt (List.filter where_ (studySessions d)))).

End Queries.

(** ** Arrays

    An array of [T] as the list of its elements, each a value of [T] or
    [undefined] ([None]).  Reading outside the array gives [undefined];
    writing at an index past the end extends the array, the elements in
    between being [undefined]; a negative index is no element of the array,
    so writing there leaves the elements as they are. *)

Definition arrayGet {T} (a : list (option T)) (i : Z) : option T :=
  if (i <? 0)%Z then None else mjoin (a !! Z.to_nat i).

Definition arraySet {T} (a : list (option T)) (i : Z) (x : option T) : list (option T) :=
  if (i <? 0)%Z then a
  else if decide (Z.to_nat i < length a)%nat then <[Z.to_nat i := x]> a
  else a ++ replicate (Z.to_nat i - length a) None ++ [x].

(** ** deck.service.ts *)

Section DeckService.
Context {num : Type} `{!JsNumber num}.
Local Open Scope js_scope.

(** All sub-deck ids, recursively.  The recursion follows the deck
    hierarchy; [fuel] bounds its depth. *)
Fixpoint getSubDeckIds (fuel : nat) (parentId : string) : M num (list string) :=
  match fuel with
  | O => throw OutOfFuel
  | S fuel' =>
      children <- deck_findMany
                    (fun d => match Deck.parentId d with
                              | Some p => String.eqb p parentId
                              | None => false
                              end) ;;
      let ids := map Deck.id children in
      foldM (fun ids child =>
               subIds <- getSubDeckIds fuel' (Deck.id child) ;;
               ret (ids ++ subIds))
            children ids
  end.

(** The Fisher-Yates loop, for [i] from the last index down to 1, run on
    the copy [[...array]].  An index is the number [j] the code computes;
    whatever [j] is, the array is read and written as JavaScript does
    ([arrayGet], [arraySet]). *)
Fixpoint shuffleFrom {T} (i : nat) (shuffled : list (option T)) : M num (list (option T)) :=
  match i with
  | O => ret shuffled
  | S i' =>
      r <- Math_random ;;
      let j := toInteger (Math_floor (r * ofZ (Z.of_nat i + 1))) in
      (* [shuffled[i], shuffled[j]] = [shuffled[j], shuffled[i]] *)
      let right := (arrayGet shuffled j, arrayGet shuffled (Z.of_nat i)) in
      shuffleFrom i' (arraySet (arraySet shuffled (Z.of_nat i) (fst right)) j (snd right))
  end.

Definition shuffleArray {T} (array : list T) : M num (list (option T)) :=
  shuffleFrom (length array - 1) (Some <$> array).

Definition isNewCard (deckIds : list string) (c : Card.t num) : bool :=
  deckIn deckIds c && (Card.repetitions c === lit 0).

Definition isDueCard (deckIds : list string) (endOfToday : Z) (c : Card.t num) : bool :=
  deckIn deckIds c && (Card.nextReviewAt c <=? endOfToday)%Z && (Card.repetitions c >? lit 0).

(** Due cards for a study session.  [limit] is the whole number the route
    parses from the request, so [Math.floor(limit / 3)] is the floor
    division of integers; the elements of the result are cards or
    [undefined], as they come out of [shuffleArray]. *)
Definition getDueCards (fuel : nat) (userId deckId : string) (limit : Z)
    (includeSubDecks : bool) : M num (list (option (Card.t num))) :=
  deck <- deck_findFirst (fun d => String.eqb (Deck.id d) deckId
                                   && String.eqb (Deck.userId d) userId) ;;
  match deck with
  | None => throw (JsError "Deck not found")
  | Some _ =>
      deckIds <- (if includeSubDecks
                  then (sub <- getSubDeckIds fuel deckId ;; ret (sub ++ [deckId]))
                  else ret [deckId]) ;;
      clk <- getClock ;;
      let now := setHours clk (now clk) 23 59 59 999 in
      newCards <- card_findMany (fun _ => isNewCard deckIds)
                                (limit / 3)%Z Card.createdAt ;;
      let remainingLimit := (limit - count newCards)%Z in
      dueCards <- card_findMany (fun _ => isDueCard deckIds now)
                                remainingLimit Card.nextReviewAt ;;
      let allCards := newCards ++ dueCards in
      shuffleArray allCards
  end.

End DeckService.

(** ** card.service.ts *)

Record ReviewCardInput (num : Type) := {
  input_quality : num;
  input_sessionId : string
}.
Arguments Build_ReviewCardInput {num}.
Arguments input_quality {num}.
Arguments input_sessionId {num}.

Section CardService.
Context {num : Type} `{!JsNumber num}.

Definition ownedCard (userId cardId : string) (d : DB num) (c : Card.t num) : bool :=
  String.eqb (Card.id c) cardId && cardOfUser d userId c.

Definition reviewCard (userId cardId : string) (input : ReviewCardInput num)
  : M num (Card.t num) :=
  card <- card_findFirst (ownedCard userId cardId) ;;
  match card with
  | None => throw (JsError "Card not found")
  | Some card =>
      clk <- getClock ;;
      let sm2Result :=
        calculateSM2 clk
          {| SM2Input.quality := input_quality input;
             SM2Input.repetitions := Card.repetitions card;
             SM2Input.easeFactor := Card.easeFactor card;
             SM2Input.interval := Card.interval card |} in
      _ <- cardReview_create
             {| CardReview.cardId := cardId;
                CardReview.sessionId := input_sessionId input;
                CardReview.quality := input_quality input;
                CardReview.previousInterval := Card.interval card;
                CardReview.previousEaseFactor := Card.easeFactor card;
                CardReview.newInterval := SM2Result.interval sm2Result;
                CardReview.newEaseFactor := SM2Result.easeFactor sm2Result;
                CardReview.reviewedAt := now clk |} ;;
      card_update cardId (fun c =>
        {| Card.id := Card.id c;
           Card.deckId := Card.deckId c;
           Card.easeFactor := SM2Result.easeFactor sm2Result;
           Card.interval := SM2Result.interval sm2Result;
           Card.repetitions := SM2Result.repetitions sm2Result;
           Card.nextReviewAt := SM2Result.nextReviewDate sm2Result;
           Card.lastReviewAt := Some (now clk);
           Card.createdAt := Card.createdAt c |})
  end.

Definition resetCard (userId cardId : string) : M num (Card.t num) :=
  card <- card_findFirst (ownedCard userId cardId) ;;
  match card with
  | None => throw (JsError "Card not found")
  | Some _ =>
      clk <- getClock ;;
      card_update cardId (fun c =>
        {| Card.id := Card.id c;
           Card.deckId := Card.deckId c;
           Card.easeFactor := DEFAULT_EASE_FACTOR;
           Card.interval := lit 0;
           Card.repetitions := lit 0;
           Card.nextReviewAt := now clk;
           Card.lastReviewAt := None;
           Card.createdAt := Card.createdAt c |})
  end.

End CardService.

(** ** stats.service.ts *)

Module DailyActivity.
Record t (num : Type) := Build {
  date : Z;
  cardsStudied : Z;
  averageQuality : num
}.
Arguments Build {num}.
Arguments date {num}.
Arguments cardsStudied {num}.
Arguments averageQuality {num}.
End DailyActivity.

Module Streaks.
Record t := Build {
  currentStreak : Z;
  longestStreak : Z
}.
End Streaks.

Module UserStats.
Record t (num : Type) := Build {
  totalDecks : Z;
  totalCards : Z;
  cardsDueToday : Z;
  cardsStudiedToday : Z;
  cardsStudiedThisWeek : Z;
  currentStreak : Z;
  longestStreak : Z;
  totalReviews : Z;
  averageRetention : num;
  studyTimeToday : num;
  recentActivity : list (DailyActivity.t num)
}.
Arguments Build {num}.
Arguments totalDecks {num}.
Arguments totalCards {num}.
Arguments cardsDueToday {num}.
Arguments cardsStudiedToday {num}.
Arguments cardsStudiedThisWeek {num}.
Arguments currentStreak {num}.
Arguments longestStreak {num}.
Arguments totalReviews {num}.
Arguments averageRetention {num}.
Arguments studyTimeToday {num}.
Arguments recentActivity {num}.
End UserStats.

(** [Math.floor((prevDate.getTime() - currDate.getTime()) / 86400000)] for
    two dates of [uniqueDates] *)
Definition diffDays (prev curr : Z) : Z :=
  ((dateOfIso prev - dateOfIso curr) / 86400000)%Z.

(** The loop that counts the current streak, over [uniqueDates] from index
    1 on: [prev] and [curr] are [uniqueDates[i - 1]] and [uniqueDates[i]]. *)
Fixpoint currentStreakLoop (uniqueDates : list Z) (currentStreak : Z) : Z :=
  match uniqueDates with
  | prev :: ((curr :: _) as rest) =>
      if (diffDays prev curr =? 1)%Z
      then currentStreakLoop rest (currentStreak + 1)%Z
      else currentStreak
  | _ => currentStreak
  end.

(** The loop that finds the longest streak; it returns [longestStreak] and
    [tempStreak] as they are when the loop ends. *)
Fixpoint longestStreakLoop (uniqueDates : list Z) (longestStreak tempStreak : Z) : Z * Z :=
  match uniqueDates with
  | prev :: ((curr :: _) as rest) =>
      if (diffDays prev curr =? 1)%Z
      then longestStreakLoop rest longestStreak (tempStreak + 1)%Z
      else longestStreakLoop rest (Z.max longestStreak tempStreak) 1%Z
  | _ => (longestStreak, tempStreak)
  end.

(** [[...new Set(dates)].sort().reverse()]: the distinct dates, latest first *)
Definition uniqueDatesOf (dates : list Z) : list Z :=
  reverse (merge_sort Z.le (remove_dups dates)).

Section StatsService.
Context {num : Type} `{!JsNumber num}.
Local Open Scope js_scope.

Definition calculateStreaks (userId : string) : M num Streaks.t :=
  sessions <- studySession_findMany_desc
                (fun s => String.eqb (StudySession.userId s) userId) ;;
  if (length sessions =? 0)%nat
  then ret {| Streaks.currentStreak := 0; Streaks.longestStreak := 0 |}
  else
    let uniqueDates :=
      uniqueDatesOf (map (fun s => isoDate (StudySession.startedAt s)) sessions) in
    if (length uniqueDates =? 0)%nat
    then ret {| Streaks.currentStreak := 0; Streaks.longestStreak := 0 |}
    else
      clk <- getClock ;;
      let today := isoDate (now clk) in
      let yesterday := isoDate (now clk - 86400000)%Z in
      let streakActive :=
        match uniqueDates with
        | d0 :: _ => (d0 =? today)%Z || (d0 =? yesterday)%Z
        | [] => false
        end in
      let currentStreak :=
        if streakActive then currentStreakLoop uniqueDates 1%Z else 0%Z in
      let '(longestStreak, tempStreak) := longestStreakLoop uniqueDates 0%Z 1%Z in
      let longestStreak := Z.max (Z.max longestStreak tempStreak) currentStreak in
      ret {| Streaks.currentStreak := currentStreak;
             Streaks.longestStreak := longestStreak |}.

Definition getRecentActivity (userId : string) (days : nat)
  : M num (list (DailyActivity.t num)) :=
  clk <- getClock ;;
  activity <-
    mapM (fun i =>
            let date := addDays (now clk) (- Z.of_nat i) in
            let dateStr := isoDate date in
            let startOfDay := startOfLocalDay clk date in
            let endOfDay := addDays startOfDay 1 in
            reviews <- cardReview_findMany
                         (fun d r => reviewOfUser d userId r
                                     && (startOfDay <=? CardReview.reviewedAt r)%Z
                                     && (CardReview.reviewedAt r <? endOfDay)%Z) ;;
            ret {| DailyActivity.date := dateStr;
                   DailyActivity.cardsStudied := count reviews;
                   DailyActivity.averageQuality :=
                     if (0 <? count reviews)%Z
                     then Math_round
                            ((fold_left (fun sum r => sum + CardReview.quality r) reviews (lit 0)
                              / ofZ (count reviews)) * lit 10) / lit 10
                     else lit 0 |})
         (seq 0 days) ;;
  ret (reverse activity).

(** The queries that the code starts together with [Promise.all] are made
    one after the other here. *)
Definition getUserStats (userId : string) : M num (UserStats.t num) :=
  clk <- getClock ;;
  let now := now clk in
  let startOfToday := startOfLocalDay clk now in
  let startOfWeek := addDays startOfToday (-7) in
  (* basic counts *)
  totalDecks <- deck_count (fun d => String.eqb (Deck.userId d) userId) ;;
  totalCards <- card_count (fun d c => cardOfUser d userId c) ;;
  cardsDueToday <- card_count (fun d c => cardOfUser d userId c
                                          && (Card.nextReviewAt c <=? now)%Z) ;;
  (* review stats *)
  reviewsToday <- cardReview_count
                    (fun d r => reviewOfUser d userId r
                                && (startOfToday <=? CardReview.reviewedAt r)%Z) ;;
  reviewsThisWeek <- cardReview_count
                       (fun d r => reviewOfUser d userId r
                                   && (startOfWeek <=? CardReview.reviewedAt r)%Z) ;;
  totalReviews <- cardReview_count (fun d r => reviewOfUser d userId r) ;;
  (* the aggregate query, whose result is not used *)
  retentionStats <- cardReview_count (fun d r => reviewOfUser d userId r) ;;
  successfulReviews <- cardReview_count
                         (fun d r => reviewOfUser d userId r
                                     && (CardReview.quality r >=? lit 3)) ;;
  let averageRetention :=
    if (totalReviews >? 0)%Z
    then Math_round ((ofZ successfulReviews / ofZ totalReviews) * lit 100)
    else lit 0 in
  streaks <- calculateStreaks userId ;;
  recentActivity <- getRecentActivity userId 7 ;;
  let studyTimeToday := Math_round ((ofZ reviewsToday * lit 10) / lit 60) in
  ret {| UserStats.totalDecks := totalDecks;
         UserStats.totalCards := totalCards;
         UserStats.cardsDueToday := cardsDueToday;
         UserStats.cardsStudiedToday := reviewsToday;
         UserStats.cardsStudiedThisWeek := reviewsThisWeek;
         UserStats.currentStreak := Streaks.currentStreak streaks;
         UserStats.longestStreak := Streaks.longestStreak streaks;
         UserStats.totalReviews := totalReviews;
         UserStats.averageRetention := averageRetention;
         UserStats.studyTimeToday := studyTimeToday;
         UserStats.recentActivity := recentActivity |}.

End StatsService.

(** ** Vocabulary of the specification

    The notions the claims are stated with.  The scheduling properties
    are stated over exact arithmetic. *)

(** *** Scheduling *)

Section SpecSM2.
Local Open Scope Q_scope.

(** The quality, rounded and then clamped to 0..5 *)
Definition specQuality (quality : Q) : Z :=
  Z.max 0 (Z.min 5 (Qround_half_up quality)).

(** [EF' = max(1.3, EF + (0.1 - (5 - q) * (0.08 + (5 - q) * 0.02)))] *)
Definition specEaseFactor (EF q : Q) : Q :=
  Qmax 1.3 (EF + (0.1 - (5 - q) * (0.08 + (5 - q) * 0.02))).


(** Modelled from the spec: the scheduling state of a card that was never
    reviewed.  The column defaults of the card table are declared in the
    Prisma schema, which is not among the sources; the specification gives
    them as ease factor 2.5 (the code's [DEFAULT_EASE_FACTOR]), interval 0
    and 0 repetitions. *)
Definition freshState (quality : Q) : SM2Input.t Q :=
  {| SM2Input.quality := quality;
     SM2Input.repetitions := 0;
     SM2Input.easeFactor := 2.5;
     SM2Input.interval := 0 |}.

(** The next review of a card whose last review gave [r] *)
Definition nextInput (quality : Q) (r : SM2Result.t Q) : SM2Input.t Q :=
  {| SM2Input.quality := quality;
     SM2Input.repetitions := SM2Result.repetitions r;
     SM2Input.easeFactor := SM2Result.easeFactor r;
     SM2Input.interval := SM2Result.interval r |}.

End SpecSM2.

(** The input of a review of quality [quality] of a card that started fresh
    and was reviewed before with the qualities [past], latest first *)
Fixpoint stateAfter (clk : Clock) (past : list Q) (quality : Q) : SM2Input.t Q :=
  match past with
  | [] => freshState quality
  | q0 :: older => nextInput quality (calculateSM2 clk (stateAfter clk older q0))
  end.

(** *** Days *)

(** The local calendar day of an instant, and its local time of day in
    milliseconds (0 is 00:00:00.000 and 86399999 is 23:59:59.999) *)
Definition localDay (clk : Clock) (t : Z) : Z := ((t + tzOffset clk) / msPerDay)%Z.

Definition localTimeOfDay (clk : Clock) (t : Z) : Z := ((t + tzOffset clk) mod msPerDay)%Z.

(** *** Reviews and resets *)

(** A card row with its scheduling state put back to that of a new card,
    due at [t] *)
Definition resetState (t : Z) (c : Card.t Q) : Card.t Q :=
  {| Card.id := Card.id c;
     Card.deckId := Card.deckId c;
     Card.easeFactor := 2.5%Q;
     Card.interval := 0%Q;
     Card.repetitions := 0%Q;
     Card.nextReviewAt := t;
     Card.lastReviewAt := None;
     Card.createdAt := Card.createdAt c |}.

(** The two writes of one review of [card] (the row as read): the record
    that is appended, and the scheduling state that replaces the old one *)
Definition sm2InputOf (input : ReviewCardInput Q) (card : Card.t Q) : SM2Input.t Q :=
  {| SM2Input.quality := input_quality input;
     SM2Input.repetitions := Card.repetitions card;
     SM2Input.easeFactor := Card.easeFactor card;
     SM2Input.interval := Card.interval card |}.

Definition reviewRecordOf (clk : Clock) (cardId : string) (input : ReviewCardInput Q)
    (card : Card.t Q) : CardReview.t Q :=
  let r := calculateSM2 clk (sm2InputOf input card) in
  {| CardReview.cardId := cardId;
     CardReview.sessionId := input_sessionId input;
     CardReview.quality := input_quality input;
     CardReview.previousInterval := Card.interval card;
     CardReview.previousEaseFactor := Card.easeFactor card;
     CardReview.newInterval := SM2Result.interval r;
     CardReview.newEaseFactor := SM2Result.easeFactor r;
     CardReview.reviewedAt := now clk |}.

Definition scheduledRow (clk : Clock) (r : SM2Result.t Q) (c : Card.t Q) : Card.t Q :=
  {| Card.id := Card.id c;
     Card.deckId := Card.deckId c;
     Card.easeFactor := SM2Result.easeFactor r;
     Card.interval := SM2Result.interval r;
     Card.repetitions := SM2Result.repetitions r;
     Card.nextReviewAt := SM2Result.nextReviewDate r;
     Card.lastReviewAt := Some (now clk);
     Card.createdAt := Card.createdAt c |}.

(** The cards table after the rows with id [cardId] were rewritten by [f] *)
Definition rewriteCard (cardId : string) (f : Card.t Q -> Card.t Q)
    (rows : list (Card.t Q)) : list (Card.t Q) :=
  map (fun c => if String.eqb (Card.id c) cardId then f c else c) rows.

(** One review is atomic when a failed call leaves both tables as they
    were, and a successful one has appended a record and rewritten the
    card. *)
Definition reviewIsAtomic (w : World Q) (userId cardId : string)
    (input : ReviewCardInput Q) : Prop :=
  let res := reviewCard userId cardId input w in
  match fst res with
  | Ok card' =>
      (exists record, cardReviews (db (snd res)) = cardReviews (db w) ++ [record])
      /\ In card' (cards (db (snd res)))
  | Throw _ =>
      cardReviews (db (snd res)) = cardReviews (db w)
      /\ cards (db (snd res)) = cards (db w)
  end.

(** *** Streaks and retention *)

(** The [n] consecutive days that end with day [d] are all study days
    ([dates] lists the study days): a streak of length [n] *)
Definition isStreak (dates : list Z) (d n : Z) : Prop :=
  forall j : Z, (0 <= j < n)%Z -> In (d - j)%Z dates.

(** The calendar dates on which the user started a session *)
Definition studyDates {num : Type} (d : DB num) (userId : string) : list Z :=
  map (fun s => isoDate (StudySession.startedAt s))
      (List.filter (fun s => String.eqb (StudySession.userId s) userId) (studySessions d)).

(** What the loop of the longest streak leaves, as the code combines it *)
Definition loopMax (l : list Z) (longest temp : Z) : Z :=
  Z.max (fst (longestStreakLoop l longest temp)) (snd (longestStreakLoop l longest temp)).

(** What the specification asks of the two streaks, for the study dates
    [dates] and the calendar date [today] of the clock *)
Definition streaksAsSpecified (dates : list Z) (today : Z) (current longest : Z) : Prop :=
  (dates = [] -> current = 0%Z /\ longest = 0%Z)
  /\ (forall latest : Z,
        In latest dates -> (forall d, In d dates -> (d <= latest)%Z) ->
        (latest <> today -> latest <> (today - 1)%Z -> current = 0%Z)
        /\ (latest = today \/ latest = (today - 1)%Z ->
            (1 <= current)%Z
            /\ isStreak dates latest current
            /\ ~ In (latest - current)%Z dates))
  /\ (dates <> [] ->
      (1 <= longest)%Z
      /\ (exists d, isStreak dates d longest)
      /\ (forall d n, isStreak dates d n -> (n <= longest)%Z)).

(** The reviews made in the user's sessions, and those among them that
    count as successful (quality at least 3) *)
Definition userReviews {num : Type} `{!JsNumber num} (d : DB num) (userId : string)
  : list (CardReview.t num) :=
  List.filter (reviewOfUser d userId) (cardReviews d).

Definition successfulReviews {num : Type} `{!JsNumber num} (d : DB num) (userId : string)
  : list (CardReview.t num) :=
  List.filter (fun r => num_leb (lit 3) (CardReview.quality r)) (userReviews d userId).

(** *** Sessions *)

(** [sel] is what a query keeps of [pool] when it orders by [key] and takes
    [n] rows: [n] rows of the pool (all of them when there are fewer), in
    ascending order of [key], none with a greater key than a row left out *)
Definition firstByKey {A} (key : A -> Z) (n : Z) (pool sel : list A) : Prop :=
  Z.of_nat (length sel) = Z.min n (Z.of_nat (length pool))
  /\ StronglySorted (keyLe key) sel
  /\ exists rest, pool ≡ₚ sel ++ rest
                  /\ forall a b, In a sel -> In b rest -> (key a <= key b)%Z.

(** [x] is a deck below [p] in the hierarchy: a child of [p], or a deck
    below a child of [p] *)
Inductive descendant (ds : list Deck.t) (p : string) : string -> Prop :=
  | descendant_child (d : Deck.t) :
      In d ds -> Deck.parentId d = Some p -> descendant ds p (Deck.id d)
  | descendant_deeper (c : Deck.t) (x : string) :
      In c ds -> Deck.parentId c = Some p -> descendant ds (Deck.id c) x ->
      descendant ds p x.

(** The filter of the query for the children of a deck *)
Definition childOf (parentId : string) (d : Deck.t) : bool :=
  match Deck.parentId d with
  | Some p => String.eqb p parentId
  | None => false
  end.

(** ** Sample data

    Small stores, used to run the operations on concrete inputs. *)

Definition sampleDecks : list Deck.t :=
  [Deck.Build "d1" "u1" None; Deck.Build "d2" "u1" (Some "d1");
   Deck.Build "d3" "u1" (Some "d2"); Deck.Build "x1" "u2" None]%string.

Definition sampleCard : Card.t Q :=
  Card.Build "c3" "d3" 1.96%Q 15%Q 4%Q 8553600000%Z (Some 8035200000%Z) 4000%Z.

Definition sampleWorld (script : list bool) : World Q :=
  {| db := {| decks := sampleDecks;
              cards := [Card.Build "c1" "d1" 2.5%Q 0%Q 0%Q 8640000000%Z None 5000%Z;
                        sampleCard;
                        Card.Build "c6" "x1" 2.5%Q 6%Q 2%Q 7776000000%Z None 4000%Z];
              cardReviews := [];
              studySessions := [StudySession.Build "s1" "u1" 8640000005%Z] |};
     clock := {| now := 8643600000%Z; tzOffset := 7200000%Z |};
     random := fun _ => (1 # 2)%Q;
     drawn := 0;
     faults := script |}.

Definition sampleReview : ReviewCardInput Q :=
  {| input_quality := 4%Q; input_sessionId := "s1"%string |}.

(** The depth of the sample decks, from the leaves up *)
Definition sampleRank (deckId : string) : nat :=
  if String.eqb deckId "d1" then 3
  else if String.eqb deckId "d2" then 2
  else if String.eqb deckId "d3" then 1
  else 0.

(** A store with one user, one session and one review for each of the
    given qualities *)
Definition reviewsWorld {num : Type} `{!JsNumber num} (qualities : list Q) : World num :=
  {| db := {| decks := sampleDecks;
              cards := [];
              cardReviews :=
                map (fun q => CardReview.Build "c1" "s1" (lit q) (lit 0) (lit 2.5)
                                               (lit 1) (lit 2.6) 8640000000%Z)
                    qualities;
              studySessions := [StudySession.Build "s1" "u1" 8640000005%Z] |};
     clock := {| now := 8643600000%Z; tzOffset := 7200000%Z |};
     random := fun _ => lit 0;
     drawn := 0;
     faults := [] |}.

(** A store whose only content is sessions of one user, started at the
    given instants *)
Definition sessionsWorld (starts : list Z) (clk : Clock) : World Q :=
  {| db := {| decks := sampleDecks;
              cards := [];
              cardReviews := [];
              studySessions := map (StudySession.Build "s" "u1") starts |};
     clock := clk;
     random := fun _ => 0%Q;
     drawn := 0;
     faults := [] |}.

(** ** deck.service.ts: listing and editing decks

    The identifier of a new row is generated by the store; it is passed to
    the operation that creates the row.  A deck's name and description are
    not among the columns modelled, so the inputs carry the parent only. *)

Section DeckEditing.
Context {num : Type} `{!JsNumber num}.

(** [findMany] on cards ordered by a column, latest first, without [take] *)
Definition card_findMany_desc (where_ : DB num -> Card.t num -> bool)
    (orderBy : Card.t num -> Z) : M num (list (Card.t num)) :=
  prisma_read (fun d => reverse (orderByAsc orderBy (List.filter (where_ d) (cards d)))).

(** [prisma.deck.create({ data })]: appends the row, under the identifier
    generated for it; identifiers are unique, so the store rejects the row
    when the identifier is taken. *)
Definition deck_create (data : Deck.t) : M num Deck.t :=
  prisma_write (fun d =>
    match List.find (fun x => String.eqb (Deck.id x) (Deck.id data)) (decks d) with
    | Some _ => None
    | None =>
        Some (data,
              {| decks := decks d ++ [data];
                 cards := cards d;
                 cardReviews := cardReviews d;
                 studySessions := studySessions d |})
    end).

(** [prisma.deck.update({ where: { id }, data })]: rejects when there is no
    such deck, else rewrites the row and returns it. *)
Definition deck_update (deckId : string) (data : Deck.t -> Deck.t) : M num Deck.t :=
  prisma_write (fun d =>
    match List.find (fun x => String.eqb (Deck.id x) deckId) (decks d) with
    | None => None
    | Some dk =>
        Some (data dk,
              {| decks := map (fun x => if String.eqb (Deck.id x) deckId then data x else x)
                              (decks d);
                 cards := cards d;
                 cardReviews := cardReviews d;
                 studySessions := studySessions d |})
    end).

(** The filter [{ id: deckId, userId }] *)
Definition ownedDeck (userId deckId : string) (d : Deck.t) : bool :=
  String.eqb (Deck.id d) deckId && String.eqb (Deck.userId d) userId.

(** [CreateDeckInput]: [parentId] is a string or is absent. *)
Record CreateDeckInput := { create_parentId : option string }.

(** [UpdateDeckInput]: [parentId] is absent ([None]), [null] ([Some None])
    or a string. *)
Record UpdateDeckInput := { update_parentId : option (option string) }.

(** A string in a condition: true unless it is empty *)
Definition truthy (s : string) : bool := negb (String.eqb s "").

Definition createDeck (newId userId : string) (input : CreateDeckInput) : M num Deck.t :=
  _ <- match create_parentId input with
       | Some parentId =>
           if truthy parentId then
             parentDeck <- deck_findFirst (ownedDeck userId parentId) ;;
             match parentDeck with
             | None => throw (JsError "Parent deck not found")
             | Some _ => ret tt
             end
           else ret tt
       | None => ret tt
       end ;;
  deck_create {| Deck.id := newId;
                 Deck.userId := userId;
                 Deck.parentId := create_parentId input |}.

Definition updateDeck (userId deckId : string) (input : UpdateDeckInput) : M num Deck.t :=
  deck <- deck_findFirst (ownedDeck userId deckId) ;;
  match deck with
  | None => throw (JsError "Deck not found")
  | Some _ =>
      _ <- match update_parentId input with
           | Some (Some parentId) =>
               if truthy parentId then
                 parentDeck <- deck_findFirst (ownedDeck userId parentId) ;;
                 match parentDeck with
                 | None => throw (JsError "Parent deck not found")
                 | Some _ =>
                     if String.eqb parentId deckId
                     then throw (JsError "A deck cannot be its own parent")
                     else ret tt
                 end
               else ret tt
           | _ => ret tt
           end ;;
      deck_update deckId (fun d =>
        match update_parentId input with
        | Some parentId => {| Deck.id := Deck.id d;
                              Deck.userId := Deck.userId d;
                              Deck.parentId := parentId |}
        | None => d
        end)
  end.

(** All cards in a deck, with those of its sub-decks when asked for *)
Definition getDeckCards (fuel : nat) (userId deckId : string) (includeSubDecks : bool)
  : M num (list (Card.t num)) :=
  deck <- deck_findFirst (ownedDeck userId deckId) ;;
  match deck with
  | None => throw (JsError "Deck not found")
  | Some _ =>
      if includeSubDecks then
        deckIds <- getSubDeckIds fuel deckId ;;
        let deckIds := deckIds ++ [deckId] in
        card_findMany_desc (fun _ => deckIn deckIds) Card.createdAt
      else
        card_findMany_desc (fun _ c => String.eqb (Card.deckId c) deckId) Card.createdAt
  end.

End DeckEditing.

(** *** The deck hierarchy *)

(** No deck is its own ancestor: the decks can be ranked so that every
    deck ranks below its parent *)
Definition acyclic (ds : list Deck.t) : Prop :=
  exists rank : string -> nat,
    forall d p, In d ds -> Deck.parentId d = Some p -> (rank (Deck.id d) < rank p)%nat.

(** Every parent named by a deck is a deck *)
Definition parentsExist (ds : list Deck.t) : Prop :=
  forall d p, In d ds -> Deck.parentId d = Some p -> exists d', In d' ds /\ Deck.id d' = p.

(** ** deck.service.ts: the decks of a user, as a hierarchy

    [buildDeckHierarchy] puts one object for each deck into a [Map], and
    then pushes these objects into each other's [children] arrays, or into
    the array of roots.  The arrays hold references: an object that was
    pushed still receives children afterwards.  Here the map is the heap
    of these objects, and a reference to an object is its key. *)

Module DeckWithStats.
Record t := Build {
  deck : Deck.t;
  cardCount : Z;
  dueCount : Z;
  newCount : Z
}.
End DeckWithStats.

(** A [Map] from strings: [get] is application, and [has] is
    [is_Some]. *)
Definition DeckMap : Type := string -> option (DeckWithStats.t * list string).

Definition mapSet (m : DeckMap) (key : string) (value : DeckWithStats.t * list string)
  : DeckMap :=
  fun k => if String.eqb k key then Some value else m k.

(** First pass: create map *)
Definition createMap (decks : list DeckWithStats.t) : DeckMap :=
  fold_left (fun deckMap deck => mapSet deckMap (Deck.id (DeckWithStats.deck deck)) (deck, []))
            decks (fun _ => None).

(** One step of the second pass *)
Definition placeDeck (state : list string * DeckMap) (deck : DeckWithStats.t)
  : list string * DeckMap :=
  let '(rootDecks, deckMap) := state in
  let deckWithChildren := Deck.id (DeckWithStats.deck deck) in
  match Deck.parentId (DeckWithStats.deck deck) with
  | Some parentId =>
      match (if truthy parentId then deckMap parentId else None) with
      | Some (parent, children) =>
          (rootDecks, mapSet deckMap parentId (parent, children ++ [deckWithChildren]))
      | None => (rootDecks ++ [deckWithChildren], deckMap)
      end
  | None => (rootDecks ++ [deckWithChildren], deckMap)
  end.

(** The roots, and the heap that holds them and the decks below them *)
Definition buildDeckHierarchy (decks : list DeckWithStats.t) : list string * DeckMap :=
  fold_left placeDeck decks ([], createMap decks).

Section DecksWithStats.
Context {num : Type} `{!JsNumber num}.
Local Open Scope js_scope.

(** All decks of a user with statistics.  The decks are ordered by name;
    the name is not among the columns modelled, so the order of the names
    is given by [nameOrder]. *)
Definition getDecksWithStats (nameOrder : Deck.t -> Z) (userId : string)
  : M num (list string * DeckMap) :=
  decks <- prisma_read (fun d =>
             map (fun dk => (dk, List.filter
                                   (fun c => String.eqb (Card.deckId c) (Deck.id dk))
                                   (cards d)))
                 (orderByAsc nameOrder
                    (List.filter (fun dk => String.eqb (Deck.userId dk) userId) (decks d)))) ;;
  clk <- getClock ;;
  let now := setHours clk (now clk) 23 59 59 999 in
  let decksWithStats :=
    map (fun '(deck, cards) =>
           {| DeckWithStats.deck := deck;
              DeckWithStats.cardCount := count cards;
              DeckWithStats.dueCount :=
                count (List.filter (fun c => (Card.nextReviewAt c <=? now)%Z
                                             && (Card.repetitions c >? lit 0)) cards);
              DeckWithStats.newCount :=
                count (List.filter (fun c => Card.repetitions c === lit 0) cards) |})
        decks in
  ret (buildDeckHierarchy decksWithStats).

End DecksWithStats.

(** The decks that the result shows: the roots, and the children of a deck
    that it shows *)
Inductive listed (result : list string * DeckMap) : string -> Prop :=
  | listed_root (x : string) : In x (fst result) -> listed result x
  | listed_child (p x : string) (parent : DeckWithStats.t) (children : list string) :
      listed result p -> snd result p = Some (parent, children) -> In x children ->
      listed result x.

(** The parent under which the second pass files a deck, when the keys of
    the map are those that [has] accepts *)
Definition validParent (has : string -> bool) (d : DeckWithStats.t) : option string :=
  match Deck.parentId (DeckWithStats.deck d) with
  | Some p => if truthy p && has p then Some p else None
  | None => None
  end.

Definition rootsOf (has : string -> bool) (l : list DeckWithStats.t) : list string :=
  map (fun d => Deck.id (DeckWithStats.deck d))
      (List.filter (fun d => match validParent has d with Some _ => false | None => true end) l).

Definition childrenOf (has : string -> bool) (p : string) (l : list DeckWithStats.t)
  : list string :=
  map (fun d => Deck.id (DeckWithStats.deck d))
      (List.filter (fun d => match validParent has d with
                             | Some q => String.eqb q p
                             | None => false
                             end) l).

Definition hasKey (m : DeckMap) (k : string) : bool :=
  match m k with Some _ => true | None => false end.

(** ** card.service.ts: creating cards in bulk

    The store fills in the columns that the call does not give: the
    identifier, the creation time, the time of the last review.  These
    values are passed to the operation, one triple for each new row. *)

Record Generated := {
  gen_id : string;
  gen_createdAt : Z;
  gen_lastReviewAt : option Z
}.

(** [CreateCardInput], with the column modelled; [createCards] does not
    look at the tags. *)
Record CreateCardInput := { card_deckId : string }.

#[export] Instance string_eq_dec : EqDecision string := String.string_dec.

Fixpoint distinctIds (ids : list string) : bool :=
  match ids with
  | [] => true
  | x :: rest => negb (existsb (String.eqb x) rest) && distinctIds rest
  end.

Section CreateCards.
Context {num : Type} `{!JsNumber num}.

(** The columns given for a new card: deck, ease factor, interval,
    repetitions and next review *)
Definition newCardRow (g : Generated) (data : string * num * num * num * Z) : Card.t num :=
  let '(deckId, easeFactor, interval, repetitions, nextReviewAt) := data in
  {| Card.id := gen_id g;
     Card.deckId := deckId;
     Card.easeFactor := easeFactor;
     Card.interval := interval;
     Card.repetitions := repetitions;
     Card.nextReviewAt := nextReviewAt;
     Card.lastReviewAt := gen_lastReviewAt g;
     Card.createdAt := gen_createdAt g |}.

(** [prisma.card.createMany({ data })]: appends the rows and returns their
    number; identifiers are unique, so the store rejects the rows when an
    identifier is taken or given twice. *)
Definition card_createMany (generated : nat -> Generated)
    (data : list (string * num * num * num * Z)) : M num Z :=
  prisma_write (fun d =>
    let rows := imap (fun k row => newCardRow (generated k) row) data in
    if distinctIds (map Card.id rows)
       && forallb (fun row => negb (existsb (fun c => String.eqb (Card.id c) (Card.id row))
                                            (cards d))) rows
    then Some (count rows,
               {| decks := decks d;
                  cards := cards d ++ rows;
                  cardReviews := cardReviews d;
                  studySessions := studySessions d |})
    else None).

(** Create multiple cards at once (for import) *)
Definition createCards (generated : nat -> Generated) (userId : string)
    (cards : list CreateCardInput) : M num Z :=
  let deckIds := remove_dups (map card_deckId cards) in
  decks <- deck_findMany (fun d => existsb (String.eqb (Deck.id d)) deckIds
                                   && String.eqb (Deck.userId d) userId) ;;
  let validDeckIds := map Deck.id decks in
  let validCards :=
    List.filter (fun c => existsb (String.eqb (card_deckId c)) validDeckIds) cards in
  if (length validCards =? 0)%nat then throw (JsError "No valid decks found")
  else
    clk <- getClock ;;
    card_createMany generated
      (map (fun card => (card_deckId card, DEFAULT_EASE_FACTOR, lit 0, lit 0, now clk))
           validCards).

End CreateCards.

(** The decks of [userId] hold a deck with identifier [deckId] *)
Definition hasDeck {num : Type} (d : DB num) (userId deckId : string) : bool :=
  existsb (fun dk => String.eqb (Deck.id dk) deckId && String.eqb (Deck.userId dk) userId)
          (decks d).

(** ** stats.service.ts: statistics of a deck *)

Module DeckStats.
Record t (num : Type) := Build {
  deckId : string;
  totalCards : Z;
  newCards : Z;
  learningCards : Z;
  matureCards : Z;
  dueCards : Z;
  averageEaseFactor : num;
  retentionRate : num
}.
Arguments Build {num}.
Arguments deckId {num}.
Arguments totalCards {num}.
Arguments newCards {num}.
Arguments learningCards {num}.
Arguments matureCards {num}.
Arguments dueCards {num}.
Arguments averageEaseFactor {num}.
Arguments retentionRate {num}.
End DeckStats.

Section DeckStatsService.
Context {num : Type} `{!JsNumber num}.
Local Open Scope js_scope.

(** the relation filter [card: { deckId }] on a review *)
Definition reviewOfDeck (d : DB num) (deckId : string) (r : CardReview.t num) : bool :=
  match List.find (fun c => String.eqb (Card.id c) (CardReview.cardId r)) (cards d) with
  | Some c => String.eqb (Card.deckId c) deckId
  | None => false
  end.

(** [findFirst] on decks with [include: { cards }]: the deck and its cards *)
Definition deck_findFirst_withCards (where_ : Deck.t -> bool)
  : M num (option (Deck.t * list (Card.t num))) :=
  prisma_read (fun d =>
    option_map
      (fun dk => (dk, List.filter (fun c => String.eqb (Card.deckId c) (Deck.id dk)) (cards d)))
      (List.find where_ (decks d))).

Definition getDeckStats (userId deckId : string) : M num (option (DeckStats.t num)) :=
  deck <- deck_findFirst_withCards (ownedDeck userId deckId) ;;
  match deck with
  | None => ret None
  | Some (deck, cards) =>
      clk <- getClock ;;
      let now := now clk in
      (* categorize cards *)
      let newCards := count (List.filter (fun c => Card.repetitions c === lit 0) cards) in
      let learningCards :=
        count (List.filter (fun c => (Card.repetitions c >? lit 0)
                                     && (Card.interval c <? lit 21)) cards) in
      let matureCards := count (List.filter (fun c => Card.interval c >=? lit 21) cards) in
      let dueCards := count (List.filter (fun c => (Card.nextReviewAt c <=? now)%Z) cards) in
      (* average ease factor *)
      let avgEase :=
        if (count cards >? 0)%Z
        then fold_left (fun sum c => sum + Card.easeFactor c) cards (lit 0) / ofZ (count cards)
        else lit 2.5 in
      (* retention rate for this deck *)
      deckReviews <- cardReview_findMany (fun d r => reviewOfDeck d deckId r) ;;
      let successfulDeckReviews :=
        count (List.filter (fun r => CardReview.quality r >=? lit 3) deckReviews) in
      let retentionRate :=
        if (count deckReviews >? 0)%Z
        then Math_round ((ofZ successfulDeckReviews / ofZ (count deckReviews)) * lit 100)
        else lit 0 in
      ret (Some {| DeckStats.deckId := Deck.id deck;
                   DeckStats.totalCards := count cards;
                   DeckStats.newCards := newCards;
                   DeckStats.learningCards := learningCards;
                   DeckStats.matureCards := matureCards;
                   DeckStats.dueCards := dueCards;
                   DeckStats.averageEaseFactor := Math_round (avgEase * lit 100) / lit 100;
                   DeckStats.retentionRate := retentionRate |})
  end.

Definition getAllDeckStats (userId : string) : M num (list (DeckStats.t num)) :=
  decks <- deck_findMany (fun d => String.eqb (Deck.userId d) userId) ;;
  foldM (fun stats deck =>
           deckStats <- getDeckStats userId (Deck.id deck) ;;
           match deckStats with
           | Some s => ret (stats ++ [s])
           | None => ret stats
           end)
        decks [].

End DeckStatsService.

(** ** study.service.ts: sessions and their statistics *)

Module SessionWithStats.
Record t (num : Type) := Build {
  session : StudySession.t;
  reviewCount : Z;
  correctCount : Z;
  averageQuality : num
}.
Arguments Build {num}.
Arguments session {num}.
Arguments reviewCount {num}.
Arguments correctCount {num}.
Arguments averageQuality {num}.
End SessionWithStats.

Module StudyStats.
Record t := Build {
  totalCards : Z;
  totalDecks : Z;
  totalReviews : Z;
  todayReviews : Z;
  streak : Z;
  dueToday : Z
}.
End StudyStats.

(** The loop of [calculateStreak], over [sortedDays] from index 1 on:
    [current] and [previous] are [sortedDays[i - 1]] and [sortedDays[i]].
    The quotient is not rounded, so it is compared as a rational. *)
Fixpoint streakLoop (sortedDays : list Z) (streak : Z) : Z :=
  match sortedDays with
  | current :: ((previous :: _) as rest) =>
      if Qeq_bool (inject_Z (dateOfIso current - dateOfIso previous) / 86400000) 1
      then streakLoop rest (streak + 1)%Z
      else streak
  | _ => streak
  end.

Module StudyService.
Section StudyService.
Context {num : Type} `{!JsNumber num}.
Local Open Scope js_scope.

(** The statistics of one session, computed from its reviews (the code
    computes them in the same way in [getSessionWithStats] and in
    [getRecentSessions]) *)
Definition withStats (session : StudySession.t) (reviews : list (CardReview.t num))
  : SessionWithStats.t num :=
  let reviewCount := count reviews in
  let correctCount := count (List.filter (fun r => CardReview.quality r >=? lit 3) reviews) in
  let averageQuality :=
    if (reviewCount >? 0)%Z
    then fold_left (fun sum r => sum + CardReview.quality r) reviews (lit 0) / ofZ reviewCount
    else lit 0 in
  {| SessionWithStats.session := session;
     SessionWithStats.reviewCount := reviewCount;
     SessionWithStats.correctCount := correctCount;
     SessionWithStats.averageQuality := Math_round (averageQuality * lit 100) / lit 100 |}.

(** [include: { reviews: true }]: the reviews of a session *)
Definition reviewsOf (d : DB num) (session : StudySession.t) : list (CardReview.t num) :=
  List.filter (fun r => String.eqb (CardReview.sessionId r) (StudySession.id session))
              (cardReviews d).

Definition getSessionWithStats (userId sessionId : string)
  : M num (option (SessionWithStats.t num)) :=
  session <- prisma_read (fun d =>
               option_map (fun s => (s, reviewsOf d s))
                 (List.find (fun s => String.eqb (StudySession.id s) sessionId
                                      && String.eqb (StudySession.userId s) userId)
                            (studySessions d))) ;;
  match session with
  | None => ret None
  | Some (session, reviews) => ret (Some (withStats session reviews))
  end.

Definition getRecentSessions (userId : string) (limit : Z)
  : M num (list (SessionWithStats.t num)) :=
  sessions <- prisma_read (fun d =>
                map (fun s => (s, reviewsOf d s))
                  (takeRows limit
                     (reverse (orderByAsc StudySession.startedAt
                                 (List.filter
                                    (fun s => String.eqb (StudySession.userId s) userId)
                                    (studySessions d)))))) ;;
  ret (map (fun '(session, reviews) => withStats session reviews) sessions).

(** Consecutive days with reviews *)
Definition calculateStreak (userId : string) : M num Z :=
  reviews <- prisma_read (fun d =>
               reverse (orderByAsc CardReview.reviewedAt
                          (List.filter (reviewOfUser d userId) (cardReviews d)))) ;;
  if (length reviews =? 0)%nat then ret 0%Z
  else
    let sortedDays := uniqueDatesOf (map (fun r => isoDate (CardReview.reviewedAt r)) reviews) in
    clk <- getClock ;;
    let today := isoDate (now clk) in
    let yesterday := isoDate (now clk - 86400000)%Z in
    match sortedDays with
    | d0 :: _ =>
        if negb (d0 =? today)%Z && negb (d0 =? yesterday)%Z then ret 0%Z
        else ret (streakLoop sortedDays 1%Z)
    | [] => ret 0%Z
    end.

Definition getUserStats (userId : string) : M num StudyStats.t :=
  clk <- getClock ;;
  let startOfToday := startOfLocalDay clk (now clk) in
  let endOfToday := setHours clk startOfToday 23 59 59 999 in
  totalCards <- card_count (fun d c => cardOfUser d userId c) ;;
  totalDecks <- deck_count (fun d => String.eqb (Deck.userId d) userId) ;;
  totalReviews <- cardReview_count (fun d r => reviewOfUser d userId r) ;;
  todayReviews <- cardReview_count
                    (fun d r => reviewOfUser d userId r
                                && (startOfToday <=? CardReview.reviewedAt r)%Z
                                && (CardReview.reviewedAt r <=? endOfToday)%Z) ;;
  dueToday <- card_count (fun d c => cardOfUser d userId c
                                     && (Card.nextReviewAt c <=? endOfToday)%Z) ;;
  streak <- calculateStreak userId ;;
  ret {| StudyStats.totalCards := totalCards;
         StudyStats.totalDecks := totalDecks;
         StudyStats.totalReviews := totalReviews;
         StudyStats.todayReviews := todayReviews;
         StudyStats.streak := streak;
         StudyStats.dueToday := dueToday |}.

End StudyService.
End StudyService.

(** ** The SM-2 module: describing the next review *)

(** A whole number in a template literal: its decimal digits *)
Definition numberToString (n : Z) : string :=
  DecimalString.NilZero.string_of_int (Z.to_int n).

(** [Math.ceil(a / b)] and [Math.round(a / b)] for whole numbers [a] and
    [b > 0]: the quotient is a rational, rounded up, or to the nearest
    whole number with a tie going up. *)
Definition ceilDiv (a b : Z) : Z := (- ((- a) / b))%Z.

Definition roundDiv (a b : Z) : Z := Qround_half_up (inject_Z a / inject_Z b).

Definition plural (n : Z) : string := if (n >? 1)%Z then "s" else "".

(** A human-readable description of the next review *)
Definition getNextReviewDescription (clk : Clock) (nextReviewAt : Z) : string :=
  let diffTime := (nextReviewAt - now clk)%Z in
  let diffDays := ceilDiv diffTime (1000 * 60 * 60 * 24) in
  if (diffDays <=? 0)%Z then "Due now"
  else if (diffDays =? 1)%Z then "Tomorrow"
  else if (diffDays <? 7)%Z then "In " ++ numberToString diffDays ++ " days"
  else if (diffDays <? 30)%Z then
    let weeks := roundDiv diffDays 7 in
    "In " ++ numberToString weeks ++ " week" ++ plural weeks
  else if (diffDays <? 365)%Z then
    let months := roundDiv diffDays 30 in
    "In " ++ numberToString months ++ " month" ++ plural months
  else
    let years := roundDiv diffDays 365 in
    "In " ++ numberToString years ++ " year" ++ plural years.

(** ** Further vocabulary

    Notions used to state what the operations keep and how they compose. *)

(** A scheduling state as the code leaves it: whole numbers of repetitions
    and of days, at least one day once there is a repetition and at most
    one day while there is none, and an ease factor with two decimals that
    is at least 1.30 *)
Definition schedulingOk (c : Card.t Q) : Prop :=
  exists repetitions interval hundredths : Z,
    Card.repetitions c = inject_Z repetitions
    /\ Card.interval c = inject_Z interval
    /\ (Card.easeFactor c == inject_Z hundredths / 100)%Q
    /\ (0 <= repetitions)%Z
    /\ (0 <= interval)%Z
    /\ (1 <= repetitions -> 1 <= interval)%Z
    /\ (repetitions = 0 -> interval <= 1)%Z
    /\ (130 <= hundredths)%Z.

(** The reviews among [reviews] made on the local calendar day [day] *)
Definition reviewsOnLocalDay {num : Type} (clk : Clock) (day : Z)
    (reviews : list (CardReview.t num)) : list (CardReview.t num) :=
  List.filter (fun r => (localDay clk (CardReview.reviewedAt r) =? day)%Z) reviews.

(** The total of the daily counts of an activity series *)
Definition totalStudied {num : Type} (activity : list (DailyActivity.t num)) : Z :=
  fold_right (fun e sum => (DailyActivity.cardsStudied e + sum)%Z) 0%Z activity.

(** The calendar dates on which the user made a review *)
Definition reviewDates {num : Type} `{!JsNumber num} (d : DB num) (userId : string)
  : list Z :=
  map (fun r => isoDate (CardReview.reviewedAt r)) (userReviews d userId).

(** What a current streak over the study days [dates] is, for the
    calendar date [today]: 0 unless the latest study day is today or
    yesterday, and else the number of consecutive study days that end with
    the latest one *)
Definition currentStreakAsSpecified (dates : list Z) (today current : Z) : Prop :=
  (dates = [] -> current = 0%Z)
  /\ forall latest : Z,
       In latest dates -> (forall d, In d dates -> (d <= latest)%Z) ->
       (latest <> today -> latest <> (today - 1)%Z -> current = 0%Z)
       /\ (latest = today \/ latest = (today - 1)%Z ->
           (1 <= current)%Z
           /\ isStreak dates latest current
           /\ ~ In (latest - current)%Z dates).

(** The current streak as both services compute it from a list of dates *)
Definition currentStreakOf (dates : list Z) (today : Z) : Z :=
  match uniqueDatesOf dates with
  | d0 :: _ =>
      if (d0 =? today)%Z || (d0 =? today - 1)%Z
      then currentStreakLoop (uniqueDatesOf dates) 1%Z
      else 0%Z
  | [] => 0%Z
  end.

(** The time values a [Date] can hold: up to 8.64e15 milliseconds either
    side of the epoch.  A [Date] set beyond them is an Invalid Date, which
    the instants of this model do not represent: what is stated of a date
    that the code computes is stated for dates within the range. *)
Definition inDateRange (t : Z) : Prop :=
  (- 8640000000000000 <= t <= 8640000000000000)%Z.

(** The scheduling state (repetitions, ease factor, interval) that a review
    of the given quality leaves on a card, as [reviewCard] stores it from
    the result of [calculateSM2] *)
Definition reviewedState {num : Type} `{!JsNumber num} (clk : Clock)
    (state : num * num * num) (quality : Q) : num * num * num :=
  let '(repetitions, easeFactor, interval) := state in
  let r := calculateSM2 clk (SM2Input.Build (lit quality) repetitions easeFactor interval) in
  (SM2Result.repetitions r, SM2Result.easeFactor r, SM2Result.interval r).

(** The scheduling state of a card that started as a new card (the state of
    [freshState]) and was reviewed with the qualities [past], oldest
    first *)
Definition stateOfReviews {num : Type} `{!JsNumber num} (clk : Clock) (past : list Q)
  : num * num * num :=
  fold_left (reviewedState clk) past (lit 0%Q, DEFAULT_EASE_FACTOR, lit 0%Q).

(** ** Further sample data *)

(** The sample store with a session of the second user added *)
Definition twoUsersWorld : World Q :=
  {| db := {| decks := sampleDecks;
              cards := cards (db (sampleWorld []));
              cardReviews := [];
              studySessions := [StudySession.Build "s1" "u1" 8640000005%Z;
                                StudySession.Build "s2" "u2" 8640000007%Z] |};
     clock := clock (sampleWorld []);
     random := fun _ => (1 # 2)%Q;
     drawn := 0;
     faults := [] |}.

(** Two decks of one user, each the parent of the other *)
Definition cyclicWorld : World Q :=
  setStore (sampleWorld [])
    {| decks := [Deck.Build "a" "u1" (Some "b"); Deck.Build "b" "u1" (Some "a")]%string;
       cards := []; cardReviews := []; studySessions := [] |} [].

(** Values for the store to give to new rows *)
Definition sampleGenerated (k : nat) : Generated :=
  {| gen_id := if (k =? 0)%nat then "n0" else "n1";
     gen_createdAt := 8643600001;
     gen_lastReviewAt := None |}.

(** * Verification *)

(** ** binary64: literals and rounding *)

Example f64_lit_tenth : f64_lit 0.1%Q = 0x1.999999999999ap-4%float.
Proof. reflexivity. Qed.

Example f64_round_cases :
  (f64_round 2.5, f64_round (-2.5), f64_round 0x1.0cccccccccccdp+4, f64_round (-0.25))%float
  = (3, -2, 17, -0)%float.
Proof. vm_compute. reflexivity. Qed.

Arguments lit {num _} q%_Q.

(** ** Exact arithmetic: comparison and rounding *)

(** Linear arithmetic over [Q], with division by a literal turned into a
    multiplication first *)
Ltac lraQ := unfold Qdiv in *; cbn [Qinv Qnum Qden] in *; lra.

Section ExactFacts.
Local Open Scope Q_scope.

Lemma Qltb_lt (a b : Q) : Qltb a b = true <-> a < b.
Proof.
  unfold Qltb. rewrite negb_true_iff, <- not_true_iff_false, Qle_bool_iff.
  split; [apply Qnot_le_lt | apply Qlt_not_le].
Qed.

Lemma Qltb_ge (a b : Q) : Qltb a b = false <-> b <= a.
Proof.
  unfold Qltb. rewrite negb_false_iff. apply Qle_bool_iff.
Qed.

Lemma round_half_up_upper (x : Q) : inject_Z (Qround_half_up x) <= x + (1 # 2).
Proof. apply Qfloor_le. Qed.


Lemma round_half_up_ge (n : Z) (x : Q) :
  inject_Z n <= x -> (n <= Qround_half_up x)%Z.
Proof.
  intros H. unfold Qround_half_up.
  rewrite <- (Qfloor_Z n). apply Qfloor_resp_le. lra.
Qed.

Lemma round_half_up_inject (n : Z) : Qround_half_up (inject_Z n) = n.
Proof.
  unfold Qround_half_up.
  apply Z.le_antisymm.
  - apply Z.lt_succ_r. rewrite Zlt_Qlt.
    eapply Qle_lt_trans; [apply Qfloor_le|].
    unfold Z.succ. rewrite inject_Z_plus. change (inject_Z 1) with 1. lra.
  - rewrite <- (Qfloor_Z n) at 1. apply Qfloor_resp_le. lra.
Qed.

Lemma Qmax_inject (a b : Z) : Qmax (inject_Z a) (inject_Z b) = inject_Z (Z.max a b).
Proof.
  unfold Qmax, GenericMinMax.gmax, Qcompare, Z.max, inject_Z. simpl.
  rewrite !Z.mul_1_r. destruct (a ?= b)%Z; reflexivity.
Qed.

Lemma Qmin_inject (a b : Z) : Qmin (inject_Z a) (inject_Z b) = inject_Z (Z.min a b).
Proof.
  unfold Qmin, GenericMinMax.gmin, Qcompare, Z.min, inject_Z. simpl.
  rewrite !Z.mul_1_r. destruct (a ?= b)%Z; reflexivity.
Qed.

(** Round, then clamp into 0..5 *)
Lemma clampQuality_exact (quality : Q) :
  clampQuality quality = inject_Z (Z.max 0 (Z.min 5 (Qround_half_up quality))).
Proof.
  unfold clampQuality. cbn [lit Math_max Math_min Math_round exact].
  change 5 with (inject_Z 5). change 0 with (inject_Z 0).
  now rewrite Qmin_inject, Qmax_inject.
Qed.

End ExactFacts.

(** ** calculateSM2 *)

Section SM2Facts.
Local Open Scope Q_scope.

(** The fields of the result, read off the code. *)
Lemma calculateSM2_easeFactor (clk : Clock) (input : SM2Input.t Q) :
  SM2Result.easeFactor (calculateSM2 clk input)
  = inject_Z (Qround_half_up
                (specEaseFactor (SM2Input.easeFactor input)
                                (clampQuality (SM2Input.quality input)) * 100)) / 100.
Proof.
  unfold calculateSM2.
  destruct (num_ltb _ _); [reflexivity|].
  destruct (num_eqb _ (lit 1)); [reflexivity|].
  destruct (num_eqb _ (lit 2)); reflexivity.
Qed.

Lemma calculateSM2_failure (clk : Clock) (input : SM2Input.t Q) :
  clampQuality (SM2Input.quality input) < 3 ->
  SM2Result.repetitions (calculateSM2 clk input) = 0
  /\ SM2Result.interval (calculateSM2 clk input) = 1.
Proof.
  intros H. apply Qltb_lt in H. unfold calculateSM2.
  cbn [num_ltb exact lit]. rewrite H. split; reflexivity.
Qed.

Lemma calculateSM2_success (clk : Clock) (input : SM2Input.t Q) :
  3 <= clampQuality (SM2Input.quality input) ->
  let repetitions := SM2Input.repetitions input + 1 in
  SM2Result.repetitions (calculateSM2 clk input) = repetitions
  /\ SM2Result.interval (calculateSM2 clk input)
     = if Qeq_bool repetitions 1 then 1
       else if Qeq_bool repetitions 2 then 6
       else inject_Z (Qround_half_up
                        (SM2Input.interval input
                         * specEaseFactor (SM2Input.easeFactor input)
                                          (clampQuality (SM2Input.quality input)))).
Proof.
  intros H. apply Qltb_ge in H. unfold calculateSM2.
  cbn [num_ltb num_eqb num_add exact lit]. rewrite H.
  destruct (Qeq_bool _ 1); [split; reflexivity|].
  destruct (Qeq_bool _ 2); split; reflexivity.
Qed.

Lemma specEaseFactor_floor (EF q : Q) : 1.3 <= specEaseFactor EF q.
Proof. apply Q.le_max_l. Qed.


Lemma specQuality_range (quality : Q) : (0 <= specQuality quality <= 5)%Z.
Proof. unfold specQuality. lia. Qed.

Lemma clampQuality_idem (quality : Q) :
  clampQuality (inject_Z (specQuality quality)) = clampQuality quality.
Proof.
  rewrite !clampQuality_exact, round_half_up_inject. f_equal.
  pose proof (specQuality_range quality). fold (specQuality quality). lia.
Qed.

(** Claim C2.  The quality is rounded and then clamped into 0..5, never
    rejected: [calculateSM2] returns for any quality what it returns for the
    clamped one.  When the clamped quality is below 3, the result has
    [repetitions = 0] and [interval = 1], whatever the repetitions and the
    interval were. *)
Theorem calculateSM2_failure_resets (clk : Clock) (input : SM2Input.t Q) :
  let q := specQuality (SM2Input.quality input) in
  let clamped :=
    {| SM2Input.quality := inject_Z q;
       SM2Input.repetitions := SM2Input.repetitions input;
       SM2Input.easeFactor := SM2Input.easeFactor input;
       SM2Input.interval := SM2Input.interval input |} in
  (0 <= q <= 5)%Z
  /\ calculateSM2 clk input = calculateSM2 clk clamped
  /\ ((q < 3)%Z ->
      SM2Result.repetitions (calculateSM2 clk input) = 0
      /\ SM2Result.interval (calculateSM2 clk input) = 1).
Proof.
  intros q clamped. split; [apply specQuality_range|]. split.
  - unfold calculateSM2, clamped. cbn [SM2Input.quality SM2Input.repetitions
      SM2Input.easeFactor SM2Input.interval]. subst q.
    now rewrite clampQuality_idem.
  - intros Hq. apply calculateSM2_failure. rewrite clampQuality_exact.
    fold (specQuality (SM2Input.quality input)). fold q.
    rewrite Zlt_Qlt in Hq. exact Hq.
Qed.

Lemma calculateSM2_failure_resets_witness :
  SM2Result.repetitions
    (calculateSM2 {| now := 0; tzOffset := 0 |}
       {| SM2Input.quality := 2.4; SM2Input.repetitions := 7;
          SM2Input.easeFactor := 2.18; SM2Input.interval := 43 |}) = 0
  /\ SM2Result.interval
       (calculateSM2 {| now := 0; tzOffset := 0 |}
          {| SM2Input.quality := 2.4; SM2Input.repetitions := 7;
             SM2Input.easeFactor := 2.18; SM2Input.interval := 43 |}) = 1.
Proof.
  apply (calculateSM2_failure_resets {| now := 0; tzOffset := 0 |}
           {| SM2Input.quality := 2.4; SM2Input.repetitions := 7;
              SM2Input.easeFactor := 2.18; SM2Input.interval := 43 |}).
  reflexivity.
Defined.

(** The intervals of a success in exact arithmetic.  When the clamped
    quality is at least 3, [calculateSM2] adds 1 to the repetitions, and
    the interval is 1 when the new count is 1, 6 when it is 2, and
    [round(oldInterval * EF')] when it is 3 or more, [EF'] being the new
    ease factor (before its rounding to two decimals).  Three reviews of
    quality 5 of a fresh card give the intervals 1, 6 and [round(6 * EF')],
    which is 17. *)
Theorem calculateSM2_success_intervals (clk : Clock) :
  (forall input : SM2Input.t Q,
     (3 <= specQuality (SM2Input.quality input))%Z ->
     let repetitions' := SM2Input.repetitions input + 1 in
     let EF' := specEaseFactor (SM2Input.easeFactor input)
                               (inject_Z (specQuality (SM2Input.quality input))) in
     let r := calculateSM2 clk input in
     SM2Result.repetitions r = repetitions'
     /\ (repetitions' == 1 -> SM2Result.interval r = 1)
     /\ (repetitions' == 2 -> SM2Result.interval r = 6)
     /\ (3 <= repetitions' ->
         SM2Result.interval r
         = inject_Z (Qround_half_up (SM2Input.interval input * EF'))))
  /\ (let r1 := calculateSM2 clk (freshState 5) in
      let r2 := calculateSM2 clk (nextInput 5 r1) in
      let r3 := calculateSM2 clk (nextInput 5 r2) in
      (SM2Result.repetitions r1 = 1 /\ SM2Result.interval r1 = 1)
      /\ (SM2Result.repetitions r2 = 2 /\ SM2Result.interval r2 = 6)
      /\ (SM2Result.repetitions r3 = 3
          /\ SM2Result.interval r3
             = inject_Z (Qround_half_up (6 * specEaseFactor (SM2Result.easeFactor r2) 5))
          /\ SM2Result.interval r3 = 17)).
Proof.
  split.
  - intros input Hq repetitions' EF' r.
    assert (3 <= clampQuality (SM2Input.quality input)) as Hc.
    { rewrite clampQuality_exact. fold (specQuality (SM2Input.quality input)).
      rewrite Zle_Qle in Hq. exact Hq. }
    destruct (calculateSM2_success clk input Hc) as [Hr Hi].
    fold r in Hr, Hi. cbv zeta in Hr, Hi. fold repetitions' in Hr, Hi.
    rewrite clampQuality_exact in Hi.
    fold (specQuality (SM2Input.quality input)) in Hi. fold EF' in Hi.
    split; [exact Hr|]. rewrite Hi. repeat split.
    + intros H1. apply Qeq_bool_iff in H1. now rewrite H1.
    + intros H2.
      destruct (Qeq_bool repetitions' 1) eqn:E1.
      * apply Qeq_bool_iff in E1. rewrite E1 in H2. discriminate H2.
      * apply Qeq_bool_iff in H2. now rewrite H2.
    + intros H3.
      destruct (Qeq_bool repetitions' 1) eqn:E1.
      { apply Qeq_bool_iff in E1. lra. }
      destruct (Qeq_bool repetitions' 2) eqn:E2.
      { apply Qeq_bool_iff in E2. lra. }
      reflexivity.
  - vm_compute. repeat split.
Qed.

Lemma calculateSM2_success_intervals_witness :
  SM2Result.interval
    (calculateSM2 {| now := 0; tzOffset := 0 |}
       {| SM2Input.quality := 4; SM2Input.repetitions := 2;
          SM2Input.easeFactor := 2.36; SM2Input.interval := 6 |})
  = inject_Z (Qround_half_up (6 * specEaseFactor 2.36 4)).
Proof.
  apply (proj1 (calculateSM2_success_intervals {| now := 0; tzOffset := 0 |})
           {| SM2Input.quality := 4; SM2Input.repetitions := 2;
              SM2Input.easeFactor := 2.36; SM2Input.interval := 6 |}).
  - vm_compute. discriminate.
  - vm_compute. discriminate.
Defined.

Lemma inject_Z_succ (n : Z) : inject_Z n + 1 = inject_Z (n + 1).
Proof. unfold Qplus, inject_Z. cbn [Qnum Qden]. f_equal. lia. Qed.

Lemma Qeq_bool_inject (a b : Z) : Qeq_bool (inject_Z a) (inject_Z b) = (a =? b)%Z.
Proof.
  destruct (Z.eqb_spec a b) as [->|Hne].
  - apply Qeq_bool_iff. reflexivity.
  - apply not_true_iff_false. intros H. apply Qeq_bool_iff in H.
    apply Hne. now apply inject_Z_injective.
Qed.

(** The interval a success gives, for whole numbers of repetitions. *)
Lemma calculateSM2_success_Z (clk : Clock) (quality easeFactor interval : Q)
    (repetitions : Z) :
  (3 <= specQuality quality)%Z ->
  let r := calculateSM2 clk
             {| SM2Input.quality := quality;
                SM2Input.repetitions := inject_Z repetitions;
                SM2Input.easeFactor := easeFactor;
                SM2Input.interval := interval |} in
  SM2Result.repetitions r = inject_Z (repetitions + 1)
  /\ SM2Result.interval r
     = if (repetitions =? 0)%Z then 1
       else if (repetitions =? 1)%Z then 6
       else inject_Z (Qround_half_up
                        (interval * specEaseFactor easeFactor
                                      (inject_Z (specQuality quality)))).
Proof.
  intros Hq r.
  assert (3 <= clampQuality quality) as Hc.
  { rewrite clampQuality_exact. fold (specQuality quality).
    rewrite Zle_Qle in Hq. exact Hq. }
  destruct (calculateSM2_success clk
              {| SM2Input.quality := quality;
                 SM2Input.repetitions := inject_Z repetitions;
                 SM2Input.easeFactor := easeFactor;
                 SM2Input.interval := interval |} Hc) as [Hr Hi].
  cbn [SM2Input.repetitions SM2Input.quality SM2Input.easeFactor SM2Input.interval]
    in Hr, Hi.
  fold r in Hr, Hi. rewrite inject_Z_succ in Hr, Hi. split; [exact Hr|].
  rewrite Hi. change 1 with (inject_Z 1) at 1. change 2 with (inject_Z 2) at 1.
  rewrite !Qeq_bool_inject, clampQuality_exact. fold (specQuality quality).
  replace (repetitions + 1 =? 1)%Z with (repetitions =? 0)%Z by lia.
  replace (repetitions + 1 =? 2)%Z with (repetitions =? 1)%Z by lia.
  reflexivity.
Qed.

Lemma round_product_ge_1 (interval : Z) (EF q : Q) :
  (1 <= interval)%Z ->
  (1 <= Qround_half_up (inject_Z interval * specEaseFactor EF q))%Z.
Proof.
  intros Hi. apply round_half_up_ge. change (inject_Z 1) with 1.
  pose proof (specEaseFactor_floor EF q) as Hf.
  rewrite Zle_Qle in Hi. change (inject_Z 1) with 1 in Hi.
  apply Qle_trans with (1 * specEaseFactor EF q); [lra|].
  apply Qmult_le_compat_r; [exact Hi | lra].
Qed.

Lemma specQuality_cases (quality : Q) :
  clampQuality quality < 3 /\ (specQuality quality < 3)%Z
  \/ 3 <= clampQuality quality /\ (3 <= specQuality quality)%Z.
Proof.
  rewrite clampQuality_exact. fold (specQuality quality).
  destruct (Z_lt_le_dec (specQuality quality) 3) as [H|H]; [left|right];
    (split; [|exact H]).
  - rewrite Zlt_Qlt in H. exact H.
  - rewrite Zle_Qle in H. exact H.
Qed.

(** What [calculateSM2] returns as interval, for whole numbers of days and
    repetitions: the four cases of the code. *)
Lemma calculateSM2_interval_cases (clk : Clock) (quality easeFactor : Q)
    (repetitions interval : Z) :
  let r := calculateSM2 clk
             {| SM2Input.quality := quality;
                SM2Input.repetitions := inject_Z repetitions;
                SM2Input.easeFactor := easeFactor;
                SM2Input.interval := inject_Z interval |} in
  let EF' := specEaseFactor easeFactor (inject_Z (specQuality quality)) in
  SM2Result.interval r
  = inject_Z (if (specQuality quality <? 3)%Z then 1
              else if (repetitions =? 0)%Z then 1
              else if (repetitions =? 1)%Z then 6
              else Qround_half_up (inject_Z interval * EF'))
  /\ SM2Result.repetitions r
     = inject_Z (if (specQuality quality <? 3)%Z then 0 else repetitions + 1).
Proof.
  intros r EF'.
  destruct (specQuality_cases quality) as [[Hc Hq]|[Hc Hq]].
  - destruct (calculateSM2_failure clk
                {| SM2Input.quality := quality;
                   SM2Input.repetitions := inject_Z repetitions;
                   SM2Input.easeFactor := easeFactor;
                   SM2Input.interval := inject_Z interval |} Hc) as [Hr Hi].
    fold r in Hr, Hi. rewrite Hr, Hi.
    apply Z.ltb_lt in Hq. rewrite Hq. split; reflexivity.
  - destruct (calculateSM2_success_Z clk quality easeFactor (inject_Z interval)
                repetitions Hq) as [Hr Hi].
    fold r in Hr, Hi. fold EF' in Hi. rewrite Hr, Hi.
    apply Z.ltb_ge in Hq. rewrite Hq.
    destruct (repetitions =? 0)%Z; [split; reflexivity|].
    destruct (repetitions =? 1)%Z; split; reflexivity.
Qed.

(** Claim C10.  For whole, non-negative repetitions and interval: when
    the interval is at least 1 or the repetitions are at most 1, the
    returned interval is at least 1; a returned interval of 0 needs an
    interval of 0 and at least 2 repetitions in the input (and such an
    input, reviewed with success, does give 0).  Every state reached from a
    fresh card by reviews is reviewed into an interval of at least 1. *)
Theorem calculateSM2_interval_at_least_one (clk : Clock) :
  (forall (quality easeFactor : Q) (repetitions interval : Z),
     (0 <= repetitions)%Z -> (0 <= interval)%Z ->
     let r := calculateSM2 clk
                {| SM2Input.quality := quality;
                   SM2Input.repetitions := inject_Z repetitions;
                   SM2Input.easeFactor := easeFactor;
                   SM2Input.interval := inject_Z interval |} in
     ((1 <= interval)%Z \/ (repetitions <= 1)%Z -> 1 <= SM2Result.interval r)
     /\ (SM2Result.interval r == 0 -> interval = 0%Z /\ (2 <= repetitions)%Z)
     /\ (interval = 0%Z -> (2 <= repetitions)%Z -> (3 <= specQuality quality)%Z ->
         SM2Result.interval r == 0))
  /\ (forall (past : list Q) (quality : Q),
        1 <= SM2Result.interval (calculateSM2 clk (stateAfter clk past quality))).
Proof.
  assert (forall (quality easeFactor : Q) (repetitions interval : Z),
     (0 <= repetitions)%Z -> (0 <= interval)%Z ->
     let r := calculateSM2 clk
                {| SM2Input.quality := quality;
                   SM2Input.repetitions := inject_Z repetitions;
                   SM2Input.easeFactor := easeFactor;
                   SM2Input.interval := inject_Z interval |} in
     ((1 <= interval)%Z \/ (repetitions <= 1)%Z -> 1 <= SM2Result.interval r)
     /\ (SM2Result.interval r == 0 -> interval = 0%Z /\ (2 <= repetitions)%Z)
     /\ (interval = 0%Z -> (2 <= repetitions)%Z -> (3 <= specQuality quality)%Z ->
         SM2Result.interval r == 0)) as Hmain.
  { intros quality easeFactor repetitions interval Hrep Hint r.
    destruct (calculateSM2_interval_cases clk quality easeFactor repetitions interval)
      as [Hi _]. fold r in Hi. rewrite Hi. clear Hi r.
    set (EF' := specEaseFactor easeFactor (inject_Z (specQuality quality))).
    change 1 with (inject_Z 1). change 0 with (inject_Z 0).
    rewrite <- Zle_Qle. rewrite inject_Z_injective.
    destruct (Z.ltb_spec (specQuality quality) 3) as [Hq|Hq].
    { repeat split; intros; lia. }
    destruct (Z.eqb_spec repetitions 0) as [H0|H0].
    { repeat split; intros; lia. }
    destruct (Z.eqb_spec repetitions 1) as [H1|H1].
    { repeat split; intros; lia. }
    split; [|split].
    - intros [Hi|Hr]; [|lia]. apply round_product_ge_1. exact Hi.
    - intros Hz. split; [|lia].
      destruct (Z.eq_dec interval 0%Z) as [|Hne]; [assumption|exfalso].
      pose proof (round_product_ge_1 interval easeFactor
                    (inject_Z (specQuality quality))) as Hge.
      fold EF' in Hge. lia.
    - intros -> _ _. unfold Qround_half_up.
      assert (inject_Z 0 * EF' + (1 # 2) == 1 # 2) as ->
        by (change (inject_Z 0) with 0; lra).
      reflexivity. }
  split; [exact Hmain|].
  assert (forall past quality,
            exists n m : Z,
              (0 <= n)%Z /\ (0 <= m)%Z /\ ((1 <= m)%Z \/ (n <= 1)%Z)
              /\ stateAfter clk past quality
                 = {| SM2Input.quality := quality;
                      SM2Input.repetitions := inject_Z n;
                      SM2Input.easeFactor := SM2Input.easeFactor (stateAfter clk past quality);
                      SM2Input.interval := inject_Z m |}) as Hinv.
  { induction past as [|q0 older IH]; intros quality.
    - exists 0%Z, 0%Z. repeat split; lia.
    - destruct (IH q0) as (n & m & Hn & Hm & Hnm & Hs).
      cbn [stateAfter]. unfold nextInput. cbn [SM2Input.easeFactor].
      rewrite Hs.
      destruct (calculateSM2_interval_cases clk q0
                  (SM2Input.easeFactor (stateAfter clk older q0)) n m) as [Hi Hr].
      destruct (Hmain q0 (SM2Input.easeFactor (stateAfter clk older q0)) n m Hn Hm)
        as (Hpos & _ & _).
      specialize (Hpos Hnm). rewrite Hi in Hpos |- *. rewrite Hr.
      change 1 with (inject_Z 1) in Hpos. rewrite <- Zle_Qle in Hpos.
      eexists _, _. split; [|split; [|split; [|reflexivity]]].
      + destruct (specQuality q0 <? 3)%Z; lia.
      + lia.
      + left. exact Hpos. }
  intros past quality.
  destruct (Hinv past quality) as (n & m & Hn & Hm & Hnm & Hs).
  rewrite Hs. apply Hmain; assumption.
Qed.

Lemma calculateSM2_interval_at_least_one_witness :
  1 <= SM2Result.interval
         (calculateSM2 {| now := 0; tzOffset := 0 |}
            {| SM2Input.quality := 3; SM2Input.repetitions := inject_Z 4;
               SM2Input.easeFactor := 1.3; SM2Input.interval := inject_Z 1 |}).
Proof.
  apply (proj1 (calculateSM2_interval_at_least_one {| now := 0; tzOffset := 0 |})
           3 1.3 4%Z 1%Z); [lia | lia | left; lia].
Defined.

End SM2Facts.

(** ** calculateSM2 on binary64 numbers

    The three reviews of quality 5 of a fresh card, computed with doubles:
    the intervals are 1, 6 and 17 again, and the ease factors are the
    doubles nearest to 2.6, 2.7 and 2.8. *)

Example calculateSM2_fresh_trajectory_binary64 :
  let clk := {| now := 0; tzOffset := 0 |} in
  let review r :=
    calculateSM2 (num := float) clk
      (SM2Input.Build (lit 5) (SM2Result.repetitions r) (SM2Result.easeFactor r)
                      (SM2Result.interval r)) in
  let r1 := calculateSM2 (num := float) clk
              (SM2Input.Build (lit 5) (lit 0) DEFAULT_EASE_FACTOR (lit 0)) in
  let r2 := review r1 in
  let r3 := review r2 in
  (SM2Result.interval r1, SM2Result.interval r2, SM2Result.interval r3)
  = (lit 1, lit 6, lit 17)
  /\ (SM2Result.easeFactor r1, SM2Result.easeFactor r2, SM2Result.easeFactor r3)
     = (lit 2.6, lit 2.7, lit 2.8).
Proof. vm_compute. split; reflexivity. Qed.

(** ** isDue *)

Section DateFacts.
Local Open Scope Z_scope.

Lemma startOfLocalDay_spec (clk : Clock) (t : Z) :
  localDay clk (startOfLocalDay clk t) = localDay clk t
  /\ localTimeOfDay clk (startOfLocalDay clk t) = 0
  /\ startOfLocalDay clk t <= t < startOfLocalDay clk t + msPerDay.
Proof.
  unfold localDay, localTimeOfDay, startOfLocalDay, msPerDay.
  repeat split; Z.div_mod_to_equations; lia.
Qed.

Lemma setHours_end_of_day (clk : Clock) (t : Z) :
  setHours clk t 23 59 59 999 = startOfLocalDay clk t + 86399999.
Proof. unfold setHours. lia. Qed.

Lemma isDue_iff (clk : Clock) (nextReviewAt : Z) :
  isDue clk nextReviewAt = true
  <-> nextReviewAt <= startOfLocalDay clk (now clk) + 86399999.
Proof.
  unfold isDue. rewrite setHours_end_of_day. apply Z.leb_le.
Qed.

(** Claim C7.  [isDue] compares with 23:59:59.999 of the day of the
    clock: it answers [true] exactly for the instants up to that one, that
    is, for the instants whose local day is not after today.  The end of
    the day itself is due; one millisecond later, 00:00:00.000 of the next
    day, is not. *)
Theorem isDue_end_of_reference_day (clk : Clock) (nextReviewAt : Z) :
  let endOfDay := setHours clk (now clk) 23 59 59 999 in
  (localDay clk endOfDay = localDay clk (now clk)
   /\ localTimeOfDay clk endOfDay = ((23 * 60 + 59) * 60 + 59) * 1000 + 999)
  /\ (isDue clk nextReviewAt = true <-> nextReviewAt <= endOfDay)
  /\ (isDue clk nextReviewAt = true <-> localDay clk nextReviewAt <= localDay clk (now clk))
  /\ isDue clk endOfDay = true
  /\ (localDay clk (endOfDay + 1) = localDay clk (now clk) + 1
      /\ localTimeOfDay clk (endOfDay + 1) = 0
      /\ isDue clk (endOfDay + 1) = false).
Proof.
  intros endOfDay. subst endOfDay. rewrite setHours_end_of_day.
  assert (forall t, isDue clk t = true
                    <-> t <= startOfLocalDay clk (now clk) + 86399999) as Hd
    by (intros t; apply isDue_iff).
  assert (forall t, isDue clk t = false
                    <-> startOfLocalDay clk (now clk) + 86399999 < t) as Hn.
  { intros t. rewrite <- not_true_iff_false, Hd. lia. }
  rewrite !Hd, Hn.
  unfold localDay, localTimeOfDay, startOfLocalDay, msPerDay.
  repeat split; intros; Z.div_mod_to_equations; lia.
Qed.

End DateFacts.

(** ** Running store operations *)

Section RunFacts.
Context {num : Type} `{!JsNumber num}.

Lemma bind_ok {A B} (m : M num A) (k : A -> M num B) (w w' : World num) (a : A) :
  m w = (Ok a, w') -> bind m k w = k a w'.
Proof. intros H. unfold bind. now rewrite H. Qed.

(** Without failures, a query answers and changes nothing. *)
Lemma prisma_read_ok {A} (query : DB num -> A) (w : World num) :
  faults w = [] -> prisma_read query w = (Ok (query (db w)), w).
Proof. intros H. unfold prisma_read. now rewrite H. Qed.

Lemma prisma_write_ok {A} (action : DB num -> option (A * DB num)) (w : World num)
    (a : A) (d : DB num) :
  faults w = [] -> action (db w) = Some (a, d) ->
  prisma_write action w = (Ok a, setStore w d []).
Proof. intros H Ha. unfold prisma_write. now rewrite H, Ha. Qed.

Lemma find_id_of_owned (userId cardId : string) (d : DB num) (card : Card.t num) :
  List.find (ownedCard userId cardId d) (cards d) = Some card ->
  exists c0, List.find (fun c => String.eqb (Card.id c) cardId) (cards d) = Some c0.
Proof.
  intros H. apply find_some in H as [Hin Hown].
  destruct (List.find (fun c => String.eqb (Card.id c) cardId) (cards d)) as [c0|] eqn:E.
  - now exists c0.
  - exfalso. pose proof (find_none _ _ E card Hin) as Hn. cbn beta in Hn.
    unfold ownedCard in Hown. rewrite Hn in Hown. discriminate.
Qed.

Lemma find_map_preserved {A} (p : A -> bool) (f : A -> A) (l : list A) :
  (forall x, p (f x) = p x) ->
  List.find p (map f l) = option_map f (List.find p l).
Proof.
  intros Hp. induction l as [|x l IH]; [reflexivity|].
  cbn [map List.find]. rewrite Hp. destruct (p x); [reflexivity|exact IH].
Qed.

End RunFacts.

(** ** resetCard and reviewCard *)

Section CardFacts.
Local Open Scope Q_scope.

Lemma resetCard_run (w : World Q) (userId cardId : string) (card : Card.t Q) :
  faults w = [] ->
  List.find (ownedCard userId cardId (db w)) (cards (db w)) = Some card ->
  exists c0,
    List.find (fun c => String.eqb (Card.id c) cardId) (cards (db w)) = Some c0
    /\ resetCard userId cardId w
       = (Ok (resetState (now (clock w)) c0),
          setStore w
            {| decks := decks (db w);
               cards := rewriteCard cardId (resetState (now (clock w))) (cards (db w));
               cardReviews := cardReviews (db w);
               studySessions := studySessions (db w) |} []).
Proof.
  intros Hf Hfind.
  destruct (find_id_of_owned _ _ _ _ Hfind) as [c0 Hc0]. exists c0. split; [exact Hc0|].
  unfold resetCard.
  rewrite (bind_ok _ _ w w (Some card));
    [|unfold card_findFirst; rewrite prisma_read_ok by exact Hf; now rewrite Hfind].
  rewrite (bind_ok _ _ w w (clock w)) by reflexivity.
  unfold card_update. erewrite prisma_write_ok; [reflexivity|exact Hf|].
  rewrite Hc0. reflexivity.
Qed.

Lemma reviewCard_run (w : World Q) (userId cardId : string) (input : ReviewCardInput Q)
    (card : Card.t Q) :
  faults w = [] ->
  List.find (ownedCard userId cardId (db w)) (cards (db w)) = Some card ->
  let clk := clock w in
  let r := calculateSM2 clk (sm2InputOf input card) in
  exists c0,
    List.find (fun c => String.eqb (Card.id c) cardId) (cards (db w)) = Some c0
    /\ reviewCard userId cardId input w
       = (Ok (scheduledRow clk r c0),
          setStore w
            {| decks := decks (db w);
               cards := rewriteCard cardId (scheduledRow clk r) (cards (db w));
               cardReviews := cardReviews (db w) ++ [reviewRecordOf clk cardId input card];
               studySessions := studySessions (db w) |} []).
Proof.
  intros Hf Hfind clk r.
  destruct (find_id_of_owned _ _ _ _ Hfind) as [c0 Hc0]. exists c0. split; [exact Hc0|].
  unfold reviewCard.
  rewrite (bind_ok _ _ w w (Some card));
    [|unfold card_findFirst; rewrite prisma_read_ok by exact Hf; now rewrite Hfind].
  rewrite (bind_ok _ _ w w (clock w)) by reflexivity.
  erewrite bind_ok;
    [|unfold cardReview_create; erewrite prisma_write_ok; [reflexivity|exact Hf|reflexivity]].
  unfold card_update. erewrite prisma_write_ok; [reflexivity|reflexivity|].
  cbn [db setStore cards]. rewrite Hc0. reflexivity.
Qed.

Lemma ownedCard_id (userId cardId : string) (d : DB Q) (c : Card.t Q) :
  ownedCard userId cardId d c = true -> Card.id c = cardId.
Proof.
  unfold ownedCard. intros H. apply andb_true_iff in H as [H _].
  now apply String.eqb_eq.
Qed.

Lemma ownedCard_rewrite (userId cardId : string) (d d' : DB Q)
    (f : Card.t Q -> Card.t Q) (c : Card.t Q) :
  decks d' = decks d ->
  (forall x, Card.id (f x) = Card.id x /\ Card.deckId (f x) = Card.deckId x) ->
  ownedCard userId cardId d'
    (if String.eqb (Card.id c) cardId then f c else c)
  = ownedCard userId cardId d c.
Proof.
  intros Hd Hfx. unfold ownedCard, cardOfUser, findDeck. rewrite Hd.
  destruct (String.eqb (Card.id c) cardId) eqn:E; [|now rewrite E].
  destruct (Hfx c) as [-> ->]. now rewrite E.
Qed.

(** Claim C9.  For a card the user owns, and when the store does not
    fail, [resetCard] succeeds and returns the card with [easeFactor = 2.5],
    [interval = 0], [repetitions = 0], [nextReviewAt = now] and
    [lastReviewAt = null]; in the store, the rows with this id are rewritten
    so and the others are kept, and no review record is added, removed or
    changed.  A review of quality 5 made next gives the card the state a
    fresh card gets from its first review (1 repetition, interval 1, ease
    factor 2.6), whatever the state before the reset was. *)
Theorem resetCard_restores_new_card_state (w : World Q) (userId cardId : string)
    (card : Card.t Q) :
  faults w = [] ->
  List.find (ownedCard userId cardId (db w)) (cards (db w)) = Some card ->
  exists card' w',
    resetCard userId cardId w = (Ok card', w')
    /\ (Card.id card' = cardId
        /\ Card.easeFactor card' = 2.5
        /\ Card.interval card' = 0
        /\ Card.repetitions card' = 0
        /\ Card.nextReviewAt card' = now (clock w)
        /\ Card.lastReviewAt card' = None)
    /\ cards (db w') = rewriteCard cardId (resetState (now (clock w))) (cards (db w))
    /\ cardReviews (db w') = cardReviews (db w)
    /\ decks (db w') = decks (db w)
    /\ studySessions (db w') = studySessions (db w)
    /\ forall sessionId : string,
         exists card'' w'',
           reviewCard userId cardId
             {| input_quality := 5; input_sessionId := sessionId |} w' = (Ok card'', w'')
           /\ (let fresh := calculateSM2 (clock w) (freshState 5) in
               Card.repetitions card'' = SM2Result.repetitions fresh
               /\ Card.easeFactor card'' = SM2Result.easeFactor fresh
               /\ Card.interval card'' = SM2Result.interval fresh
               /\ Card.nextReviewAt card'' = SM2Result.nextReviewDate fresh)
           /\ Card.repetitions card'' = 1
           /\ Card.interval card'' = 1
           /\ Card.easeFactor card'' == 2.6.
Proof.
  intros Hf Hfind.
  destruct (resetCard_run w userId cardId card Hf Hfind) as (c0 & Hc0 & Hrun).
  eexists _, _. split; [exact Hrun|].
  split.
  { apply find_some in Hc0 as [_ Hid]. apply String.eqb_eq in Hid.
    cbn. repeat split. exact Hid. }
  do 4 (split; [reflexivity|]).
  intros sessionId.
  set (w' := setStore w _ []).
  assert (List.find (ownedCard userId cardId (db w')) (cards (db w'))
          = Some (resetState (now (clock w)) card)) as Hfind'.
  { subst w'. cbn [db setStore cards]. unfold rewriteCard.
    rewrite find_map_preserved.
    - change (List.find (ownedCard userId cardId _) (cards (db w)))
        with (List.find (ownedCard userId cardId (db w)) (cards (db w))).
      rewrite Hfind. cbn [option_map]. f_equal.
      apply find_some in Hfind as [_ Hown]. apply ownedCard_id in Hown.
      apply String.eqb_eq in Hown. now rewrite Hown.
    - intros x. apply ownedCard_rewrite; [reflexivity|]. intros y; split; reflexivity. }
  destruct (reviewCard_run w' userId cardId
              {| input_quality := 5; input_sessionId := sessionId |}
              _ eq_refl Hfind') as (c1 & _ & Hrun').
  eexists _, _. split; [exact Hrun'|].
  split; [repeat split|].
  vm_compute. repeat split.
Qed.

Lemma resetCard_restores_new_card_state_witness :
  exists card' w',
    resetCard "u1" "c3" (sampleWorld []) = (Ok card', w')
    /\ (Card.id card' = "c3"%string
        /\ Card.easeFactor card' = 2.5
        /\ Card.interval card' = 0
        /\ Card.repetitions card' = 0
        /\ Card.nextReviewAt card' = 8643600000%Z
        /\ Card.lastReviewAt card' = None).
Proof.
  destruct (resetCard_restores_new_card_state (sampleWorld []) "u1" "c3" sampleCard
              eq_refl eq_refl) as (card' & w' & H & Hfields & _).
  exists card', w'. split; [exact H|exact Hfields].
Defined.

(** Claim C6, as amended.  [reviewCard] makes two separate writes, the
    review record first and the card second.  When it succeeds, the record
    was appended and the card rewritten.  When it fails, the card table is
    as it was, and the review table is either as it was or has the new
    record appended: the record is not taken back.  Decks and sessions are
    never touched.  Without a storage failure, a review of an owned card
    succeeds. *)
Theorem reviewCard_record_then_card (w : World Q) (userId cardId : string)
    (input : ReviewCardInput Q) :
  let res := reviewCard userId cardId input w in
  let clk := clock w in
  let r card := calculateSM2 clk (sm2InputOf input card) in
  let owned := List.find (ownedCard userId cardId (db w)) (cards (db w)) in
  decks (db (snd res)) = decks (db w)
  /\ studySessions (db (snd res)) = studySessions (db w)
  /\ match fst res with
     | Ok card' =>
         exists card c0,
           owned = Some card
           /\ List.find (fun c => String.eqb (Card.id c) cardId) (cards (db w)) = Some c0
           /\ card' = scheduledRow clk (r card) c0
           /\ cardReviews (db (snd res))
              = cardReviews (db w) ++ [reviewRecordOf clk cardId input card]
           /\ cards (db (snd res))
              = rewriteCard cardId (scheduledRow clk (r card)) (cards (db w))
     | Throw e =>
         cards (db (snd res)) = cards (db w)
         /\ (cardReviews (db (snd res)) = cardReviews (db w)
             \/ exists card,
                  owned = Some card
                  /\ cardReviews (db (snd res))
                     = cardReviews (db w) ++ [reviewRecordOf clk cardId input card])
     end
  /\ (faults w = [] -> forall card, owned = Some card -> exists card', fst res = Ok card').
Proof.
  intros res clk r owned.
  assert (faults w = [] -> forall card, owned = Some card -> exists card', fst res = Ok card')
    as Hok.
  { intros Hf card Hc.
    destruct (reviewCard_run w userId cardId input card Hf Hc) as (c0 & _ & Hrun).
    subst res. rewrite Hrun. eexists. reflexivity. }
  split; [|split; [|split; [|exact Hok]]]; clear Hok; subst res owned r clk;
    destruct w as [d clk rnd dr fs];
    unfold reviewCard, bind, card_findFirst, getClock, cardReview_create, card_update,
      prisma_read, prisma_write;
    cbn [fst snd db clock decks cards cardReviews studySessions faults setStore];
    destruct fs as [|[] [|[] [|[] fs]]];
    cbn [fst snd db clock decks cards cardReviews studySessions faults setStore];
    destruct (List.find (ownedCard userId cardId d) (cards d)) as [card|];
    cbn [fst snd db clock decks cards cardReviews studySessions faults setStore];
    try reflexivity;
    try (destruct (List.find (fun c => String.eqb (Card.id c) cardId) (cards d))
           as [c0|] eqn:Hc0;
         cbn [fst snd db clock decks cards cardReviews studySessions faults setStore]);
    try reflexivity;
    try (split; [reflexivity|]; solve [left; reflexivity | right; eexists; split; reflexivity]);
    try (eexists _, _; repeat split; reflexivity).
Qed.

Lemma reviewCard_record_then_card_witness :
  exists card', fst (reviewCard "u1" "c3" sampleReview (sampleWorld [])) = Ok card'.
Proof.
  apply (proj2 (proj2 (proj2
           (reviewCard_record_then_card (sampleWorld []) "u1" "c3" sampleReview)))
           eq_refl sampleCard).
  reflexivity.
Defined.

(** Claim C6 as stated fails: when the update of the card is rejected, the
    call fails and the card is unchanged, but the review record stays in
    the store. *)
Lemma reviewCard_partial_write :
  let w := sampleWorld [false; false; true] in
  let res := reviewCard "u1" "c3" sampleReview w in
  fst res = Throw Rejected
  /\ cardReviews (db (snd res))
     = cardReviews (db w) ++ [reviewRecordOf (clock w) "c3" sampleReview sampleCard]
  /\ cards (db (snd res)) = cards (db w)
  /\ ~ reviewIsAtomic w "u1" "c3" sampleReview.
Proof.
  split; [reflexivity|]. split; [reflexivity|]. split; [reflexivity|].
  unfold reviewIsAtomic. intros [H _]. vm_compute in H. discriminate H.
Qed.

End CardFacts.

(** ** Streaks *)

Section StreakFacts.
Local Open Scope Z_scope.

Lemma diffDays_minus (prev curr : Z) : diffDays prev curr = prev - curr.
Proof.
  unfold diffDays, dateOfIso, msPerDay.
  rewrite <- Z.mul_sub_distr_r. apply Z.div_mul. discriminate.
Qed.

Lemma descending_cons (x : Z) (l : list Z) :
  StronglySorted Z.gt (x :: l) <-> (forall y, In y l -> y < x) /\ StronglySorted Z.gt l.
Proof.
  rewrite StronglySorted_cons, Forall_forall.
  split; intros [H1 H2]; (split; [|exact H2]); intros y Hy.
  - apply list_elem_of_In in Hy. specialize (H1 y Hy). lia.
  - apply list_elem_of_In in Hy. specialize (H1 y Hy). lia.
Qed.

(** The distinct dates, latest first: strictly decreasing, and the same
    dates as before. *)
Lemma uniqueDatesOf_spec (dates : list Z) :
  StronglySorted Z.gt (uniqueDatesOf dates)
  /\ forall d, In d (uniqueDatesOf dates) <-> In d dates.
Proof.
  unfold uniqueDatesOf.
  pose proof (merge_sort_Permutation Z.le (remove_dups dates)) as Hp.
  pose proof (StronglySorted_merge_sort Z.le (remove_dups dates)) as Hs.
  assert (NoDup (merge_sort Z.le (remove_dups dates))) as Hn
    by (rewrite Hp; apply NoDup_remove_dups).
  split.
  - revert Hs Hn. generalize (merge_sort Z.le (remove_dups dates)). clear.
    induction l as [|x l IH]; intros Hs Hn; [constructor|].
    rewrite reverse_cons. apply StronglySorted_cons in Hs as [Hx Hs].
    apply NoDup_cons in Hn as [Hnx Hn].
    apply StronglySorted_app_2; [|auto|repeat constructor].
    intros a b Ha Hb. apply list_elem_of_singleton in Hb. subst b.
    rewrite elem_of_reverse in Ha. rewrite Forall_forall in Hx.
    specialize (Hx a Ha). assert (a <> x) by (intros ->; contradiction). lia.
  - intros d. rewrite <- !list_elem_of_In, elem_of_reverse, Hp.
    apply elem_of_remove_dups.
Qed.

Lemma currentStreakLoop_step (prev curr : Z) (rest : list Z) (acc : Z) :
  currentStreakLoop (prev :: curr :: rest) acc
  = if prev - curr =? 1 then currentStreakLoop (curr :: rest) (acc + 1) else acc.
Proof. rewrite <- diffDays_minus. reflexivity. Qed.

(** The loop of the current streak counts the days that follow the first
    date without a gap. *)
Lemma currentStreakLoop_spec (l : list Z) (d0 acc : Z) :
  StronglySorted Z.gt (d0 :: l) ->
  let k := currentStreakLoop (d0 :: l) acc - acc in
  0 <= k
  /\ (forall j, 0 <= j <= k -> In (d0 - j) (d0 :: l))
  /\ ~ In (d0 - k - 1) (d0 :: l).
Proof.
  revert d0 acc. induction l as [|curr rest IH]; intros d0 acc Hs k.
  - subst k. cbn [currentStreakLoop]. replace (acc - acc) with 0 by lia.
    split; [lia|]. split.
    + intros j Hj. left. lia.
    + intros [H|[]]. lia.
  - apply descending_cons in Hs as [Hlt Hs].
    subst k. rewrite currentStreakLoop_step.
    destruct (Z.eqb_spec (d0 - curr) 1) as [E|E].
    + destruct (IH curr (acc + 1) Hs) as (Hk & Hin & Hout).
      set (k' := currentStreakLoop (curr :: rest) (acc + 1) - (acc + 1)) in *.
      replace (currentStreakLoop (curr :: rest) (acc + 1) - acc) with (k' + 1) by lia.
      split; [lia|]. split.
      * intros j Hj. destruct (Z.eq_dec j 0) as [->|Hj0].
        { left. lia. }
        right. replace (d0 - j) with (curr - (j - 1)) by lia. apply Hin. lia.
      * intros [H|H]; [lia|]. apply Hout.
        replace (curr - k' - 1) with (d0 - (k' + 1) - 1) by lia. exact H.
    + replace (acc - acc) with 0 by lia.
      split; [lia|]. split.
      * intros j Hj. left. lia.
      * intros [H|H]; [lia|].
        assert (curr < d0) by (apply Hlt; left; reflexivity).
        apply descending_cons in Hs as [Hlt' _].
        destruct H as [H|H]; [lia|]. specialize (Hlt' _ H). lia.
Qed.

Lemma loopMax_step (prev curr : Z) (rest : list Z) (longest temp : Z) :
  loopMax (prev :: curr :: rest) longest temp
  = if prev - curr =? 1 then loopMax (curr :: rest) longest (temp + 1)
    else loopMax (curr :: rest) (Z.max longest temp) 1.
Proof.
  unfold loopMax. cbn [longestStreakLoop]. rewrite diffDays_minus.
  destruct (prev - curr =? 1); reflexivity.
Qed.

Lemma loopMax_lower (l : list Z) (longest temp : Z) :
  Z.max longest temp <= loopMax l longest temp.
Proof.
  revert longest temp. induction l as [|prev [|curr rest] IH]; intros longest temp;
    try (unfold loopMax; cbn; lia).
  rewrite loopMax_step. destruct (prev - curr =? 1).
  - specialize (IH longest (temp + 1)). lia.
  - specialize (IH (Z.max longest temp) 1). lia.
Qed.

(** No streak among the dates is longer than what the loop finds. *)
Lemma loopMax_upper (rest : list Z) (prev longest temp : Z) :
  StronglySorted Z.gt (prev :: rest) -> 1 <= temp ->
  forall d n, 1 <= n -> isStreak (prev :: rest) d n ->
    (if Z.eq_dec d prev then n + temp - 1 else n) <= loopMax (prev :: rest) longest temp.
Proof.
  revert prev longest temp.
  induction rest as [|curr rest IH]; intros prev longest temp Hs Ht d n Hn Hrun.
  - assert (forall j, 0 <= j < n -> d - j = prev) as Hall.
    { intros j Hj. destruct (Hrun j Hj) as [H|[]]. lia. }
    assert (d = prev) as -> by (specialize (Hall 0); lia).
    assert (n = 1) as ->.
    { destruct (Z.eq_dec n 1); [assumption|]. specialize (Hall 1). lia. }
    destruct (Z.eq_dec prev prev); [|contradiction].
    unfold loopMax. cbn. lia.
  - rewrite loopMax_step.
    apply descending_cons in Hs as [Hlt Hs].
    assert (curr < prev) as Hcp by (apply Hlt; left; reflexivity).
    assert (forall y, In y (curr :: rest) -> y <= curr) as Hle.
    { intros y [->|Hy]; [lia|]. apply descending_cons in Hs as [Hlt' _].
      specialize (Hlt' y Hy). lia. }
    assert (In d (prev :: curr :: rest)) as Hd.
    { specialize (Hrun 0). replace (d - 0) with d in Hrun by lia. apply Hrun. lia. }
    destruct (Z.eq_dec d prev) as [->|Hne].
    + (* the streak starts at [prev] *)
      destruct (Z.eqb_spec (prev - curr) 1) as [E|E].
      * destruct (Z.eq_dec n 1) as [->|Hn1].
        { pose proof (loopMax_lower (curr :: rest) longest (temp + 1)). lia. }
        assert (isStreak (curr :: rest) curr (n - 1)) as Hrun'.
        { intros j Hj. destruct (Hrun (j + 1)) as [H|H]; [lia|lia|].
          replace (curr - j) with (prev - (j + 1)) by lia. exact H. }
        specialize (IH curr longest (temp + 1) Hs ltac:(lia) curr (n - 1) ltac:(lia) Hrun').
        destruct (Z.eq_dec curr curr); [lia|contradiction].
      * assert (n = 1) as ->.
        { destruct (Z.eq_dec n 1); [assumption|]. exfalso.
          destruct (Hrun 1) as [H|H]; [lia|lia|]. specialize (Hle _ H). lia. }
        pose proof (loopMax_lower (curr :: rest) (Z.max longest temp) 1). lia.
    + (* the streak lies among the later dates *)
      destruct Hd as [Hd|Hd]; [congruence|].
      assert (isStreak (curr :: rest) d n) as Hrun'.
      { intros j Hj. destruct (Hrun j Hj) as [H|H]; [|exact H].
        specialize (Hle _ Hd). lia. }
      destruct (Z.eqb_spec (prev - curr) 1) as [E|E].
      * specialize (IH curr longest (temp + 1) Hs ltac:(lia) d n Hn Hrun').
        destruct (Z.eq_dec d curr); lia.
      * specialize (IH curr (Z.max longest temp) 1 Hs ltac:(lia) d n Hn Hrun').
        destruct (Z.eq_dec d curr); lia.
Qed.

(** What the loop finds is the length of a streak among the dates. *)
Lemma loopMax_attained (dates rest : list Z) (prev longest temp : Z) :
  (forall y, In y (prev :: rest) -> In y dates) ->
  1 <= temp ->
  (forall j, 0 <= j < temp -> In (prev + j) dates) ->
  (exists d, isStreak dates d longest) ->
  exists d, isStreak dates d (loopMax (prev :: rest) longest temp).
Proof.
  revert prev longest temp.
  induction rest as [|curr rest IH]; intros prev longest temp Hsub Ht Hup [d Hd].
  - unfold loopMax. cbn [longestStreakLoop fst snd].
    destruct (Z.max_spec longest temp) as [[_ ->]|[_ ->]].
    + exists (prev + temp - 1). intros j Hj.
      replace (prev + temp - 1 - j) with (prev + (temp - 1 - j)) by lia. apply Hup. lia.
    + exists d. exact Hd.
  - rewrite loopMax_step.
    assert (forall y, In y (curr :: rest) -> In y dates) as Hsub'
      by (intros y Hy; apply Hsub; right; exact Hy).
    destruct (Z.eqb_spec (prev - curr) 1) as [E|E].
    + apply IH; [exact Hsub'|lia| |exists d; exact Hd].
      intros j Hj. destruct (Z.eq_dec j 0) as [->|Hj0].
      * replace (curr + 0) with curr by lia. apply Hsub'. left. reflexivity.
      * replace (curr + j) with (prev + (j - 1)) by lia. apply Hup. lia.
    + apply IH; [exact Hsub'|lia| |].
      * intros j Hj. replace (curr + j) with curr by lia. apply Hsub'. left. reflexivity.
      * destruct (Z.max_spec longest temp) as [[_ ->]|[_ ->]].
        -- exists (prev + temp - 1). intros j Hj.
           replace (prev + temp - 1 - j) with (prev + (temp - 1 - j)) by lia.
           apply Hup. lia.
        -- exists d. exact Hd.
Qed.

End StreakFacts.

Section StatsFacts.
Context {num : Type} `{!JsNumber num}.
Local Open Scope Z_scope.

Lemma In_map_sorted_reverse {A B} (f : A -> B) (key : A -> Z) (l : list A) (y : B) :
  In y (map f (reverse (orderByAsc key l))) <-> In y (map f l).
Proof.
  unfold orderByAsc.
  assert (reverse (merge_sort (keyLe key) l) ≡ₚ l) as Hp
    by (rewrite reverse_Permutation; apply merge_sort_Permutation).
  split; apply Permutation_in; [|symmetry]; apply Permutation_map; auto.
Qed.

Lemma isoDate_yesterday (t : Z) : isoDate (t - 86400000) = isoDate t - 1.
Proof. unfold isoDate, msPerDay. Z.div_mod_to_equations. lia. Qed.

Lemma calculateStreaks_run (w : World num) (userId : string) :
  faults w = [] ->
  exists s,
    calculateStreaks userId w = (Ok s, w)
    /\ streaksAsSpecified (studyDates (db w) userId) (isoDate (now (clock w)))
         (Streaks.currentStreak s) (Streaks.longestStreak s).
Proof.
  intros Hf. unfold calculateStreaks.
  erewrite bind_ok;
    [|unfold studySession_findMany_desc; apply prisma_read_ok; exact Hf].
  set (sessions := reverse (orderByAsc StudySession.startedAt _)).
  set (dates := studyDates (db w) userId).
  set (today := isoDate (now (clock w))).
  assert (forall d, In d (map (fun s => isoDate (StudySession.startedAt s)) sessions)
                    <-> In d dates) as Hsame
    by (intros d; apply In_map_sorted_reverse).
  destruct (uniqueDatesOf_spec (map (fun s => isoDate (StudySession.startedAt s)) sessions))
    as [Hdesc Hel].
  assert (forall d, In d (uniqueDatesOf
                            (map (fun s => isoDate (StudySession.startedAt s)) sessions))
                    <-> In d dates) as Hu
    by (intros d; rewrite Hel; apply Hsame).
  clear Hel.
  set (uniqueDates := uniqueDatesOf _) in *.
  assert (dates = [] -> forall x, streaksAsSpecified dates x 0 0) as Hempty.
  { intros -> x. split; [auto|]. split; [intros ? []|congruence]. }
  destruct (Nat.eqb_spec (length sessions) 0) as [Hlen|Hlen].
  { eexists. split; [reflexivity|]. cbn [Streaks.currentStreak Streaks.longestStreak].
    apply Hempty. destruct dates as [|d ds] eqn:Hd; [reflexivity|exfalso].
    apply length_zero_iff_nil in Hlen. specialize (Hsame d).
    rewrite Hlen in Hsame. cbn [map] in Hsame. apply Hsame. left. reflexivity. }
  destruct uniqueDates as [|d0 rest] eqn:Hud.
  { eexists. split; [reflexivity|]. cbn [Streaks.currentStreak Streaks.longestStreak].
    apply Hempty. destruct dates as [|d ds]; [reflexivity|exfalso].
    apply (Hu d). left. reflexivity. }
  cbn [length Nat.eqb].
  rewrite (bind_ok _ _ w w (clock w)) by reflexivity.
  rewrite isoDate_yesterday. fold today.
  destruct (longestStreakLoop (d0 :: rest) 0 1) as [a b] eqn:Hloop.
  eexists. split; [reflexivity|]. cbn [Streaks.currentStreak Streaks.longestStreak].
  (* the first date is the latest one *)
  assert (In d0 dates) as Hd0 by (apply Hu; left; reflexivity).
  assert (forall d, In d dates -> d <= d0) as Hmax.
  { intros d Hd. apply Hu in Hd as [->|Hd]; [lia|].
    apply descending_cons in Hdesc as [Hlt _]. specialize (Hlt d Hd). lia. }
  assert (forall d n, isStreak dates d n <-> isStreak (d0 :: rest) d n) as Hstreak.
  { intros d n. unfold isStreak. split; intros H j Hj; apply Hu, H, Hj. }
  (* the current streak *)
  destruct (currentStreakLoop_spec rest d0 1 Hdesc) as (Hk & Hin & Hout).
  set (cur := if (d0 =? today) || (d0 =? today - 1)
              then currentStreakLoop (d0 :: rest) 1 else 0).
  assert (Z.max a b = loopMax (d0 :: rest) 0 1) as HL
    by (unfold loopMax; now rewrite Hloop).
  assert (cur <= loopMax (d0 :: rest) 0 1) as Hcur.
  { subst cur. pose proof (loopMax_lower (d0 :: rest) 0 1).
    destruct ((d0 =? today) || (d0 =? today - 1)); [|lia].
    pose proof (loopMax_upper rest d0 0 1 Hdesc ltac:(lia) d0
                  (currentStreakLoop (d0 :: rest) 1) ltac:(lia)) as Hup.
    destruct (Z.eq_dec d0 d0); [|contradiction].
    assert (isStreak (d0 :: rest) d0 (currentStreakLoop (d0 :: rest) 1)) as Hr
      by (intros j Hj; apply Hin; lia).
    specialize (Hup Hr). lia. }
  rewrite HL. replace (Z.max (loopMax (d0 :: rest) 0 1) cur)
    with (loopMax (d0 :: rest) 0 1) by lia.
  split; [discriminate 1 || (intros Hnil; rewrite Hnil in Hd0; destruct Hd0)|].
  split.
  - intros latest Hl Hlmax.
    assert (latest = d0) as -> by (specialize (Hmax _ Hl); specialize (Hlmax _ Hd0); lia).
    subst cur. split.
    + intros H1 H2.
      destruct (Z.eqb_spec d0 today); [contradiction|].
      destruct (Z.eqb_spec d0 (today - 1)); [contradiction|]. reflexivity.
    + intros Hact.
      assert ((d0 =? today) || (d0 =? today - 1) = true) as ->.
      { apply orb_true_iff. rewrite !Z.eqb_eq. exact Hact. }
      split; [lia|]. split.
      * apply Hstreak. intros j Hj. apply Hin. lia.
      * intros Hbad. apply Hu in Hbad. apply Hout.
        replace (d0 - (currentStreakLoop (d0 :: rest) 1 - 1) - 1)
          with (d0 - currentStreakLoop (d0 :: rest) 1) by lia. exact Hbad.
  - intros _. split; [pose proof (loopMax_lower (d0 :: rest) 0 1); lia|]. split.
    + apply (loopMax_attained dates rest d0 0 1).
      * intros y Hy. apply Hu. exact Hy.
      * lia.
      * intros j Hj. replace (d0 + j) with d0 by lia. exact Hd0.
      * exists 0. intros j Hj. lia.
    + intros d n Hr. destruct (Z_lt_le_dec n 1) as [Hn|Hn].
      { pose proof (loopMax_lower (d0 :: rest) 0 1). lia. }
      apply Hstreak in Hr.
      pose proof (loopMax_upper rest d0 0 1 Hdesc ltac:(lia) d n Hn Hr) as Hup.
      destruct (Z.eq_dec d d0); lia.
Qed.

Lemma mapM_reads {A B} (f : A -> M num B) (l : list A) (w : World num) :
  (forall x, exists y, f x w = (Ok y, w)) ->
  exists ys, mapM f l w = (Ok ys, w).
Proof.
  intros Hf. induction l as [|x l [ys IH]]; [eexists; reflexivity|].
  destruct (Hf x) as [y Hy]. cbn [mapM].
  erewrite bind_ok by exact Hy. erewrite bind_ok by exact IH.
  eexists. reflexivity.
Qed.

Lemma getRecentActivity_run (w : World num) (userId : string) (days : nat) :
  faults w = [] ->
  exists activity, getRecentActivity userId days w = (Ok activity, w).
Proof.
  intros Hf. unfold getRecentActivity.
  rewrite (bind_ok _ _ w w (clock w)) by reflexivity.
  match goal with
  | |- context [mapM ?f ?l] => destruct (mapM_reads f l w) as [ys Hys]
  end; [|erewrite bind_ok by exact Hys; eexists; reflexivity].
  intros i. erewrite bind_ok;
    [|unfold cardReview_findMany; apply prisma_read_ok; exact Hf].
  eexists. reflexivity.
Qed.

Lemma filter_andb {A} (p q : A -> bool) (l : list A) :
  List.filter (fun x => p x && q x) l = List.filter q (List.filter p l).
Proof.
  induction l as [|x l IH]; [reflexivity|]. cbn [List.filter].
  destruct (p x); cbn [andb List.filter]; [destruct (q x)|]; now rewrite IH.
Qed.

(** Without a storage failure [getUserStats] answers, and leaves everything
    as it is; its streaks are those of [calculateStreaks], and its retention
    is computed from the two counts. *)
Lemma getUserStats_run (w : World num) (userId : string) :
  faults w = [] ->
  exists stats s,
    getUserStats userId w = (Ok stats, w)
    /\ calculateStreaks userId w = (Ok s, w)
    /\ UserStats.currentStreak stats = Streaks.currentStreak s
    /\ UserStats.longestStreak stats = Streaks.longestStreak s
    /\ UserStats.totalReviews stats = count (userReviews (db w) userId)
    /\ UserStats.averageRetention stats
       = if (count (userReviews (db w) userId) >? 0)%Z
         then Math_round
                (num_mul (num_div (ofZ (count (successfulReviews (db w) userId)))
                                  (ofZ (count (userReviews (db w) userId))))
                         (lit 100))
         else lit 0.
Proof.
  intros Hf.
  destruct (calculateStreaks_run w userId Hf) as (s & Hs & _).
  destruct (getRecentActivity_run w userId 7 Hf) as (activity & Ha).
  eexists _, s.
  split; [|split; [exact Hs|]].
  - unfold getUserStats at 1.
    rewrite (bind_ok _ _ w w (clock w)) by reflexivity.
    do 8 (erewrite bind_ok;
          [|unfold deck_count, card_count, cardReview_count; apply prisma_read_ok; exact Hf]).
    erewrite bind_ok by exact Hs. erewrite bind_ok by exact Ha.
    unfold ret. reflexivity.
  - cbn [UserStats.currentStreak UserStats.longestStreak UserStats.totalReviews
           UserStats.averageRetention].
    repeat split. unfold successfulReviews, userReviews. now rewrite filter_andb.
Qed.

End StatsFacts.

(** ** getUserStats *)

Section UserStatsFacts.
Local Open Scope Z_scope.

Lemma streaks_three_days_to_today (dates : list Z) (today current longest : Z) :
  streaksAsSpecified dates today current longest ->
  (forall d, In d dates <-> d = today \/ d = today - 1 \/ d = today - 2) ->
  current = 3.
Proof.
  intros (_ & Hcur & _) Hd.
  destruct (Hcur today) as [_ Hact].
  { apply Hd. auto. }
  { intros d Hin. apply Hd in Hin. lia. }
  destruct Hact as (H1 & Hrun & Hout); [auto|].
  destruct (Z_lt_le_dec 3 current) as [Hgt|Hle].
  - exfalso. specialize (Hrun 3 ltac:(lia)). apply Hd in Hrun. lia.
  - destruct (Z.eq_dec current 3) as [|Hne]; [assumption|exfalso].
    apply Hout, Hd. lia.
Qed.

Lemma streaks_three_days_long_ago (dates : list Z) (today current longest : Z) :
  streaksAsSpecified dates today current longest ->
  (forall d, In d dates <-> d = today - 5 \/ d = today - 6 \/ d = today - 7) ->
  current = 0 /\ longest = 3.
Proof.
  intros (_ & Hcur & Hlon) Hd. split.
  - destruct (Hcur (today - 5)) as [Hidle _].
    { apply Hd. auto. }
    { intros d Hin. apply Hd in Hin. lia. }
    apply Hidle; lia.
  - destruct Hlon as (H1 & [d Hrun] & Hmax).
    { intros Hnil. assert (In (today - 5) dates) as Hin by (apply Hd; auto).
      rewrite Hnil in Hin. destruct Hin. }
    assert (3 <= longest) as H3.
    { apply (Hmax (today - 5)). intros j Hj. apply Hd. lia. }
    destruct (Z_lt_le_dec 3 longest) as [Hgt|Hle]; [exfalso|lia].
    pose proof (Hrun 0 ltac:(lia)) as Ha. pose proof (Hrun 3 ltac:(lia)) as Hb.
    apply Hd in Ha. apply Hd in Hb. lia.
Qed.

(** Claim C5.  The streaks [getUserStats] reports are computed from the
    calendar dates of the user's session starts.  Without sessions both are
    0.  The current streak is 0 unless the latest study date is today or
    yesterday (by the clock); then it is the number of consecutive days,
    counted back from the latest study date, that are all study dates.  The
    longest streak is the greatest number of consecutive days that are all
    study dates.  Sessions on today and the two days before give a current
    streak of 3; sessions on the days 5, 6 and 7 before today only give a
    current streak of 0 and a longest streak of 3. *)
Theorem getUserStats_streaks {num : Type} `{!JsNumber num} (w : World num)
    (userId : string) :
  faults w = [] ->
  exists stats,
    getUserStats userId w = (Ok stats, w)
    /\ (let dates := studyDates (db w) userId in
        let today := isoDate (now (clock w)) in
        let current := UserStats.currentStreak stats in
        let longest := UserStats.longestStreak stats in
        streaksAsSpecified dates today current longest
        /\ ((forall d, In d dates <-> d = today \/ d = today - 1 \/ d = today - 2) ->
            current = 3)
        /\ ((forall d, In d dates <-> d = today - 5 \/ d = today - 6 \/ d = today - 7) ->
            current = 0 /\ longest = 3)).
Proof.
  intros Hf.
  destruct (getUserStats_run w userId Hf) as (stats & s & Hrun & Hs & Hc & Hl & _).
  destruct (calculateStreaks_run w userId Hf) as (s' & Hs' & Hspec).
  assert (s' = s) as -> by congruence.
  exists stats. split; [exact Hrun|]. cbv zeta. rewrite Hc, Hl.
  split; [exact Hspec|]. split.
  - apply streaks_three_days_to_today with (longest := Streaks.longestStreak s).
    exact Hspec.
  - apply streaks_three_days_long_ago. exact Hspec.
Qed.

Lemma getUserStats_streaks_witness :
  let day n := n * 86400000 in
  let w := sessionsWorld [day 100 + 5; day 99 + 7; day 98; day 100 + 9; day 95; day 94]
                         {| now := day 100 + 3600000; tzOffset := 7200000 |} in
  exists stats,
    getUserStats "u1" w = (Ok stats, w)
    /\ UserStats.currentStreak stats = 3
    /\ UserStats.longestStreak stats = 3.
Proof.
  intros day w.
  destruct (getUserStats_streaks w "u1" eq_refl) as (stats & Hrun & _).
  exists stats. split; [exact Hrun|].
  assert (Ok stats = fst (getUserStats "u1" w)) as Hst by now rewrite Hrun.
  vm_compute in Hst. injection Hst as ->. split; reflexivity.
Defined.

(** In exact arithmetic the retention is [round(100 * successful / total)],
    and 0 without reviews; a review is successful when its quality is at
    least 3. *)
Lemma getUserStats_retention_exact (w : World Q) (userId : string) :
  faults w = [] ->
  exists stats,
    getUserStats userId w = (Ok stats, w)
    /\ (let total := count (userReviews (db w) userId) in
        let successful := count (successfulReviews (db w) userId) in
        UserStats.totalReviews stats = total
        /\ (forall r, In r (successfulReviews (db w) userId)
                      <-> In r (userReviews (db w) userId) /\ (3 <= CardReview.quality r)%Q)
        /\ (total = 0 -> UserStats.averageRetention stats = 0%Q)
        /\ (0 < total ->
            UserStats.averageRetention stats
            = inject_Z (Qround_half_up (100 * inject_Z successful / inject_Z total)))).
Proof.
  intros Hf.
  destruct (getUserStats_run w userId Hf) as (stats & s & Hrun & _ & _ & _ & Ht & Hr).
  exists stats. split; [exact Hrun|]. cbv zeta. split; [exact Ht|]. split; [|split].
  - intros r. unfold successfulReviews. rewrite filter_In.
    cbn [num_leb lit exact]. now rewrite Qle_bool_iff.
  - intros H0. rewrite Hr, H0. reflexivity.
  - intros Hpos. rewrite Hr.
    assert ((count (userReviews (db w) userId) >? 0) = true) as -> by lia.
    cbn [Math_round num_mul num_div lit exact]. unfold ofZ. cbn [lit exact].
    unfold Qround_half_up. f_equal. apply Qfloor_comp.
    unfold Qdiv. ring.
Qed.

(** The example of the specification, in exact arithmetic and in binary64:
    ten reviews, six of them successful, give 60. *)
Lemma getUserStats_retention_example :
  UserStats.averageRetention <$>
    (match fst (getUserStats "u1"
                  (reviewsWorld (num := Q) [0; 1; 2; 3; 4; 5; 3; 2; 5; 4]%Q)) with
     | Ok stats => Some stats
     | Throw _ => None
     end) = Some 60%Q
  /\ UserStats.averageRetention <$>
       (match fst (getUserStats "u1"
                     (reviewsWorld (num := float) [0; 1; 2; 3; 4; 5; 3; 2; 5; 4]%Q)) with
        | Ok stats => Some stats
        | Throw _ => None
        end) = Some 60%float.
Proof. split; vm_compute; reflexivity. Qed.

(** Claim C8, on binary64 numbers.  Of 40 reviews, 23 are successful:
    [round(100 * 23 / 40)] is [round(57.5) = 58], but the code computes
    [(23 / 40) * 100], which in binary64 is 57.499999999999993 (the double
    below 57.5), and [Math.round] makes it 57. *)
Theorem getUserStats_retention_binary64 :
  let w := reviewsWorld (num := float) (repeat 5%Q 23 ++ repeat 0%Q 17) in
  exists stats,
    getUserStats "u1" w = (Ok stats, w)
    /\ UserStats.totalReviews stats = 40
    /\ count (successfulReviews (db w) "u1") = 23
    /\ PrimFloat.mul (PrimFloat.div 23 40) 100 = 0x1.cbfffffffffffp+5%float
    /\ UserStats.averageRetention stats = 57%float
    /\ Qround_half_up (100 * 23 / 40) = 58.
Proof.
  intros w.
  destruct (getUserStats_run w "u1" eq_refl) as (stats & s & Hrun & _ & _ & _ & Ht & Hr).
  exists stats. split; [exact Hrun|].
  rewrite Ht, Hr. repeat split; vm_compute; reflexivity.
Qed.

End UserStatsFacts.

(** ** shuffleArray *)

Section ShuffleFacts.

Lemma random_index_range (r : Q) (i : nat) :
  (0 <= r < 1)%Q ->
  let j := toInteger (Math_floor (num_mul r (ofZ (Z.of_nat i + 1)))) in
  (0 <= j <= Z.of_nat i)%Z.
Proof.
  intros [H0 H1] j. subst j.
  cbn [toInteger Math_floor num_mul exact]. unfold ofZ. cbn [lit exact inject_Z Qnum Qden].
  rewrite Z.quot_1_r.
  set (n := (Z.of_nat i + 1)%Z).
  assert (0 < inject_Z n)%Q as Hn.
  { change 0%Q with (inject_Z 0). rewrite <- Zlt_Qlt. lia. }
  split.
  - rewrite <- (Qfloor_Z 0). apply Qfloor_resp_le. change (inject_Z 0) with 0%Q.
    apply Qmult_le_0_compat; [exact H0|]. now apply Qlt_le_weak.
  - apply Z.lt_succ_r. rewrite Zlt_Qlt.
    eapply Qle_lt_trans; [apply Qfloor_le|].
    replace (Z.succ (Z.of_nat i)) with n by lia.
    rewrite <- (Qmult_1_l (inject_Z n)) at 2.
    apply Qmult_lt_compat_r; assumption.
Qed.

Lemma Permutation_fmap_Some_inv {T} (l' k : list (option T)) :
  l' ≡ₚ k -> forall l : list T, k = Some <$> l ->
  exists r, l' = Some <$> r /\ r ≡ₚ l.
Proof.
  induction 1 as [|x l1 l2 _ IH|x y l0|l1 l2 l3 _ IH1 _ IH2]; intros l Hl.
  - destruct l; [|discriminate]. exists []. split; reflexivity.
  - destruct l as [|a l]; [discriminate|]. injection Hl as -> ->.
    destruct (IH l eq_refl) as (r & -> & Hr). exists (a :: r). split; [reflexivity|].
    now constructor.
  - destruct l as [|a [|b l]]; try discriminate. injection Hl as -> -> ->.
    exists (b :: a :: l). split; [reflexivity|]. apply perm_swap.
  - destruct (IH2 l Hl) as (r1 & -> & Hr1).
    destruct (IH1 r1 eq_refl) as (r & -> & Hr).
    exists r. split; [reflexivity|]. now transitivity r1.
Qed.

(** Reading and writing within the array *)
Lemma arrayGet_in_range {T} (a : list (option T)) (i : Z) (x : option T) :
  (0 <= i)%Z -> a !! Z.to_nat i = Some x -> arrayGet a i = x.
Proof.
  intros Hi Hx. unfold arrayGet.
  destruct (Z.ltb_spec i 0); [lia|]. now rewrite Hx.
Qed.

Lemma arraySet_in_range {T} (a : list (option T)) (i : Z) (x : option T) :
  (0 <= i)%Z -> (Z.to_nat i < length a)%nat -> arraySet a i x = <[Z.to_nat i := x]> a.
Proof.
  intros Hi Hlt. unfold arraySet.
  destruct (Z.ltb_spec i 0); [lia|]. destruct (decide _); [reflexivity|contradiction].
Qed.

Lemma swap_in_range {T} (a : list (option T)) (i j : Z) :
  (0 <= j <= i)%Z -> (Z.to_nat i < length a)%nat ->
  arraySet (arraySet a i (arrayGet a j)) j (arrayGet a i) ≡ₚ a.
Proof.
  intros Hj Hi.
  destruct (lookup_lt_is_Some_2 a (Z.to_nat i) Hi) as [xi Hxi].
  destruct (lookup_lt_is_Some_2 a (Z.to_nat j) ltac:(lia)) as [xj Hxj].
  rewrite (arrayGet_in_range a i xi), (arrayGet_in_range a j xj) by (lia || assumption).
  rewrite (arraySet_in_range a i) by (lia || assumption).
  rewrite arraySet_in_range by (rewrite ?length_insert; lia).
  now apply Permutation_insert_swap.
Qed.

Lemma shuffleFrom_permutation {T} (i : nat) (shuffled : list (option T)) (w : World Q) :
  (forall k, 0 <= random w k < 1)%Q ->
  (i < length shuffled \/ i = 0)%nat ->
  exists result w',
    shuffleFrom i shuffled w = (Ok result, w')
    /\ result ≡ₚ shuffled
    /\ db w' = db w.
Proof.
  revert shuffled w. induction i as [|i IH]; intros shuffled w Hr Hi.
  - exists shuffled, w. repeat split; reflexivity.
  - destruct Hi as [Hi|Hi]; [|discriminate].
    cbn [shuffleFrom]. unfold bind at 1. cbn [Math_random].
    set (w1 := {| db := db w; clock := clock w; random := random w;
                  drawn := S (drawn w); faults := faults w |}).
    pose proof (random_index_range (random w (drawn w)) (S i) (Hr _)) as Hj.
    cbv zeta in Hj.
    set (j := toInteger _) in *.
    destruct (IH (arraySet (arraySet shuffled (Z.of_nat (S i)) (arrayGet shuffled j)) j
                           (arrayGet shuffled (Z.of_nat (S i)))) w1)
      as (result & w' & Hrun & Hperm & Hdb).
    + exact Hr.
    + left. erewrite Permutation_length by (apply swap_in_range; lia). lia.
    + exists result, w'. split; [exact Hrun|]. split; [|exact Hdb].
      rewrite Hperm. apply swap_in_range; lia.
Qed.

Lemma shuffleArray_permutation {T} (array : list T) (w : World Q) :
  (forall k, 0 <= random w k < 1)%Q ->
  exists result w',
    shuffleArray array w = (Ok (Some <$> result), w')
    /\ result ≡ₚ array
    /\ db w' = db w.
Proof.
  intros Hr. unfold shuffleArray.
  destruct (shuffleFrom_permutation (length array - 1) (Some <$> array) w Hr)
    as (l' & w' & Hrun & Hperm & Hdb).
  { rewrite length_fmap. lia. }
  destruct (Permutation_fmap_Some_inv _ _ Hperm array eq_refl) as (result & -> & Hres).
  exists result, w'. repeat split; assumption.
Qed.

End ShuffleFacts.

(** ** findMany *)

Section QueryFacts.

#[local] Instance keyLe_trans {A} (key : A -> Z) : Transitive (keyLe key).
Proof. intros a b c. unfold keyLe. lia. Qed.

#[local] Instance keyLe_total {A} (key : A -> Z) : Total (keyLe key).
Proof. intros a b. unfold keyLe. lia. Qed.

Lemma takeRows_nonneg {A} (n : Z) (rows : list A) :
  (0 <= n)%Z -> takeRows n rows = take (Z.to_nat n) rows.
Proof.
  intros Hn. unfold takeRows. destruct (Z.ltb_spec n 0) as [H|H]; [lia|reflexivity].
Qed.

Lemma takeRows_sublist {A} (n : Z) (rows : list A) : takeRows n rows `sublist_of` rows.
Proof.
  unfold takeRows. destruct (n <? 0)%Z; [apply sublist_drop|apply sublist_take].
Qed.

Lemma take_orderByAsc_firstByKey {A} (key : A -> Z) (n : Z) (pool : list A) :
  (0 <= n)%Z -> firstByKey key n pool (takeRows n (orderByAsc key pool)).
Proof.
  intros Hn. rewrite takeRows_nonneg by exact Hn. unfold orderByAsc.
  pose proof (merge_sort_Permutation (keyLe key) pool) as Hp.
  pose proof (StronglySorted_merge_sort (keyLe key) pool) as Hs.
  set (s := merge_sort (keyLe key) pool) in *.
  assert (length s = length pool) as Hlen by (now apply Permutation_length).
  rewrite <- (take_drop (Z.to_nat n) s) in Hs, Hp.
  split; [|split].
  - rewrite length_take. lia.
  - eapply StronglySorted_app_1_l. exact Hs.
  - exists (drop (Z.to_nat n) s). split; [now symmetry|].
    intros a b Ha Hb. apply list_elem_of_In in Ha, Hb.
    exact (StronglySorted_app_1_elem_of _ _ _ _ _ Hs Ha Hb).
Qed.

Lemma firstByKey_subset {A} (key : A -> Z) (n : Z) (pool sel : list A) (x : A) :
  firstByKey key n pool sel -> In x sel -> In x pool.
Proof.
  intros (_ & _ & rest & Hp & _) Hx.
  apply list_elem_of_In. rewrite Hp. apply elem_of_app. left.
  now apply list_elem_of_In.
Qed.

End QueryFacts.

(** ** getSubDeckIds *)

Section SubDeckFacts.
Context {num : Type} `{!JsNumber num}.

Lemma childOf_spec (parentId : string) (d : Deck.t) :
  childOf parentId d = true <-> Deck.parentId d = Some parentId.
Proof.
  unfold childOf. destruct (Deck.parentId d) as [p|]; [|split; discriminate].
  rewrite String.eqb_eq. split; congruence.
Qed.

(** Collecting the ids below each child, one child after the other *)
Lemma foldM_collect (g : Deck.t -> M num (list string)) (w : World num)
    (children : list Deck.t) (ids : list string) :
  (forall c, In c children -> exists sub, g c w = (Ok sub, w)) ->
  exists subs,
    Forall2 (fun c sub => g c w = (Ok sub, w)) children subs
    /\ foldM (fun ids child => subIds <- g child ;; ret (ids ++ subIds)) children ids w
       = (Ok (ids ++ concat subs), w).
Proof.
  revert ids. induction children as [|c children IH]; intros ids Hg.
  - exists []. split; [constructor|]. cbn. now rewrite app_nil_r.
  - destruct (Hg c ltac:(now left)) as [sub Hsub].
    destruct (IH (ids ++ sub) ltac:(intros; apply Hg; now right)) as (subs & Hall & Hrun).
    exists (sub :: subs). split; [now constructor|].
    cbn [foldM]. erewrite bind_ok; [|erewrite bind_ok by exact Hsub; reflexivity].
    rewrite Hrun. cbn [concat]. now rewrite app_assoc.
Qed.

(** With enough fuel for the depth of the hierarchy below [parentId],
    [getSubDeckIds] ends, and returns the decks below [parentId]. *)
Lemma getSubDeckIds_run (w : World num) (rank : string -> nat) :
  faults w = [] ->
  (forall d p, In d (decks (db w)) -> Deck.parentId d = Some p ->
               (rank (Deck.id d) < rank p)%nat) ->
  forall (fuel : nat) (parentId : string),
    (rank parentId < fuel)%nat ->
    exists ids,
      getSubDeckIds fuel parentId w = (Ok ids, w)
      /\ forall x, In x ids <-> descendant (decks (db w)) parentId x.
Proof.
  intros Hf Hrank. induction fuel as [|fuel IH]; intros parentId Hlt; [lia|].
  cbn [getSubDeckIds]. fold (childOf parentId).
  erewrite bind_ok; [|unfold deck_findMany; apply prisma_read_ok; exact Hf].
  set (children := List.filter (childOf parentId) (decks (db w))).
  assert (forall c, In c children <-> In c (decks (db w)) /\ Deck.parentId c = Some parentId)
    as Hch.
  { intros c. subst children. rewrite filter_In, childOf_spec. reflexivity. }
  destruct (foldM_collect (fun child => getSubDeckIds fuel (Deck.id child)) w children
              (map Deck.id children)) as (subs & Hall & Hrun).
  { intros c Hc. apply Hch in Hc as [Hin Hp].
    destruct (IH (Deck.id c)) as (sub & Hsub & _).
    - specialize (Hrank c parentId Hin Hp). lia.
    - now exists sub. }
  eexists. split; [exact Hrun|].
  intros x. rewrite in_app_iff, in_map_iff, in_concat. split.
  - intros [(c & <- & Hc)|(sub & Hsub & Hx)].
    + apply Hch in Hc as [Hin Hp]. now apply descendant_child.
    + apply list_elem_of_In in Hsub.
      destruct (proj1 (list_elem_of_lookup _ _) Hsub) as [k Hk].
      destruct (Forall2_lookup_r _ _ _ _ _ Hall Hk) as (c & Hc & Hsubc).
      assert (In c children) as Hcin
        by (apply list_elem_of_In, list_elem_of_lookup; eauto).
      apply Hch in Hcin as [Hin Hp].
      destruct (IH (Deck.id c)) as (sub' & Hsub' & Hdesc).
      { specialize (Hrank c parentId Hin Hp). lia. }
      assert (sub' = sub) as -> by congruence.
      apply descendant_deeper with (c := c); [assumption..|]. now apply Hdesc.
  - intros Hd. destruct Hd as [d Hin Hp|c x Hin Hp Hx].
    + left. exists d. split; [reflexivity|]. apply Hch. now split.
    + right.
      assert (In c children) as Hcin by (apply Hch; now split).
      apply list_elem_of_In in Hcin.
      destruct (proj1 (list_elem_of_lookup _ _) Hcin) as [k Hk].
      destruct (Forall2_lookup_l _ _ _ _ _ Hall Hk) as (sub & Hsubk & Hsubc).
      destruct (IH (Deck.id c)) as (sub' & Hsub' & Hdesc).
      { specialize (Hrank c parentId Hin Hp). lia. }
      assert (sub' = sub) as -> by congruence.
      exists sub. split.
      * apply list_elem_of_In, list_elem_of_lookup. eauto.
      * now apply Hdesc.
Qed.

End SubDeckFacts.

(** ** getDueCards *)

Section DueCardsFacts.
Local Open Scope Z_scope.

Lemma deckIn_spec (deckIds : list string) (c : Card.t Q) :
  deckIn deckIds c = true <-> In (Card.deckId c) deckIds.
Proof.
  unfold deckIn. rewrite existsb_exists. split.
  - intros (x & Hx & E). apply String.eqb_eq in E. now subst.
  - intros H. exists (Card.deckId c). split; [exact H|apply String.eqb_refl].
Qed.

Lemma isNewCard_spec (deckIds : list string) (c : Card.t Q) :
  isNewCard deckIds c = true
  <-> In (Card.deckId c) deckIds /\ (Card.repetitions c == 0)%Q.
Proof.
  unfold isNewCard. cbn [num_eqb lit exact].
  now rewrite andb_true_iff, deckIn_spec, Qeq_bool_iff.
Qed.

Lemma isDueCard_spec (deckIds : list string) (endOfToday : Z) (c : Card.t Q) :
  isDueCard deckIds endOfToday c = true
  <-> In (Card.deckId c) deckIds
      /\ Card.nextReviewAt c <= endOfToday
      /\ (0 < Card.repetitions c)%Q.
Proof.
  unfold isDueCard. cbn [num_ltb lit exact].
  rewrite !andb_true_iff, deckIn_spec, Z.leb_le, Qltb_lt. tauto.
Qed.

(** Claim C4, amended to limits of at least 0.  For an owned deck, a
    limit of at least 0, a deck hierarchy without cycles and a store that
    does not fail, [getDueCards] returns a list without [undefined] that is
    a permutation of the selected new cards followed by the selected due
    cards.  The new cards are those of
    the deck (and of the decks below it, when sub-decks are included) with
    0 repetitions; of them the [floor(limit / 3)] created first are selected
    (all when there are fewer).  The due cards are those with more than 0
    repetitions and [nextReviewAt] up to the end of today; of them the
    [limit - (number of new cards selected)] with the earliest [nextReviewAt]
    are selected.  So at most [limit] cards are returned; with a limit of 9,
    2 new cards and 10 due cards, 2 new and 7 due cards are returned. *)
Theorem getDueCards_selection (w : World Q) (rank : string -> nat) (fuel : nat)
    (userId deckId : string) (limit : Z) (includeSubDecks : bool) (deck : Deck.t) :
  faults w = [] ->
  (forall k, 0 <= random w k < 1)%Q ->
  (includeSubDecks = true ->
   (forall d p, In d (decks (db w)) -> Deck.parentId d = Some p ->
                (rank (Deck.id d) < rank p)%nat)
   /\ (rank deckId < fuel)%nat) ->
  In deck (decks (db w)) -> Deck.id deck = deckId -> Deck.userId deck = userId ->
  0 <= limit ->
  let endOfToday := setHours (clock w) (now (clock w)) 23 59 59 999 in
  exists (deckIds : list string) (newCards dueCards result : list (Card.t Q))
         (w' : World Q),
    let newPool := List.filter (isNewCard deckIds) (cards (db w)) in
    let duePool := List.filter (isDueCard deckIds endOfToday) (cards (db w)) in
    getDueCards fuel userId deckId limit includeSubDecks w = (Ok (Some <$> result), w')
    /\ db w' = db w
    /\ (forall x, In x deckIds
                  <-> x = deckId
                      \/ (includeSubDecks = true /\ descendant (decks (db w)) deckId x))
    /\ (forall c, In c newPool
                  <-> In c (cards (db w)) /\ In (Card.deckId c) deckIds
                      /\ (Card.repetitions c == 0)%Q)
    /\ (forall c, In c duePool
                  <-> In c (cards (db w)) /\ In (Card.deckId c) deckIds
                      /\ Card.nextReviewAt c <= endOfToday
                      /\ (0 < Card.repetitions c)%Q)
    /\ firstByKey Card.createdAt (limit / 3) newPool newCards
    /\ firstByKey Card.nextReviewAt (limit - count newCards) duePool dueCards
    /\ result ≡ₚ newCards ++ dueCards
    /\ (forall c, In c result -> In c newPool \/ In c duePool)
    /\ count newCards <= limit / 3
    /\ count result <= limit
    /\ (limit = 9 -> count newPool = 2 -> count duePool = 10 ->
        count newCards = 2 /\ count dueCards = 7 /\ count result = 9).
Proof.
  intros Hf Hr Htree Hdeck Hid Huser Hlimit endOfToday.
  (* the deck is found *)
  destruct (List.find (fun d => String.eqb (Deck.id d) deckId
                                && String.eqb (Deck.userId d) userId) (decks (db w)))
    as [found|] eqn:Hfind.
  2:{ exfalso. pose proof (find_none _ _ Hfind deck Hdeck) as Hn. cbn beta in Hn.
      rewrite Hid, Huser, !String.eqb_refl in Hn. discriminate. }
  (* the ids of the decks of the subtree *)
  assert (exists deckIds,
            (if includeSubDecks
             then (sub <- getSubDeckIds fuel deckId ;; ret (sub ++ [deckId]))
             else ret [deckId]) w = (Ok deckIds, w)
            /\ forall x, In x deckIds
                         <-> x = deckId
                             \/ (includeSubDecks = true
                                 /\ descendant (decks (db w)) deckId x))
    as (deckIds & HdeckIds & Hsub).
  { destruct includeSubDecks.
    - destruct (Htree eq_refl) as [Hrank Hfuel].
      destruct (getSubDeckIds_run w rank Hf Hrank fuel deckId Hfuel) as (sub & Hrun & Hd).
      exists (sub ++ [deckId]). split; [erewrite bind_ok by exact Hrun; reflexivity|].
      intros x. rewrite in_app_iff, Hd. cbn [In]. intuition congruence.
    - exists [deckId]. split; [reflexivity|]. intros x. cbn [In]. intuition congruence. }
  set (newPool := List.filter (isNewCard deckIds) (cards (db w))).
  set (duePool := List.filter (isDueCard deckIds endOfToday) (cards (db w))).
  set (newCards := takeRows (limit / 3) (orderByAsc Card.createdAt newPool)).
  set (dueCards := takeRows (limit - count newCards)
                            (orderByAsc Card.nextReviewAt duePool)).
  destruct (shuffleArray_permutation (newCards ++ dueCards) w Hr)
    as (result & w' & Hshuffle & Hperm & Hdb).
  assert (0 <= limit / 3) as H3 by (apply Z.div_pos; lia).
  pose proof (take_orderByAsc_firstByKey Card.createdAt (limit / 3) newPool H3) as Hnew.
  fold newCards in Hnew.
  assert (count newCards <= limit / 3) as Hcount.
  { destruct Hnew as [Hlen _]. unfold count. lia. }
  assert (limit / 3 <= limit) as Hthird by (Z.div_mod_to_equations; lia).
  pose proof (take_orderByAsc_firstByKey Card.nextReviewAt (limit - count newCards)
                duePool ltac:(lia)) as Hdue.
  fold dueCards in Hdue.
  exists deckIds, newCards, dueCards, result, w'. cbv zeta.
  fold newPool duePool.
  assert (count result = count newCards + count dueCards) as Hres.
  { unfold count. rewrite (Permutation_length Hperm), length_app. lia. }
  assert (forall c, In c result -> In c newPool \/ In c duePool) as Hfrom.
  { intros c Hc. apply list_elem_of_In in Hc. rewrite Hperm in Hc.
    apply elem_of_app in Hc as [Hc|Hc]; apply list_elem_of_In in Hc; [left|right].
    - exact (firstByKey_subset _ _ _ _ _ Hnew Hc).
    - exact (firstByKey_subset _ _ _ _ _ Hdue Hc). }
  split; [|split; [exact Hdb|split; [exact Hsub|split; [|split; [|split; [exact Hnew|
          split; [exact Hdue|split; [exact Hperm|split; [exact Hfrom|
          split; [exact Hcount|split]]]]]]]]]].
  - unfold getDueCards.
    erewrite bind_ok; [|unfold deck_findFirst; apply prisma_read_ok; exact Hf].
    rewrite Hfind.
    erewrite bind_ok by exact HdeckIds.
    rewrite (bind_ok _ _ w w (clock w)) by reflexivity.
    erewrite bind_ok; [|unfold card_findMany; apply prisma_read_ok; exact Hf].
    erewrite bind_ok; [|unfold card_findMany; apply prisma_read_ok; exact Hf].
    exact Hshuffle.
  - intros c. subst newPool. rewrite filter_In, isNewCard_spec. tauto.
  - intros c. subst duePool. rewrite filter_In, isDueCard_spec. tauto.
  - destruct Hdue as [Hlen _]. unfold count in *. lia.
  - intros -> Hn Hd. destruct Hnew as [Hlen1 _]. destruct Hdue as [Hlen2 _].
    unfold count in *. change (9 / 3) with 3 in *. lia.
Qed.

Lemma getDueCards_selection_witness :
  exists (result : list (Card.t Q)) (w' : World Q),
    getDueCards 4 "u1" "d1" 9 true (sampleWorld []) = (Ok (Some <$> result), w')
    /\ count result <= 9.
Proof.
  destruct (getDueCards_selection (sampleWorld []) sampleRank 4 "u1" "d1" 9 true
              (Deck.Build "d1" "u1" None))
    as (deckIds & newCards & dueCards & result & w' & Hrun & _ & _ & _ & _ & _ & _ & _ & _
        & _ & Hle & _).
  - reflexivity.
  - intros k. split; [unfold Qle|unfold Qlt]; simpl; lia.
  - intros _. split; [|vm_compute; lia].
    intros d p [<-|[<-|[<-|[<-|[]]]]] [= <-]; vm_compute; lia.
  - left. reflexivity.
  - reflexivity.
  - reflexivity.
  - lia.
  - exists result, w'. split; [exact Hrun|exact Hle].
Defined.

(** Claim C4 as it was stated, for every limit, fails for a negative
    limit.  The route bounds the limit from above only
    ([Math.min(parseInt(...) || 50, 200)]), so that a negative limit reaches
    [getDueCards], and the store counts a negative [take] from the end of
    the list.  With a limit of -3 the sample deck yields its new card and
    its due card: 2 cards, which is more than the limit, 1 of them new,
    which is more than [floor(-3 / 3) = -1]. *)
Lemma getDueCards_negative_limit :
  exists (result : list (Card.t Q)) (w' : World Q),
    let new := List.filter (fun c => Qeq_bool (Card.repetitions c) 0) result in
    getDueCards 4 "u1" "d1" (-3) true (sampleWorld []) = (Ok (Some <$> result), w')
    /\ count result = 2
    /\ count new = 1
    /\ (-3) / 3 = -1
    /\ ~ count new <= (-3) / 3
    /\ ~ count result <= -3.
Proof.
  exists [Card.Build "c1" "d1" 2.5%Q 0%Q 0%Q 8640000000 None 5000; sampleCard].
  eexists. cbv zeta. split; [vm_compute; reflexivity|].
  split; [reflexivity|]. split; [reflexivity|]. split; [reflexivity|].
  split; vm_compute; intros H; apply H; reflexivity.
Qed.

End DueCardsFacts.

(** ** The SM-2 module: due dates and predictions *)

Section ScheduleFacts.
Local Open Scope Z_scope.

(** Property X1.

    [getOverdueDays] counts the whole days elapsed since the due instant,
    rounding down.  It is non-negative exactly when the due instant has
    passed; a card with a non-negative count is due ([isDue]), and a card
    that is due has a count of at least -1: the count is -1, not 0, for a
    card that falls due later on the reference day. *)
Theorem getOverdueDays_and_isDue (clk : Clock) (nextReviewAt : Z) :
  let days := getOverdueDays clk nextReviewAt in
  days * msPerDay <= now clk - nextReviewAt < (days + 1) * msPerDay
  /\ (0 <= days <-> nextReviewAt <= now clk)
  /\ (0 <= days -> isDue clk nextReviewAt = true)
  /\ (isDue clk nextReviewAt = true -> -1 <= days)
  /\ (now clk < nextReviewAt <= setHours clk (now clk) 23 59 59 999 ->
      days = -1 /\ isDue clk nextReviewAt = true).
Proof.
  intros days.
  assert (days * msPerDay <= now clk - nextReviewAt < (days + 1) * msPerDay) as Hd.
  { subst days. unfold getOverdueDays, msPerDay.
    change (1000 * 60 * 60 * 24) with 86400000.
    pose proof (Z.div_mod (now clk - nextReviewAt) 86400000 ltac:(lia)).
    pose proof (Z.mod_pos_bound (now clk - nextReviewAt) 86400000 ltac:(lia)). lia. }
  pose proof (startOfLocalDay_spec clk (now clk)) as (_ & _ & Hs).
  pose proof (isDue_iff clk nextReviewAt) as Hdue.
  pose proof (setHours_end_of_day clk (now clk)) as He.
  unfold msPerDay in *.
  split; [exact Hd|]. split; [split; intros; nia|].
  split; [intros H0; apply Hdue; nia|].
  split; [intros H0; apply Hdue in H0; nia|].
  intros [H1 H2]. split; [nia|apply Hdue; lia].
Qed.

(** Property X2.

    The interval [calculateSM2] returns is a whole number [n] of days, and
    the next review date, when it lies within the range of [Date] (as
    local midnight of the day of the review does), is local midnight of the
    [n]-th calendar day after the day of the review.  So, for any later
    reading of the clock in the same time zone, the card is due ([isDue])
    exactly from that day on.  (Beyond the range of [Date], which intervals
    of more than some hundred million days leave, the code has an Invalid
    Date, of which nothing is stated.) *)
Theorem calculateSM2_due_again_after_interval (clk : Clock) (input : SM2Input.t Q) :
  let r := calculateSM2 clk input in
  inDateRange (startOfLocalDay clk (now clk)) ->
  inDateRange (SM2Result.nextReviewDate r) ->
  exists n : Z,
    SM2Result.interval r = inject_Z n
    /\ n <= 200000000
    /\ localDay clk (SM2Result.nextReviewDate r) = localDay clk (now clk) + n
    /\ localTimeOfDay clk (SM2Result.nextReviewDate r) = 0
    /\ forall clk' : Clock,
         tzOffset clk' = tzOffset clk ->
         (isDue clk' (SM2Result.nextReviewDate r) = true
          <-> localDay clk (now clk) + n <= localDay clk' (now clk')).
Proof.
  intros r Hstart Hnext.
  assert (exists n, SM2Result.interval r = inject_Z n
                    /\ SM2Result.nextReviewDate r
                       = setHours clk (addDays (now clk) n) 0 0 0 0) as (n & Hn & Hdate).
  { subst r. unfold calculateSM2.
    cbn [num_ltb num_eqb exact lit Math_round num_mul num_add].
    destruct (Qltb _ _).
    - exists 1. split; reflexivity.
    - destruct (Qeq_bool _ _).
      + exists 1. split; reflexivity.
      + destruct (Qeq_bool _ _).
        * exists 6. split; reflexivity.
        * eexists. split; [reflexivity|].
          cbn [SM2Result.nextReviewDate toInteger exact inject_Z Qnum Qden].
          rewrite Z.quot_1_r. reflexivity. }
  exists n. split; [exact Hn|].
  rewrite Hdate in Hnext |- *.
  unfold inDateRange, setHours, addDays, localDay, localTimeOfDay, startOfLocalDay in *.
  set (D := (now clk + n * msPerDay + tzOffset clk) / msPerDay) in *.
  assert (D = (now clk + tzOffset clk) / msPerDay + n) as HD.
  { subst D. replace (now clk + n * msPerDay + tzOffset clk)
      with (now clk + tzOffset clk + n * msPerDay) by lia.
    apply Z.div_add. unfold msPerDay. lia. }
  split; [unfold msPerDay in *; nia|].
  replace (D * msPerDay - tzOffset clk + ((0 * 60 + 0) * 60 + 0) * 1000 + 0 + tzOffset clk)
    with (D * msPerDay) by lia.
  split; [rewrite Z.div_mul by (unfold msPerDay; lia); exact HD|].
  split; [apply Z.mod_mul; unfold msPerDay; lia|].
  intros clk' Htz. rewrite isDue_iff. unfold startOfLocalDay. rewrite Htz, <- HD.
  set (D' := (now clk' + tzOffset clk) / msPerDay).
  unfold msPerDay. split; intros; nia.
Qed.

Lemma calculateSM2_due_again_after_interval_witness :
  exists n : Z,
    SM2Result.interval
      (calculateSM2 {| now := 8643600000; tzOffset := 7200000 |}
         {| SM2Input.quality := 4%Q; SM2Input.repetitions := 2%Q;
            SM2Input.easeFactor := 2.36%Q; SM2Input.interval := 6%Q |}) = inject_Z n
    /\ localDay {| now := 8643600000; tzOffset := 7200000 |}
         (SM2Result.nextReviewDate
            (calculateSM2 {| now := 8643600000; tzOffset := 7200000 |}
               {| SM2Input.quality := 4%Q; SM2Input.repetitions := 2%Q;
                  SM2Input.easeFactor := 2.36%Q; SM2Input.interval := 6%Q |}))
       = localDay {| now := 8643600000; tzOffset := 7200000 |} 8643600000 + n.
Proof.
  destruct (calculateSM2_due_again_after_interval {| now := 8643600000; tzOffset := 7200000 |}
              {| SM2Input.quality := 4%Q; SM2Input.repetitions := 2%Q;
                 SM2Input.easeFactor := 2.36%Q; SM2Input.interval := 6%Q |})
    as (n & Hn & _ & Hday & _).
  - unfold inDateRange. vm_compute. split; discriminate.
  - unfold inDateRange. vm_compute. split; discriminate.
  - exists n. split; [exact Hn|exact Hday].
Defined.

End ScheduleFacts.

Section EaseFacts.
Local Open Scope Q_scope.

Lemma Qround_half_up_comp (x y : Q) : x == y -> Qround_half_up x = Qround_half_up y.
Proof. intros H. unfold Qround_half_up. apply Qfloor_comp. rewrite H. reflexivity. Qed.

Lemma Qround_half_up_le (x y : Q) : x <= y -> (Qround_half_up x <= Qround_half_up y)%Z.
Proof. intros H. unfold Qround_half_up. apply Qfloor_resp_le. lra. Qed.

Lemma easeFactor_hundredths (h d : Z) (EF x : Q) :
  EF == inject_Z h / 100 -> x == inject_Z d / 100 ->
  Qround_half_up (Qmax 1.3 (EF + x) * 100) = Z.max 130 (h + d).
Proof.
  intros HEF Hx.
  rewrite <- (round_half_up_inject (Z.max 130 (h + d))).
  apply Qround_half_up_comp.
  assert (inject_Z (h + d) == inject_Z h + inject_Z d) as Hplus
    by (rewrite inject_Z_plus; reflexivity).
  destruct (Z.max_spec 130 (h + d)) as [[H ->]|[H ->]];
    [apply Z.lt_le_incl in H|]; rewrite Zle_Qle in H;
    destruct (Q.max_spec 1.3 (EF + x)) as [[H1 ->]|[H1 ->]];
    change (inject_Z 130) with 130 in *; lraQ.
Qed.

(** Property X3.

    What one review does to an ease factor kept with two decimals
    ([hundredths] / 100): it changes by -0.80, -0.54, -0.32, -0.14, 0 or
    +0.10 for the qualities 0 to 5, and is then raised to 1.30 if it fell
    below.  The rounding to two decimals changes nothing, so no error builds
    up over successive reviews. *)
Theorem calculateSM2_easeFactor_table (clk : Clock) (quality repetitions interval : Q)
    (hundredths : Z) :
  let r := calculateSM2 clk
             {| SM2Input.quality := quality;
                SM2Input.repetitions := repetitions;
                SM2Input.easeFactor := inject_Z hundredths / 100;
                SM2Input.interval := interval |} in
  let change := match specQuality quality with
                | 0 => -80 | 1 => -54 | 2 => -32 | 3 => -14 | 4 => 0 | _ => 10
                end%Z in
  SM2Result.easeFactor r = inject_Z (Z.max 130 (hundredths + change)) / 100.
Proof.
  intros r change. subst r. rewrite calculateSM2_easeFactor.
  cbn [SM2Input.easeFactor SM2Input.quality].
  f_equal. f_equal. rewrite clampQuality_exact. fold (specQuality quality).
  pose proof (specQuality_range quality) as Hq. subst change.
  unfold specEaseFactor.
  assert (specQuality quality = 0 \/ specQuality quality = 1 \/ specQuality quality = 2
          \/ specQuality quality = 3 \/ specQuality quality = 4
          \/ specQuality quality = 5)%Z as Hcases by lia.
  destruct Hcases as [-> | [-> | [-> | [-> | [-> | ->]]]]];
    apply easeFactor_hundredths; reflexivity.
Qed.

End EaseFacts.

(** ** calculateSM2 as the code runs it

    The code computes with binary64 numbers.  The ease factors it stores
    are the default 2.5 and results of [calculateSM2], which are of the form
    [Math.round(x) / 100]: the doubles nearest to numbers with two decimals.
    On them the rounded arithmetic returns the same ease factors as exact
    arithmetic; on other ease factors, and in the product that gives the
    interval, it need not. *)

Section EaseFactorCode.
Context {num : Type} `{!JsNumber num}.
Local Open Scope js_scope.


End EaseFactorCode.

Section Binary64Facts.
Local Open Scope Z_scope.








(** Claim C3, on binary64 numbers.  A card reviewed since its creation
    with the qualities 2, 5, 5, 5, 3, 5 has 5 repetitions, the ease factor
    2.44 and an interval of 85 days, in exact arithmetic and in binary64
    alike.  Its next review, of quality 3, makes the ease factor
    [EF' = 2.3], and [round(85 * EF')] is [round(195.5) = 196], which is what
    exact arithmetic returns.  The code returns 195: the double it has for
    [EF'] is below 2.3, its product with 85 is 195.49999999999997, and
    [Math.round] makes it 195. *)
Theorem calculateSM2_interval_binary64 (clk : Clock) :
  let past := [2; 5; 5; 5; 3; 5]%Q in
  let review {num : Type} `{!JsNumber num} :=
    calculateSM2 (num := num) clk
      {| SM2Input.quality := lit 3; SM2Input.repetitions := lit 5;
         SM2Input.easeFactor := lit (inject_Z 244 / 100);
         SM2Input.interval := lit 85 |} in
  stateOfReviews (num := Q) clk past = (inject_Z 5, inject_Z 244 / 100, inject_Z 85)%Q
  /\ stateOfReviews (num := float) clk past = (lit 5, lit (inject_Z 244 / 100), lit 85)
  /\ (specEaseFactor (inject_Z 244 / 100) 3 == 2.3)%Q
  /\ Qround_half_up (85 * specEaseFactor (inject_Z 244 / 100) 3) = 196
  /\ SM2Result.repetitions (review (num := Q)) = inject_Z 6
  /\ SM2Result.interval (review (num := Q)) = inject_Z 196
  /\ SM2Result.repetitions (review (num := float)) = lit 6
  /\ PrimFloat.mul (lit 85)
       (Math_max MIN_EASE_FACTOR
          (lit (inject_Z 244 / 100)
           + (lit 0.1 - (lit 5 - lit 3) * (lit 0.08 + (lit 5 - lit 3) * lit 0.02)))%js)
     = 0x1.86fffffffffffp+7%float
  /\ SM2Result.interval (review (num := float)) = lit 195.
Proof.
  cbv zeta. repeat split; vm_compute; reflexivity.
Qed.

End Binary64Facts.

Section PredictFacts.
Local Open Scope Q_scope.

Lemma specEaseFactor_mono (EF : Q) (q q' : Z) :
  (3 <= q <= q')%Z -> (q' <= 5)%Z ->
  specEaseFactor EF (inject_Z q) <= specEaseFactor EF (inject_Z q').
Proof.
  intros Hq Hq'. unfold specEaseFactor. apply Q.max_le_compat_l.
  assert (q = 3 \/ q = 4 \/ q = 5)%Z as Hc by lia.
  assert (q' = 3 \/ q' = 4 \/ q' = 5)%Z as Hc' by lia.
  destruct Hc as [-> | [-> | ->]]; destruct Hc' as [-> | [-> | ->]];
    try lia; unfold inject_Z; lra.
Qed.

(** Property X4.

    The intervals [predictIntervals] shows for the six ratings of a card
    with a non-negative interval: the failing ratings 0, 1 and 2 all give
    1 day; among the passing ratings a better one never gives a shorter
    interval; and when the card's interval is at least a day, or the card
    has 0 or 1 repetitions, passing never gives less than failing. *)
Theorem predictIntervals_by_quality (clk : Clock) (easeFactor : Q)
    (repetitions interval : Z) :
  (0 <= interval)%Z ->
  exists i3 i4 i5 : Z,
    predictIntervals clk (inject_Z repetitions) easeFactor (inject_Z interval)
    = [(0%Z, 1); (1%Z, 1); (2%Z, 1);
       (3%Z, inject_Z i3); (4%Z, inject_Z i4); (5%Z, inject_Z i5)]
    /\ (i3 <= i4 <= i5)%Z
    /\ ((1 <= interval)%Z \/ repetitions = 0%Z \/ repetitions = 1%Z -> (1 <= i3)%Z).
Proof.
  intros Hi.
  assert (forall q : Z,
            SM2Result.interval
              (calculateSM2 clk (SM2Input.Build (ofZ q) (inject_Z repetitions) easeFactor
                                                (inject_Z interval)))
            = inject_Z (if (specQuality (inject_Z q) <? 3)%Z then 1
                        else if (repetitions =? 0)%Z then 1
                        else if (repetitions =? 1)%Z then 6
                        else Qround_half_up
                               (inject_Z interval
                                * specEaseFactor easeFactor
                                    (inject_Z (specQuality (inject_Z q)))))) as E.
  { intros q.
    exact (proj1 (calculateSM2_interval_cases clk (inject_Z q) easeFactor
                    repetitions interval)). }
  unfold predictIntervals. cbn [map]. rewrite !E.
  change (specQuality (inject_Z 0)) with 0%Z. change (specQuality (inject_Z 1)) with 1%Z.
  change (specQuality (inject_Z 2)) with 2%Z. change (specQuality (inject_Z 3)) with 3%Z.
  change (specQuality (inject_Z 4)) with 4%Z. change (specQuality (inject_Z 5)) with 5%Z.
  cbn [Z.ltb Z.compare Pos.compare Pos.compare_cont].
  eexists _, _, _. split; [reflexivity|].
  assert (0 <= inject_Z interval) as Hi'
    by (change 0 with (inject_Z 0); rewrite <- Zle_Qle; exact Hi).
  assert (forall q q' : Z, (3 <= q <= q')%Z -> (q' <= 5)%Z ->
            (Qround_half_up (inject_Z interval * specEaseFactor easeFactor (inject_Z q))
             <= Qround_half_up (inject_Z interval * specEaseFactor easeFactor (inject_Z q')))%Z)
    as Hmono.
  { intros q q' Hq Hq'. apply Qround_half_up_le.
    rewrite !(Qmult_comm (inject_Z interval)).
    apply Qmult_le_compat_r; [apply specEaseFactor_mono; assumption|exact Hi']. }
  split.
  - destruct (repetitions =? 0)%Z; [lia|]. destruct (repetitions =? 1)%Z; [lia|].
    split; apply Hmono; lia.
  - intros Hc. destruct (repetitions =? 0)%Z eqn:H0; [lia|].
    destruct (repetitions =? 1)%Z eqn:H1; [lia|].
    apply round_product_ge_1. lia.
Qed.

Lemma predictIntervals_by_quality_witness :
  exists i3 i4 i5 : Z,
    predictIntervals {| now := 0; tzOffset := 0 |} (inject_Z 3) 2.5 (inject_Z 10)
    = [(0%Z, 1); (1%Z, 1); (2%Z, 1);
       (3%Z, inject_Z i3); (4%Z, inject_Z i4); (5%Z, inject_Z i5)]
    /\ (i3 <= i4 <= i5)%Z
    /\ ((1 <= 10)%Z \/ 3%Z = 0%Z \/ 3%Z = 1%Z -> (1 <= i3)%Z).
Proof.
  apply (predictIntervals_by_quality {| now := 0; tzOffset := 0 |} 2.5 3 10). lia.
Defined.

End PredictFacts.

(** ** reviewCard and resetCard: what they keep *)

Section CardInvariantFacts.
Local Open Scope Q_scope.

Lemma reviewCard_cards_cases (w : World Q) (userId cardId : string)
    (input : ReviewCardInput Q) :
  let res := reviewCard userId cardId input w in
  cards (db (snd res)) = cards (db w)
  \/ exists card,
       List.find (ownedCard userId cardId (db w)) (cards (db w)) = Some card
       /\ cards (db (snd res))
          = rewriteCard cardId
              (scheduledRow (clock w) (calculateSM2 (clock w) (sm2InputOf input card)))
              (cards (db w)).
Proof.
  intros res. subst res. destruct w as [d clk rnd dr fs].
  unfold reviewCard, bind, card_findFirst, getClock, cardReview_create, card_update,
    prisma_read, prisma_write.
  cbn [fst snd db clock decks cards cardReviews studySessions faults setStore].
  destruct fs as [|[] [|[] [|[] fs]]];
    cbn [fst snd db clock decks cards cardReviews studySessions faults setStore];
    destruct (List.find (ownedCard userId cardId d) (cards d)) as [card|];
    cbn [fst snd db clock decks cards cardReviews studySessions faults setStore];
    try (left; reflexivity);
    destruct (List.find (fun c => String.eqb (Card.id c) cardId) (cards d)) as [c0|];
    cbn [fst snd db clock decks cards cardReviews studySessions faults setStore];
    try (left; reflexivity);
    right; eexists; split; reflexivity.
Qed.

Lemma resetCard_cards_cases (w : World Q) (userId cardId : string) :
  let res := resetCard userId cardId w in
  cards (db (snd res)) = cards (db w)
  \/ cards (db (snd res)) = rewriteCard cardId (resetState (now (clock w))) (cards (db w)).
Proof.
  intros res. subst res. destruct w as [d clk rnd dr fs].
  unfold resetCard, bind, card_findFirst, getClock, card_update, prisma_read, prisma_write.
  cbn [fst snd db clock decks cards cardReviews studySessions faults setStore].
  destruct fs as [|[] [|[] fs]];
    cbn [fst snd db clock decks cards cardReviews studySessions faults setStore];
    destruct (List.find (ownedCard userId cardId d) (cards d)) as [card|];
    cbn [fst snd db clock decks cards cardReviews studySessions faults setStore];
    try (left; reflexivity);
    destruct (List.find (fun c => String.eqb (Card.id c) cardId) (cards d)) as [c0|];
    cbn [fst snd db clock decks cards cardReviews studySessions faults setStore];
    try (left; reflexivity);
    right; reflexivity.
Qed.

Lemma schedulingOk_reset (t : Z) (c : Card.t Q) : schedulingOk (resetState t c).
Proof.
  exists 0%Z, 0%Z, 250%Z. cbn [resetState Card.repetitions Card.interval Card.easeFactor].
  repeat split; try reflexivity; lia.
Qed.

Lemma schedulingOk_scheduled (clk : Clock) (input : ReviewCardInput Q)
    (card c : Card.t Q) :
  schedulingOk card ->
  schedulingOk (scheduledRow clk (calculateSM2 clk (sm2InputOf input card)) c).
Proof.
  intros (reps & i & h & Hreps & Hi & Hh & Hr0 & Hi0 & Hri & Hr1 & Hh130).
  unfold scheduledRow, schedulingOk.
  cbn [Card.repetitions Card.interval Card.easeFactor].
  unfold sm2InputOf. rewrite Hreps, Hi.
  destruct (calculateSM2_interval_cases clk (input_quality input) (Card.easeFactor card)
              reps i) as [Hint Hrep].
  cbv zeta in Hint, Hrep. rewrite Hint, Hrep, calculateSM2_easeFactor.
  cbn [SM2Input.easeFactor SM2Input.quality].
  eexists _, _, _. split; [reflexivity|]. split; [reflexivity|]. split; [reflexivity|].
  pose proof (specQuality_range (input_quality input)) as Hq.
  assert (130 <= Qround_half_up
                   (specEaseFactor (Card.easeFactor card)
                                   (clampQuality (input_quality input)) * 100))%Z as Hef.
  { apply round_half_up_ge.
    pose proof (specEaseFactor_floor (Card.easeFactor card)
                  (clampQuality (input_quality input))).
    change (inject_Z 130) with 130. lra. }
  destruct (specQuality (input_quality input) <? 3)%Z eqn:Hq3.
  - repeat split; try lia; exact Hef.
  - destruct (reps =? 0)%Z eqn:H0; [repeat split; try lia; exact Hef|].
    destruct (reps =? 1)%Z eqn:H1; [repeat split; try lia; exact Hef|].
    pose proof (round_product_ge_1 i (Card.easeFactor card)
                  (inject_Z (specQuality (input_quality input))) ltac:(lia)).
    repeat split; try lia; exact Hef.
Qed.

Lemma Forall_rewriteCard (P : Card.t Q -> Prop) (cardId : string)
    (f : Card.t Q -> Card.t Q) (rows : list (Card.t Q)) :
  (forall c, P (f c)) -> Forall P rows -> Forall P (rewriteCard cardId f rows).
Proof.
  intros Hf Hrows. unfold rewriteCard. rewrite Forall_fmap.
  eapply Forall_impl; [exact Hrows|].
  intros c Hc. cbn. destruct (String.eqb _ _); [apply Hf|exact Hc].
Qed.

(** Property X5.

    Whatever the outcome, and whatever storage failure occurs on the way,
    [reviewCard] and [resetCard] leave every card with a scheduling state
    as the code produces them ([schedulingOk]), provided every card had one
    before. *)
Theorem reviewCard_resetCard_keep_schedulingOk (w : World Q) (userId cardId : string)
    (input : ReviewCardInput Q) :
  Forall schedulingOk (cards (db w)) ->
  Forall schedulingOk (cards (db (snd (reviewCard userId cardId input w))))
  /\ Forall schedulingOk (cards (db (snd (resetCard userId cardId w)))).
Proof.
  intros Hall. split.
  - destruct (reviewCard_cards_cases w userId cardId input) as [->|(card & Hfind & ->)];
      [exact Hall|].
    apply Forall_rewriteCard; [|exact Hall].
    intros c. apply schedulingOk_scheduled.
    apply find_some in Hfind. rewrite Forall_forall in Hall.
    apply Hall, list_elem_of_In, Hfind.
  - destruct (resetCard_cards_cases w userId cardId) as [->| ->]; [exact Hall|].
    apply Forall_rewriteCard; [|exact Hall]. intros c. apply schedulingOk_reset.
Qed.

End CardInvariantFacts.

Lemma reviewCard_resetCard_keep_schedulingOk_witness :
  Forall schedulingOk (cards (db (snd (reviewCard "u1" "c3" sampleReview (sampleWorld [])))))
  /\ Forall schedulingOk (cards (db (snd (resetCard "u1" "c3" (sampleWorld []))))).
Proof.
  apply (reviewCard_resetCard_keep_schedulingOk (sampleWorld []) "u1" "c3" sampleReview).
  constructor.
  { exists 0%Z, 0%Z, 250%Z. repeat split; try reflexivity; lia. }
  constructor.
  { exists 4%Z, 15%Z, 196%Z. repeat split; try reflexivity; lia. }
  constructor; [|constructor].
  exists 2%Z, 6%Z, 250%Z. repeat split; try reflexivity; lia.
Defined.

(** ** reviewCard and resetCard: cards of other users *)

Section CardOwnerFacts.
Context {num : Type} `{!JsNumber num}.

Lemma ownedCard_none (w : World num) (userId cardId : string) :
  (forall c, In c (cards (db w)) -> Card.id c = cardId ->
             cardOfUser (db w) userId c = false) ->
  List.find (ownedCard userId cardId (db w)) (cards (db w)) = None.
Proof.
  intros Hnone.
  destruct (List.find _ _) as [c|] eqn:Hfind; [|reflexivity].
  apply find_some in Hfind as [Hin Hown].
  unfold ownedCard in Hown. apply andb_prop in Hown as [Hid Hu].
  apply String.eqb_eq in Hid. rewrite (Hnone c Hin Hid) in Hu. discriminate.
Qed.

(** Property X6.

    A card that lies in no deck of the user (it belongs to someone else,
    or there is no card with this id) can be neither reviewed nor reset by
    that user: both operations fail, with "Card not found" unless the
    store itself fails, and the store is left exactly as it was. *)
Theorem reviewCard_resetCard_card_not_found (w : World num) (userId cardId : string)
    (input : ReviewCardInput num) :
  (forall c, In c (cards (db w)) -> Card.id c = cardId ->
             cardOfUser (db w) userId c = false) ->
  let r1 := reviewCard userId cardId input w in
  let r2 := resetCard userId cardId w in
  (db (snd r1) = db w /\ db (snd r2) = db w)
  /\ (forall card, fst r1 <> Ok card /\ fst r2 <> Ok card)
  /\ (faults w = [] ->
      r1 = (Throw (JsError "Card not found"), w)
      /\ r2 = (Throw (JsError "Card not found"), w)).
Proof.
  intros Hnone r1 r2. subst r1 r2.
  pose proof (ownedCard_none w userId cardId Hnone) as Hfind.
  destruct w as [d clk rnd dr fs].
  unfold reviewCard, resetCard, bind, card_findFirst, prisma_read.
  cbn [fst snd db clock faults setStore] in *.
  destruct fs as [|[] fs]; cbn [fst snd db clock faults setStore]; rewrite ?Hfind;
    cbn [fst snd db clock faults setStore throw];
    (split; [split; reflexivity|]);
    (split; [intros card; split; discriminate|]);
    intros Hf; try discriminate Hf; split; reflexivity.
Qed.

End CardOwnerFacts.

Lemma reviewCard_resetCard_card_not_found_witness :
  reviewCard "u1" "c6" sampleReview (sampleWorld [])
  = (Throw (JsError "Card not found"), sampleWorld [])
  /\ resetCard "u1" "c6" (sampleWorld [])
     = (Throw (JsError "Card not found"), sampleWorld []).
Proof.
  apply (reviewCard_resetCard_card_not_found (sampleWorld []) "u1" "c6" sampleReview);
    [|reflexivity].
  intros c Hin Hid. cbn in Hin.
  destruct Hin as [<- | [<- | [<- | []]]]; try discriminate Hid. reflexivity.
Defined.

(** ** A review and the statistics *)

Section ReviewStatsFacts.
Local Open Scope Z_scope.

(** Property X7.

    A review that succeeds is counted in the statistics of the user who
    owns the session named in the request, whoever made the review:
    [reviewCard] checks that the card is the reviewer's, but not that the
    session is.  The total of reviews of that user goes up by one; that
    of every other user, the reviewer included, stays as it is. *)
Theorem reviewCard_counts_for_session_owner (w : World Q) (userId cardId : string)
    (input : ReviewCardInput Q) (card : Card.t Q) (session : StudySession.t) :
  faults w = [] ->
  List.find (ownedCard userId cardId (db w)) (cards (db w)) = Some card ->
  findSession (db w) (input_sessionId input) = Some session ->
  exists card' w',
    reviewCard userId cardId input w = (Ok card', w')
    /\ forall u : string,
         exists before after,
           getUserStats u w = (Ok before, w)
           /\ getUserStats u w' = (Ok after, w')
           /\ UserStats.totalReviews after
              = UserStats.totalReviews before
                + (if String.eqb (StudySession.userId session) u then 1 else 0).
Proof.
  intros Hf Hcard Hsession.
  destruct (reviewCard_run w userId cardId input card Hf Hcard) as (c0 & _ & Hrun).
  cbv zeta in Hrun. eexists _, _. split; [exact Hrun|].
  intros u.
  destruct (getUserStats_run w u Hf) as (before & s1 & Hb & _ & _ & _ & Htb & _).
  match goal with |- context [getUserStats u ?w'] =>
    destruct (getUserStats_run w' u eq_refl) as (after & s2 & Ha & _ & _ & _ & Hta & _)
  end.
  exists before, after. split; [exact Hb|]. split; [exact Ha|].
  rewrite Hta, Htb. unfold userReviews, count.
  cbn [db setStore cardReviews].
  rewrite List.filter_app, length_app, Nat2Z.inj_add.
  f_equal.
  cbn [List.filter]. unfold reviewOfUser at 1.
  cbn [CardReview.sessionId reviewRecordOf].
  change (findSession _ (input_sessionId input))
    with (findSession (db w) (input_sessionId input)).
  rewrite Hsession. destruct (String.eqb _ _); reflexivity.
Qed.

Lemma reviewCard_counts_for_session_owner_witness :
  exists card' w',
    reviewCard "u1" "c3" {| input_quality := 4%Q; input_sessionId := "s2" |} twoUsersWorld
    = (Ok card', w')
    /\ forall u : string,
         exists before after,
           getUserStats u twoUsersWorld = (Ok before, twoUsersWorld)
           /\ getUserStats u w' = (Ok after, w')
           /\ UserStats.totalReviews after
              = UserStats.totalReviews before + (if String.eqb "u2" u then 1 else 0).
Proof.
  apply (reviewCard_counts_for_session_owner twoUsersWorld "u1" "c3"
           {| input_quality := 4%Q; input_sessionId := "s2" |} sampleCard
           (StudySession.Build "s2" "u2" 8640000007)); reflexivity.
Defined.

End ReviewStatsFacts.

(** ** The deck hierarchy: cycles *)

Section HierarchyFacts.
Context {num : Type} `{!JsNumber num}.

Lemma descendant_trans_child (ds : list Deck.t) (a b : string) (c : Deck.t) :
  descendant ds a b -> In c ds -> Deck.parentId c = Some b ->
  descendant ds a (Deck.id c).
Proof.
  intros Hab. revert c.
  induction Hab as [a d Hd Hpd|a c0 x Hc0 Hpc0 _ IH]; intros c Hin Hp.
  - apply descendant_deeper with (c := d); [assumption..|].
    now apply descendant_child.
  - apply descendant_deeper with (c := c0); [assumption..|]. now apply IH.
Qed.

Lemma descendant_rank (ds : list Deck.t) (rank : string -> nat) (p x : string) :
  (forall d q, In d ds -> Deck.parentId d = Some q -> (rank (Deck.id d) < rank q)%nat) ->
  descendant ds p x -> (rank x < rank p)%nat.
Proof.
  intros Hrank Hd. induction Hd as [p d Hin Hp|p c x Hin Hp _ IH].
  - now apply Hrank.
  - specialize (Hrank c p Hin Hp). lia.
Qed.

Lemma acyclic_no_cycle (ds : list Deck.t) (x : string) :
  acyclic ds -> ~ descendant ds x x.
Proof.
  intros [rank Hrank] Hd. pose proof (descendant_rank ds rank x x Hrank Hd). lia.
Qed.

(** A cycle at or below [p] is a cycle at or below a child of [p]. *)
Lemma cycle_below_child (ds : list Deck.t) (p x : string) :
  x = p \/ descendant ds p x -> descendant ds x x ->
  exists c y,
    In c ds /\ Deck.parentId c = Some p
    /\ (y = Deck.id c \/ descendant ds (Deck.id c) y) /\ descendant ds y y.
Proof.
  intros [->|Hpx] Hxx.
  - inversion Hxx as [d Hin Hp Hid|c x' Hin Hp Hcx].
    + subst p. exists d, (Deck.id d). split; [exact Hin|]. split; [exact Hp|].
      split; [now left|exact Hxx].
    + exists c, p. split; [exact Hin|]. split; [exact Hp|].
      split; [now right|exact Hxx].
  - inversion Hpx as [d Hin Hp Hid|c x' Hin Hp Hcx].
    + subst x. exists d, (Deck.id d). split; [exact Hin|]. split; [exact Hp|].
      split; [now left|exact Hxx].
    + exists c, x. split; [exact Hin|]. split; [exact Hp|].
      split; [now right|exact Hxx].
Qed.

Lemma foldM_ends_or_runs_out (g : Deck.t -> M num (list string)) (w : World num)
    (children : list Deck.t) (ids : list string) :
  let loop := foldM (fun ids child => subIds <- g child ;; ret (ids ++ subIds)) in
  (forall c, In c children ->
             (exists sub, g c w = (Ok sub, w)) \/ g c w = (Throw OutOfFuel, w)) ->
  ((exists r, loop children ids w = (Ok r, w)) \/ loop children ids w = (Throw OutOfFuel, w))
  /\ ((exists c, In c children /\ g c w = (Throw OutOfFuel, w)) ->
      loop children ids w = (Throw OutOfFuel, w)).
Proof.
  intros loop. subst loop.
  revert ids. induction children as [|c children IH]; intros ids Hg.
  - split; [left; eexists; reflexivity|]. intros (c & [] & _).
  - cbn [foldM]. destruct (Hg c ltac:(now left)) as [[sub Hsub]|Hout].
    + erewrite bind_ok; [|erewrite bind_ok by exact Hsub; reflexivity].
      destruct (IH (ids ++ sub) ltac:(intros; apply Hg; now right)) as [IH1 IH2].
      split; [exact IH1|].
      intros (c' & [<-|Hin] & Hc'); [congruence|]. apply IH2. eauto.
    + assert (bind (subIds <- g c ;; ret (ids ++ subIds))
                (fun acc' =>
                   foldM (fun ids child => subIds <- g child ;; ret (ids ++ subIds))
                     children acc') w = (Throw OutOfFuel, w)) as E.
      { unfold bind at 1 2. rewrite Hout. reflexivity. }
      split; [right; exact E|intros _; exact E].
Qed.

Lemma getSubDeckIds_ends_or_runs_out (w : World num) (fuel : nat) (parentId : string) :
  faults w = [] ->
  (exists ids, getSubDeckIds fuel parentId w = (Ok ids, w))
  \/ getSubDeckIds fuel parentId w = (Throw OutOfFuel, w).
Proof.
  intros Hf. revert parentId. induction fuel as [|fuel IH]; intros parentId.
  - right. reflexivity.
  - cbn [getSubDeckIds].
    erewrite bind_ok; [|unfold deck_findMany; apply prisma_read_ok; exact Hf].
    apply (foldM_ends_or_runs_out (fun child => getSubDeckIds fuel (Deck.id child))).
    intros c _. apply IH.
Qed.

Lemma getSubDeckIds_cycle (w : World num) :
  faults w = [] ->
  forall (fuel : nat) (p x : string),
    x = p \/ descendant (decks (db w)) p x ->
    descendant (decks (db w)) x x ->
    getSubDeckIds fuel p w = (Throw OutOfFuel, w).
Proof.
  intros Hf. induction fuel as [|fuel IH]; intros p x Hpx Hxx; [reflexivity|].
  destruct (cycle_below_child _ p x Hpx Hxx) as (c & y & Hin & Hp & Hy & Hyy).
  cbn [getSubDeckIds]. fold (childOf p).
  erewrite bind_ok; [|unfold deck_findMany; apply prisma_read_ok; exact Hf].
  apply (foldM_ends_or_runs_out (fun child => getSubDeckIds fuel (Deck.id child))).
  - intros c' _. apply getSubDeckIds_ends_or_runs_out, Hf.
  - exists c. split.
    + apply filter_In. split; [exact Hin|]. apply childOf_spec, Hp.
    + apply (IH (Deck.id c) y Hy Hyy).
Qed.

(** Property X8.

    When the hierarchy at or below a deck holds a cycle (some deck there
    is its own descendant), the recursion of [getSubDeckIds] from that deck
    does not end: whatever depth it is allowed, it exhausts it.  So
    [getDueCards] and [getDeckCards] with sub-decks never answer for that
    deck. *)
Theorem getSubDeckIds_never_ends_on_a_cycle (w : World num) (userId p x : string)
    (deck : Deck.t) :
  faults w = [] ->
  x = p \/ descendant (decks (db w)) p x ->
  descendant (decks (db w)) x x ->
  List.find (ownedDeck userId p) (decks (db w)) = Some deck ->
  forall fuel : nat,
    getSubDeckIds fuel p w = (Throw OutOfFuel, w)
    /\ (forall limit, getDueCards fuel userId p limit true w = (Throw OutOfFuel, w))
    /\ getDeckCards fuel userId p true w = (Throw OutOfFuel, w).
Proof.
  intros Hf Hpx Hxx Hdeck fuel.
  pose proof (getSubDeckIds_cycle w Hf fuel p x Hpx Hxx) as Hsub.
  split; [exact Hsub|]. split.
  - intros limit. unfold getDueCards.
    erewrite bind_ok; [|unfold deck_findFirst; apply prisma_read_ok; exact Hf].
    change (List.find _ (decks (db w))) with (List.find (ownedDeck userId p) (decks (db w))).
    rewrite Hdeck. unfold bind at 1 2. rewrite Hsub. reflexivity.
  - unfold getDeckCards.
    erewrite bind_ok; [|unfold deck_findFirst; apply prisma_read_ok; exact Hf].
    rewrite Hdeck. unfold bind at 1. rewrite Hsub. reflexivity.
Qed.

Lemma descendant_after_update (ds : list Deck.t) (a : string) (g : Deck.t -> Deck.t) :
  (forall x, Deck.id x <> a -> g x = x) ->
  ~ descendant ds a a ->
  forall p x, descendant ds p x -> p = a \/ descendant ds a p ->
              descendant (map g ds) p x.
Proof.
  intros Hg Hno p x Hpx.
  induction Hpx as [p d Hin Hp|p c x Hin Hp _ IH]; intros Hap.
  - assert (descendant ds a (Deck.id d)) as Had.
    { destruct Hap as [->|Hap]; [now apply descendant_child|].
      now apply descendant_trans_child with (b := p). }
    assert (Deck.id d <> a) as Hne by (intros E; rewrite E in Had; auto).
    apply descendant_child; [|exact Hp].
    rewrite <- (Hg d Hne). now apply in_map.
  - assert (descendant ds a (Deck.id c)) as Hac.
    { destruct Hap as [->|Hap]; [now apply descendant_child|].
      now apply descendant_trans_child with (b := p). }
    assert (Deck.id c <> a) as Hne by (intros E; rewrite E in Hac; auto).
    apply descendant_deeper with (c := c); [|exact Hp|apply IH; now right].
    rewrite <- (Hg c Hne). now apply in_map.
Qed.

Lemma find_ownedDeck (userId deckId : string) (ds : list Deck.t) (deck : Deck.t) :
  List.find (ownedDeck userId deckId) ds = Some deck ->
  In deck ds /\ Deck.id deck = deckId /\ Deck.userId deck = userId.
Proof.
  intros Hfind. apply find_some in Hfind as [Hin Hown].
  unfold ownedDeck in Hown. apply andb_prop in Hown as [Hid Hu].
  apply String.eqb_eq in Hid, Hu. auto.
Qed.

Lemma find_by_id (deckId : string) (ds : list Deck.t) (deck : Deck.t) :
  In deck ds -> Deck.id deck = deckId ->
  exists c0, List.find (fun x => String.eqb (Deck.id x) deckId) ds = Some c0
             /\ Deck.id c0 = deckId.
Proof.
  intros Hin Hid.
  destruct (List.find _ ds) as [c0|] eqn:Hfind.
  - exists c0. split; [reflexivity|].
    apply find_some in Hfind as [_ H]. now apply String.eqb_eq in H.
  - pose proof (find_none _ _ Hfind deck Hin) as H. cbn in H.
    rewrite Hid, String.eqb_refl in H. discriminate.
Qed.

(** Property X9.

    [updateDeck] refuses to make a deck its own parent, but it accepts any
    other deck of the user as the new parent, one of the deck's own
    descendants included.  After such an update the deck is its own
    descendant, the hierarchy is no longer acyclic, and [getSubDeckIds]
    never ends for it. *)
Theorem updateDeck_can_close_a_cycle (w : World num) (userId a b : string)
    (deckA deckB : Deck.t) :
  faults w = [] ->
  List.find (ownedDeck userId a) (decks (db w)) = Some deckA ->
  List.find (ownedDeck userId b) (decks (db w)) = Some deckB ->
  descendant (decks (db w)) a b ->
  ~ descendant (decks (db w)) a a ->
  (truthy a = true ->
   updateDeck userId a {| update_parentId := Some (Some a) |} w
   = (Throw (JsError "A deck cannot be its own parent"), w))
  /\ exists deck' w',
       updateDeck userId a {| update_parentId := Some (Some b) |} w = (Ok deck', w')
       /\ Deck.id deck' = a
       /\ Deck.parentId deck' = Some b
       /\ descendant (decks (db w')) a a
       /\ ~ acyclic (decks (db w'))
       /\ forall fuel : nat, getSubDeckIds fuel a w' = (Throw OutOfFuel, w').
Proof.
  intros Hf HA HB Hab Hno.
  assert (a <> b) as Hne by (intros ->; auto).
  destruct (find_ownedDeck _ _ _ _ HA) as (HinA & HidA & _).
  destruct (find_by_id a _ deckA HinA HidA) as (c0 & Hc0 & Hidc0).
  split.
  - intros Ht. unfold updateDeck.
    erewrite bind_ok; [|unfold deck_findFirst; apply prisma_read_ok; exact Hf].
    rewrite HA. cbn [update_parentId]. rewrite Ht.
    unfold bind at 1. unfold bind at 1.
    unfold deck_findFirst. rewrite (prisma_read_ok _ w Hf), HA, String.eqb_refl.
    reflexivity.
  - set (g := fun x : Deck.t =>
                if String.eqb (Deck.id x) a
                then {| Deck.id := Deck.id x; Deck.userId := Deck.userId x;
                        Deck.parentId := Some b |}
                else x).
    set (d' := {| decks := map g (decks (db w)); cards := cards (db w);
                  cardReviews := cardReviews (db w);
                  studySessions := studySessions (db w) |}).
    assert (updateDeck userId a {| update_parentId := Some (Some b) |} w
            = (Ok {| Deck.id := Deck.id c0; Deck.userId := Deck.userId c0;
                     Deck.parentId := Some b |}, setStore w d' [])) as Hrun.
    { unfold updateDeck.
      erewrite bind_ok; [|unfold deck_findFirst; apply prisma_read_ok; exact Hf].
      rewrite HA. cbn [update_parentId].
      assert ((if truthy b
               then parentDeck <- deck_findFirst (ownedDeck userId b) ;;
                    match parentDeck with
                    | Some _ =>
                        if String.eqb b a
                        then throw (JsError "A deck cannot be its own parent")
                        else ret tt
                    | None => throw (JsError "Parent deck not found")
                    end
               else ret tt) w = (Ok tt, w)) as Hcheck.
      { destruct (truthy b); [|reflexivity].
        erewrite bind_ok; [|unfold deck_findFirst; apply prisma_read_ok; exact Hf].
        rewrite HB. destruct (String.eqb b a) eqn:E; [|reflexivity].
        apply String.eqb_eq in E. congruence. }
      erewrite bind_ok by exact Hcheck.
      unfold deck_update. erewrite prisma_write_ok; [reflexivity|exact Hf|].
      rewrite Hc0. reflexivity. }
    eexists _, _. split; [exact Hrun|]. split; [exact Hidc0|]. split; [reflexivity|].
    assert (descendant (decks (db (setStore w d' []))) a a) as Hcycle.
    { cbn [db setStore decks d'].
      assert (descendant (map g (decks (db w))) a b) as Hab'.
      { apply (descendant_after_update _ a); [|exact Hno|exact Hab|now left].
        intros x Hx. subst g. cbn. apply String.eqb_neq in Hx. now rewrite Hx. }
      assert (Deck.id (g deckA) = a /\ Deck.parentId (g deckA) = Some b) as [Hg1 Hg2].
      { subst g. cbv beta. rewrite HidA, String.eqb_refl. split; reflexivity. }
      rewrite <- Hg1 at 2.
      apply descendant_trans_child with (b := b); [exact Hab'|now apply in_map|exact Hg2]. }
    split; [exact Hcycle|]. split.
    + intros Hacyc. exact (acyclic_no_cycle _ a Hacyc Hcycle).
    + intros fuel. apply getSubDeckIds_cycle with (x := a); auto.
Qed.

Lemma hierarchy_extend (ds : list Deck.t) (new : Deck.t) :
  acyclic ds -> parentsExist ds ->
  (forall d, In d ds -> Deck.id d <> Deck.id new) ->
  (forall p, Deck.parentId new = Some p -> exists d', In d' ds /\ Deck.id d' = p) ->
  acyclic (ds ++ [new]) /\ parentsExist (ds ++ [new]).
Proof.
  intros [rank Hrank] Hex Hfresh Hparent. split.
  - exists (fun x => if String.eqb x (Deck.id new) then O else S (rank x)).
    intros d p Hin Hp. apply in_app_or in Hin as [Hin|[<-|[]]].
    + destruct (Hex d p Hin Hp) as (d' & Hin' & <-).
      pose proof (Hfresh d Hin) as H1. pose proof (Hfresh d' Hin') as H2.
      apply String.eqb_neq in H1, H2. rewrite H1, H2.
      specialize (Hrank d (Deck.id d') Hin Hp). lia.
    + destruct (Hparent p Hp) as (d' & Hin' & <-).
      pose proof (Hfresh d' Hin') as H2. apply String.eqb_neq in H2.
      rewrite String.eqb_refl, H2. lia.
  - intros d p Hin Hp. apply in_app_or in Hin as [Hin|[<-|[]]].
    + destruct (Hex d p Hin Hp) as (d' & Hin' & Hid).
      exists d'. split; [apply in_or_app; now left|exact Hid].
    + destruct (Hparent p Hp) as (d' & Hin' & Hid).
      exists d'. split; [apply in_or_app; now left|exact Hid].
Qed.

(** Property X10.

    [createDeck], called with no parent or with a parent id other than
    the empty string, keeps the hierarchy well formed (acyclic, every
    parent an existing deck), whatever its outcome: the deck it adds
    belongs to the caller and hangs below a deck of the caller.  A parent
    that is not a deck of the caller is refused with "Parent deck not
    found". *)
Theorem createDeck_keeps_hierarchy (w : World num) (newId userId : string)
    (input : CreateDeckInput) :
  acyclic (decks (db w)) -> parentsExist (decks (db w)) ->
  create_parentId input <> Some ""%string ->
  let res := createDeck newId userId input w in
  acyclic (decks (db (snd res)))
  /\ parentsExist (decks (db (snd res)))
  /\ (forall deck, fst res = Ok deck ->
        deck = {| Deck.id := newId; Deck.userId := userId;
                  Deck.parentId := create_parentId input |}
        /\ decks (db (snd res)) = decks (db w) ++ [deck]
        /\ forall p, create_parentId input = Some p ->
                     exists parent, In parent (decks (db w))
                                    /\ Deck.id parent = p /\ Deck.userId parent = userId)
  /\ (faults w = [] -> forall p,
        create_parentId input = Some p ->
        List.find (ownedDeck userId p) (decks (db w)) = None ->
        res = (Throw (JsError "Parent deck not found"), w)).
Proof.
  intros Hacyc Hex Hinput res.
  set (new := {| Deck.id := newId; Deck.userId := userId;
                 Deck.parentId := create_parentId input |}).
  assert ((forall p, create_parentId input = Some p ->
             exists parent, In parent (decks (db w))
                            /\ Deck.id parent = p /\ Deck.userId parent = userId) ->
          List.find (fun x => String.eqb (Deck.id x) newId) (decks (db w)) = None ->
          acyclic (decks (db w) ++ [new]) /\ parentsExist (decks (db w) ++ [new])) as Hext.
  { intros Hp Hfresh. apply hierarchy_extend; auto.
    - intros d Hin E. pose proof (find_none _ _ Hfresh d Hin) as H. cbn in H.
      cbn in E. rewrite E, String.eqb_refl in H. discriminate.
    - intros p Hpp. destruct (Hp p Hpp) as (parent & ? & ? & _). eauto. }
  subst res. destruct w as [d clk rnd dr fs].
  destruct input as [[p|]]; unfold createDeck; cbn [create_parentId] in *.
  - assert (truthy p = true) as Ht.
    { unfold truthy. destruct (String.eqb p "") eqn:E; [|reflexivity].
      apply String.eqb_eq in E. congruence. }
    rewrite Ht.
    unfold bind, deck_findFirst, deck_create, prisma_read, prisma_write.
    cbn [fst snd db clock decks faults setStore Deck.id].
    destruct fs as [|[] [|[] fs]];
      cbn [fst snd db clock decks faults setStore];
      destruct (List.find (ownedDeck userId p) (decks d)) as [parent|] eqn:Hparent;
      cbn [fst snd db clock decks faults setStore ret throw];
      try (destruct (List.find (fun x => String.eqb (Deck.id x) newId) (decks d))
             as [x|] eqn:Hfresh;
           cbn [fst snd db clock decks faults setStore]);
      (split; [|split; [|split]]);
      try assumption; try discriminate; try (intros; discriminate);
      try (apply Hext; [|assumption]; intros p' [= <-];
           destruct (find_ownedDeck _ _ _ _ Hparent) as (? & ? & ?); eauto);
      try (intros deck [= <-]; split; [reflexivity|]; split; [reflexivity|];
           intros p' [= <-];
           destruct (find_ownedDeck _ _ _ _ Hparent) as (? & ? & ?); eauto);
      try (intros _ p' [= <-] _; reflexivity);
      try (intros _ p' [= <-] E; cbn [decks db] in *; congruence).
  - unfold bind, deck_create, prisma_write, ret.
    cbn [fst snd db clock decks faults setStore Deck.id].
    destruct fs as [|[] fs];
      cbn [fst snd db clock decks faults setStore];
      try (destruct (List.find (fun x => String.eqb (Deck.id x) newId) (decks d))
             as [x|] eqn:Hfresh;
           cbn [fst snd db clock decks faults setStore]);
      (split; [|split; [|split]]);
      try assumption; try discriminate; try (intros; discriminate);
      try (apply Hext; [|assumption]; intros p' [=]);
      try (intros deck [= <-]; split; [reflexivity|]; split; [reflexivity|];
           intros p' [=]).
Qed.

End HierarchyFacts.

Lemma getSubDeckIds_never_ends_on_a_cycle_witness :
  getSubDeckIds 50 "a" cyclicWorld = (Throw OutOfFuel, cyclicWorld)
  /\ (forall limit,
        getDueCards 50 "u1" "a" limit true cyclicWorld = (Throw OutOfFuel, cyclicWorld))
  /\ getDeckCards 50 "u1" "a" true cyclicWorld = (Throw OutOfFuel, cyclicWorld).
Proof.
  apply (getSubDeckIds_never_ends_on_a_cycle cyclicWorld "u1" "a" "a"
           (Deck.Build "a" "u1" (Some "b"%string)));
    [reflexivity|left; reflexivity| |reflexivity].
  apply descendant_deeper with (c := Deck.Build "b" "u1" (Some "a"%string));
    [right; left; reflexivity|reflexivity|].
  apply (descendant_child _ "b" (Deck.Build "a" "u1" (Some "b"%string)));
    [left; reflexivity|reflexivity].
Defined.

Lemma sampleDecks_acyclic : acyclic sampleDecks.
Proof.
  exists sampleRank. intros d p Hin Hp.
  destruct Hin as [<-|[<-|[<-|[<-|[]]]]]; cbn in Hp; try discriminate Hp;
    injection Hp as <-; cbn; lia.
Qed.

Lemma sampleDecks_parentsExist : parentsExist sampleDecks.
Proof.
  intros d p Hin Hp.
  destruct Hin as [<-|[<-|[<-|[<-|[]]]]]; cbn in Hp; try discriminate Hp;
    injection Hp as <-.
  - exists (Deck.Build "d1" "u1" None). split; [cbn; auto|reflexivity].
  - exists (Deck.Build "d2" "u1" (Some "d1"%string)). split; [cbn; auto|reflexivity].
Qed.

Lemma updateDeck_can_close_a_cycle_witness :
  exists deck' w',
    updateDeck "u1" "d1" {| update_parentId := Some (Some "d3"%string) |} (sampleWorld [])
    = (Ok deck', w')
    /\ Deck.parentId deck' = Some "d3"%string
    /\ descendant (decks (db w')) "d1" "d1"
    /\ forall fuel : nat, getSubDeckIds fuel "d1" w' = (Throw OutOfFuel, w').
Proof.
  destruct (updateDeck_can_close_a_cycle (sampleWorld []) "u1" "d1" "d3"
              (Deck.Build "d1" "u1" None) (Deck.Build "d3" "u1" (Some "d2"%string))
              eq_refl eq_refl eq_refl)
    as (_ & deck' & w' & Hrun & _ & Hp & Hcycle & _ & Hloop).
  - apply descendant_deeper with (c := Deck.Build "d2" "u1" (Some "d1"%string));
      [cbn; auto|reflexivity|].
    apply (descendant_child _ "d2" (Deck.Build "d3" "u1" (Some "d2"%string)));
      [cbn; auto|reflexivity].
  - apply acyclic_no_cycle, sampleDecks_acyclic.
  - exists deck', w'. auto.
Defined.

Lemma createDeck_keeps_hierarchy_witness :
  let res := createDeck "d9" "u1" {| create_parentId := Some "d3"%string |} (sampleWorld []) in
  acyclic (decks (db (snd res))) /\ parentsExist (decks (db (snd res))).
Proof.
  destruct (createDeck_keeps_hierarchy (sampleWorld []) "d9" "u1"
              {| create_parentId := Some "d3"%string |}
              sampleDecks_acyclic sampleDecks_parentsExist)
    as (H1 & H2 & _).
  - discriminate.
  - split; [exact H1|exact H2].
Defined.

(** ** Decks of other users, and the cards of a deck *)

Section DeckCardsFacts.
Context {num : Type} `{!JsNumber num}.
Local Open Scope Z_scope.

#[local] Existing Instance keyLe_trans.
#[local] Existing Instance keyLe_total.

Lemma ownedDeck_none (userId deckId : string) (ds : list Deck.t) :
  (forall d, In d ds -> Deck.id d = deckId -> Deck.userId d <> userId) ->
  List.find (ownedDeck userId deckId) ds = None.
Proof.
  intros Hnone. destruct (List.find _ ds) as [d|] eqn:Hfind; [|reflexivity].
  destruct (find_ownedDeck _ _ _ _ Hfind) as (Hin & Hid & Hu).
  destruct (Hnone d Hin Hid Hu).
Qed.

(** Property X11.

    A deck that is not the user's (it belongs to someone else, or there is
    no deck with this id) is not found by the operations on a deck: the
    cards due, the cards of the deck and an update fail with "Deck not
    found", the statistics of the deck are [null], and nothing is read
    further (no random number is drawn, the store is as it was). *)
Theorem deck_of_another_user_not_found (w : World num) (fuel : nat)
    (userId deckId : string) (limit : Z) (includeSubDecks : bool)
    (input : UpdateDeckInput) :
  faults w = [] ->
  (forall d, In d (decks (db w)) -> Deck.id d = deckId -> Deck.userId d <> userId) ->
  getDueCards fuel userId deckId limit includeSubDecks w
  = (Throw (JsError "Deck not found"), w)
  /\ getDeckCards fuel userId deckId includeSubDecks w
     = (Throw (JsError "Deck not found"), w)
  /\ updateDeck userId deckId input w = (Throw (JsError "Deck not found"), w)
  /\ getDeckStats userId deckId w = (Ok None, w).
Proof.
  intros Hf Hnone. pose proof (ownedDeck_none userId deckId _ Hnone) as Hfind.
  unfold getDueCards, getDeckCards, updateDeck, getDeckStats.
  unfold deck_findFirst, deck_findFirst_withCards.
  repeat split; (erewrite bind_ok; [|apply prisma_read_ok; exact Hf]).
  - change (List.find _ (decks (db w)))
      with (List.find (ownedDeck userId deckId) (decks (db w))).
    rewrite Hfind. reflexivity.
  - rewrite Hfind. reflexivity.
  - rewrite Hfind. reflexivity.
  - rewrite Hfind. reflexivity.
Qed.

Lemma StronglySorted_reverse {A} (R : A -> A -> Prop) (l : list A) :
  StronglySorted R l -> StronglySorted (fun a b => R b a) (reverse l).
Proof.
  induction 1 as [|x l Hl IH Hx].
  - constructor.
  - rewrite reverse_cons. apply StronglySorted_app. split; [|split].
    + intros a b Ha Hb. apply list_elem_of_singleton in Hb as ->.
      rewrite elem_of_reverse in Ha. rewrite Forall_forall in Hx. cbv beta. apply Hx, Ha.
    + exact IH.
    + repeat constructor.
Qed.

Lemma card_findMany_desc_ok (w : World num) (where_ : DB num -> Card.t num -> bool)
    (key : Card.t num -> Z) :
  faults w = [] ->
  exists result,
    card_findMany_desc where_ key w = (Ok result, w)
    /\ result ≡ₚ List.filter (where_ (db w)) (cards (db w))
    /\ StronglySorted (fun a b => key b <= key a) result.
Proof.
  intros Hf. eexists. split; [apply prisma_read_ok; exact Hf|]. split.
  - rewrite reverse_Permutation. unfold orderByAsc. apply merge_sort_Permutation.
  - apply (StronglySorted_reverse (keyLe key)).
    unfold orderByAsc. apply (StronglySorted_merge_sort (keyLe key)).
Qed.

(** Property X12.

    [getDeckCards] on a deck of the user returns each card of the deck
    once, and with [includeSubDecks] each card of a deck below it as well,
    the latest created first; the store is not changed.  (With sub-decks,
    the hierarchy below the deck has to be acyclic for the call to end.) *)
Theorem getDeckCards_lists_the_subtree (w : World num) (rank : string -> nat)
    (fuel : nat) (userId deckId : string) (includeSubDecks : bool) (deck : Deck.t) :
  faults w = [] ->
  (includeSubDecks = true ->
   (forall d p, In d (decks (db w)) -> Deck.parentId d = Some p ->
                (rank (Deck.id d) < rank p)%nat)
   /\ (rank deckId < fuel)%nat) ->
  List.find (ownedDeck userId deckId) (decks (db w)) = Some deck ->
  exists (deckIds : list string) (result : list (Card.t num)),
    getDeckCards fuel userId deckId includeSubDecks w = (Ok result, w)
    /\ (forall x, In x deckIds
                  <-> x = deckId
                      \/ (includeSubDecks = true /\ descendant (decks (db w)) deckId x))
    /\ result ≡ₚ List.filter (deckIn deckIds) (cards (db w))
    /\ (forall c, In c result <-> In c (cards (db w)) /\ In (Card.deckId c) deckIds)
    /\ StronglySorted (fun a b => Card.createdAt b <= Card.createdAt a) result.
Proof.
  intros Hf Hsub Hdeck.
  assert (forall deckIds (c : Card.t num),
            deckIn deckIds c = true <-> In (Card.deckId c) deckIds) as HdeckIn.
  { intros deckIds c. unfold deckIn. rewrite existsb_exists. split.
    - intros (x & Hx & E). apply String.eqb_eq in E. now subst x.
    - intros Hin. exists (Card.deckId c). split; [exact Hin|apply String.eqb_refl]. }
  assert (forall (deckIds : list string) (result : list (Card.t num)),
            result ≡ₚ List.filter (deckIn deckIds) (cards (db w)) ->
            forall c, In c result <-> In c (cards (db w)) /\ In (Card.deckId c) deckIds)
    as Hmem.
  { intros deckIds result Hp c. rewrite <- list_elem_of_In, Hp, list_elem_of_In.
    rewrite filter_In, HdeckIn. reflexivity. }
  unfold getDeckCards.
  erewrite bind_ok; [|unfold deck_findFirst; apply prisma_read_ok; exact Hf].
  rewrite Hdeck. destruct includeSubDecks.
  - destruct (Hsub eq_refl) as [Hrank Hfuel].
    destruct (getSubDeckIds_run w rank Hf Hrank fuel deckId Hfuel) as (ids & Hids & Hdesc).
    erewrite bind_ok by exact Hids.
    destruct (card_findMany_desc_ok w (fun _ => deckIn (ids ++ [deckId])) Card.createdAt Hf)
      as (result & Hrun & Hperm & Hsorted).
    exists (ids ++ [deckId]), result. split; [exact Hrun|]. split.
    { intros x. rewrite in_app_iff, Hdesc. cbn. intuition congruence. }
    split; [exact Hperm|]. split; [apply Hmem, Hperm|exact Hsorted].
  - destruct (card_findMany_desc_ok w (fun _ c => String.eqb (Card.deckId c) deckId)
                Card.createdAt Hf) as (result & Hrun & Hperm & Hsorted).
    assert (List.filter (fun c => String.eqb (Card.deckId c) deckId) (cards (db w))
            = List.filter (deckIn [deckId]) (cards (db w))) as E.
    { apply List.filter_ext. intros c. unfold deckIn. cbn [existsb]. now rewrite orb_false_r. }
    rewrite E in Hperm.
    exists [deckId], result. split; [exact Hrun|]. split.
    { intros x. cbn. intuition congruence. }
    split; [exact Hperm|]. split; [apply Hmem, Hperm|exact Hsorted].
Qed.

End DeckCardsFacts.

Lemma deck_of_another_user_not_found_witness :
  getDueCards 4 "u1" "x1" 9 true (sampleWorld [])
  = (Throw (JsError "Deck not found"), sampleWorld [])
  /\ getDeckCards 4 "u1" "x1" true (sampleWorld [])
     = (Throw (JsError "Deck not found"), sampleWorld [])
  /\ updateDeck "u1" "x1" {| update_parentId := Some None |} (sampleWorld [])
     = (Throw (JsError "Deck not found"), sampleWorld [])
  /\ getDeckStats "u1" "x1" (sampleWorld []) = (Ok None, sampleWorld []).
Proof.
  apply (deck_of_another_user_not_found (sampleWorld []) 4 "u1" "x1" 9 true
           {| update_parentId := Some None |}); [reflexivity|].
  intros d Hin Hid.
  destruct Hin as [<-|[<-|[<-|[<-|[]]]]]; try discriminate Hid. discriminate.
Defined.

Lemma getDeckCards_lists_the_subtree_witness :
  exists (deckIds : list string) (result : list (Card.t Q)),
    getDeckCards 4 "u1" "d1" true (sampleWorld []) = (Ok result, sampleWorld [])
    /\ (forall c, In c result
                  <-> In c (cards (db (sampleWorld []))) /\ In (Card.deckId c) deckIds)
    /\ StronglySorted (fun a b => (Card.createdAt b <= Card.createdAt a)%Z) result.
Proof.
  destruct (getDeckCards_lists_the_subtree (sampleWorld []) sampleRank 4 "u1" "d1" true
              (Deck.Build "d1" "u1" None) eq_refl)
    as (deckIds & result & Hrun & _ & _ & Hmem & Hsorted).
  - intros _. split; [|cbn; lia].
    intros d p Hin Hp.
    destruct Hin as [<-|[<-|[<-|[<-|[]]]]]; cbn in Hp; try discriminate Hp;
      injection Hp as <-; cbn; lia.
  - reflexivity.
  - exists deckIds, result. auto.
Defined.

(** ** getDeckStats *)

Section DeckStatsFacts.
Local Open Scope Q_scope.

Lemma count_filter_bounds {A} (p : A -> bool) (l : list A) :
  (0 <= count (List.filter p l) <= count l)%Z.
Proof. unfold count. pose proof (List.filter_length_le p l). lia. Qed.

Lemma Qleb_inject (a b : Z) : Qle_bool (inject_Z a) (inject_Z b) = (a <=? b)%Z.
Proof.
  destruct (a <=? b)%Z eqn:E.
  - apply Qle_bool_iff. rewrite <- Zle_Qle. lia.
  - destruct (Qle_bool _ _) eqn:E'; [|reflexivity].
    apply Qle_bool_iff in E'. rewrite <- Zle_Qle in E'. lia.
Qed.

Lemma Qltb_inject (a b : Z) : Qltb (inject_Z a) (inject_Z b) = (a <? b)%Z.
Proof. unfold Qltb. rewrite Qleb_inject. lia. Qed.

(** Under [schedulingOk] a card is new, learning or mature, and only one
    of the three. *)
Lemma categories_partition (l : list (Card.t Q)) :
  Forall schedulingOk l ->
  (count (List.filter (fun c => num_eqb (Card.repetitions c) (lit 0)) l)
   + count (List.filter (fun c => num_ltb (lit 0) (Card.repetitions c)
                                  && num_ltb (Card.interval c) (lit 21)) l)
   + count (List.filter (fun c => num_leb (lit 21) (Card.interval c)) l)
   = count l)%Z.
Proof.
  unfold count. induction 1 as [|c l Hc _ IH]; [reflexivity|].
  destruct Hc as (r & i & h & Hr & Hi & _ & Hr0 & Hi0 & Hri & Hr1 & _).
  cbn [List.filter].
  change (num_eqb (Card.repetitions c) (lit 0))
    with (Qeq_bool (Card.repetitions c) (inject_Z 0)).
  change (num_ltb (lit 0) (Card.repetitions c))
    with (Qltb (inject_Z 0) (Card.repetitions c)).
  change (num_ltb (Card.interval c) (lit 21)) with (Qltb (Card.interval c) (inject_Z 21)).
  change (num_leb (lit 21) (Card.interval c))
    with (Qle_bool (inject_Z 21) (Card.interval c)).
  rewrite Hr, Hi, Qeq_bool_inject, !Qltb_inject, Qleb_inject.
  destruct (r =? 0)%Z eqn:E1; destruct (0 <? r)%Z eqn:E2; destruct (i <? 21)%Z eqn:E3;
    destruct (21 <=? i)%Z eqn:E4; cbn [andb length]; lia.
Qed.

Lemma sum_easeFactor_ge (l : list (Card.t Q)) (acc : Q) :
  Forall (fun c => 1.3 <= Card.easeFactor c) l ->
  acc + 1.3 * inject_Z (count l)
  <= fold_left (fun sum c => num_add sum (Card.easeFactor c)) l acc.
Proof.
  intros Hall. revert acc. induction Hall as [|c l Hc _ IH]; intros acc.
  - unfold count. cbn [length fold_left]. change (inject_Z (Z.of_nat 0)) with 0. lra.
  - cbn [fold_left]. specialize (IH (num_add acc (Card.easeFactor c))).
    cbn [num_add exact] in *.
    assert (inject_Z (count (c :: l)) == inject_Z (count l) + 1) as E.
    { unfold count. cbn [length]. rewrite Nat2Z.inj_succ. unfold Z.succ.
      rewrite inject_Z_plus. reflexivity. }
    rewrite E. lra.
Qed.

Lemma percentage_range (s t : Z) :
  (0 <= s <= t)%Z -> (0 < t)%Z ->
  0 <= Math_round (num_mul (num_div (ofZ s) (ofZ t)) (lit 100)) <= 100.
Proof.
  intros Hs Ht. cbn [Math_round num_mul num_div ofZ lit exact].
  assert (0 <= inject_Z s / inject_Z t * 100 <= 100) as [H0 H1].
  { assert (0 < inject_Z t) as Ht' by (change 0 with (inject_Z 0); rewrite <- Zlt_Qlt; lia).
    assert (0 <= inject_Z s) as Hs0 by (change 0 with (inject_Z 0); rewrite <- Zle_Qle; lia).
    assert (inject_Z s <= inject_Z t) as Hst by (rewrite <- Zle_Qle; lia).
    assert (0 <= inject_Z s / inject_Z t) as Ha.
    { apply Qle_shift_div_l; [exact Ht'|]. lra. }
    assert (inject_Z s / inject_Z t <= 1) as Hb.
    { apply Qle_shift_div_r; [exact Ht'|]. lra. }
    split; lra. }
  split.
  - change 0 with (inject_Z 0). rewrite <- Zle_Qle. now apply round_half_up_ge.
  - change 100 with (inject_Z 100). rewrite <- Zle_Qle.
    rewrite <- (round_half_up_inject 100). apply Qround_half_up_le. exact H1.
Qed.

(** Property X13.

    The statistics of a deck of the user, on a store whose cards have
    scheduling states as the code produces them: every card of the deck is
    counted in exactly one of the categories new, learning and mature; the
    cards due are among them; the average ease factor is at least 1.3 (it
    is 2.5 for a deck without cards); the retention rate is a percentage. *)
Theorem getDeckStats_categories (w : World Q) (userId deckId : string) (deck : Deck.t) :
  faults w = [] ->
  List.find (ownedDeck userId deckId) (decks (db w)) = Some deck ->
  Forall schedulingOk (cards (db w)) ->
  exists stats,
    getDeckStats userId deckId w = (Ok (Some stats), w)
    /\ DeckStats.deckId stats = deckId
    /\ DeckStats.totalCards stats
       = count (List.filter (fun c => String.eqb (Card.deckId c) deckId) (cards (db w)))
    /\ (DeckStats.newCards stats + DeckStats.learningCards stats
        + DeckStats.matureCards stats = DeckStats.totalCards stats)%Z
    /\ (0 <= DeckStats.dueCards stats <= DeckStats.totalCards stats)%Z
    /\ 1.3 <= DeckStats.averageEaseFactor stats
    /\ (DeckStats.totalCards stats = 0%Z -> DeckStats.averageEaseFactor stats == 2.5)
    /\ 0 <= DeckStats.retentionRate stats <= 100.
Proof.
  intros Hf Hdeck Hall.
  destruct (find_ownedDeck _ _ _ _ Hdeck) as (_ & Hid & _).
  unfold getDeckStats.
  erewrite bind_ok; [|unfold deck_findFirst_withCards; apply prisma_read_ok; exact Hf].
  rewrite Hdeck. cbn [option_map]. rewrite Hid.
  set (cs := List.filter (fun c => String.eqb (Card.deckId c) deckId) (cards (db w))).
  unfold bind at 1, getClock at 1.
  erewrite bind_ok; [|unfold cardReview_findMany; apply prisma_read_ok; exact Hf].
  set (rs := List.filter (reviewOfDeck (db w) deckId) (cardReviews (db w))).
  eexists. split; [reflexivity|].
  cbn [DeckStats.deckId DeckStats.totalCards DeckStats.newCards DeckStats.learningCards
       DeckStats.matureCards DeckStats.dueCards DeckStats.averageEaseFactor
       DeckStats.retentionRate].
  assert (Forall schedulingOk cs) as Hcs.
  { subst cs. rewrite Forall_forall in Hall |- *. intros c Hc.
    apply list_elem_of_In, filter_In in Hc as [Hc _]. apply Hall, list_elem_of_In, Hc. }
  split; [reflexivity|]. split; [reflexivity|].
  split; [apply categories_partition, Hcs|].
  split; [apply count_filter_bounds|].
  assert (Forall (fun c => 1.3 <= Card.easeFactor c) cs) as Hef.
  { eapply Forall_impl; [exact Hcs|]. intros c (r & i & h & _ & _ & Hh & _ & _ & _ & _ & H130).
    rewrite Hh. rewrite Zle_Qle in H130. change (inject_Z 130) with 130 in H130. lraQ. }
  split; [|split].
  - cbn [Math_round num_mul num_div lit exact].
    assert (forall x, 1.3 <= x -> 1.3 <= inject_Z (Qround_half_up (x * 100)) / 100) as Hround.
    { intros x Hx.
      assert (130 <= Qround_half_up (x * 100))%Z as H
        by (apply round_half_up_ge; change (inject_Z 130) with 130; lra).
      rewrite Zle_Qle in H. change (inject_Z 130) with 130 in H. lraQ. }
    apply Hround. destruct (count cs >? 0)%Z eqn:Hn; [|lra].
    pose proof (sum_easeFactor_ge cs 0 Hef) as Hsum.
    apply Qle_shift_div_l.
    + change 0 with (inject_Z 0). unfold ofZ. cbn [lit exact]. rewrite <- Zlt_Qlt. lia.
    + unfold ofZ. cbn [lit exact]. cbn [lit exact] in Hsum. lra.
  - intros H0. rewrite H0. reflexivity.
  - destruct (count rs >? 0)%Z eqn:Hn.
    + apply percentage_range; [apply count_filter_bounds|lia].
    + cbn [lit exact]. split; lra.
Qed.

Lemma getDeckStats_categories_witness :
  exists stats,
    getDeckStats "u1" "d3" (sampleWorld []) = (Ok (Some stats), sampleWorld [])
    /\ (DeckStats.newCards stats + DeckStats.learningCards stats
        + DeckStats.matureCards stats = DeckStats.totalCards stats)%Z
    /\ 1.3 <= DeckStats.averageEaseFactor stats.
Proof.
  destruct (getDeckStats_categories (sampleWorld []) "u1" "d3"
              (Deck.Build "d3" "u1" (Some "d2"%string)) eq_refl eq_refl)
    as (stats & Hrun & _ & _ & Hsum & _ & Hef & _).
  - constructor.
    { exists 0%Z, 0%Z, 250%Z. repeat split; try reflexivity; lia. }
    constructor.
    { exists 4%Z, 15%Z, 196%Z. repeat split; try reflexivity; lia. }
    constructor; [|constructor].
    exists 2%Z, 6%Z, 250%Z. repeat split; try reflexivity; lia.
  - exists stats. auto.
Defined.

End DeckStatsFacts.

(** ** The daily activity and the counts of getUserStats *)

Section ActivityFacts.
Context {num : Type} `{!JsNumber num}.
Local Open Scope Z_scope.

Lemma mapM_map {A B} (f : A -> M num B) (g : A -> B) (l : list A) (w : World num) :
  (forall x, f x w = (Ok (g x), w)) -> mapM f l w = (Ok (map g l), w).
Proof.
  intros Hf. induction l as [|x l IH]; [reflexivity|].
  cbn [mapM map]. erewrite bind_ok by apply Hf. erewrite bind_ok by exact IH.
  reflexivity.
Qed.

Lemma isoDate_days_back (t i : Z) : isoDate (addDays t (- i)) = isoDate t - i.
Proof.
  unfold isoDate, addDays. rewrite Z.div_add by (unfold msPerDay; lia). lia.
Qed.

Lemma local_day_window (clk : Clock) (t r i : Z) :
  let startOfDay := startOfLocalDay clk (addDays t (- i)) in
  (startOfDay <=? r) && (r <? addDays startOfDay 1)
  = (localDay clk r =? localDay clk t - i).
Proof.
  intros startOfDay. subst startOfDay.
  unfold startOfLocalDay, addDays, localDay.
  replace (t + - i * msPerDay + tzOffset clk) with (t + tzOffset clk + - i * msPerDay) by lia.
  rewrite Z.div_add by (unfold msPerDay; lia).
  set (D := (t + tzOffset clk) / msPerDay).
  pose proof (Z.div_mod (r + tzOffset clk) msPerDay ltac:(unfold msPerDay; lia)) as Hdm.
  pose proof (Z.mod_pos_bound (r + tzOffset clk) msPerDay ltac:(unfold msPerDay; lia)) as Hb.
  set (Dr := (r + tzOffset clk) / msPerDay) in *.
  unfold msPerDay in *.
  destruct (Z.eqb_spec Dr (D - i)) as [E|E].
  - apply andb_true_iff. split; [apply Z.leb_le|apply Z.ltb_lt]; nia.
  - apply andb_false_iff.
    destruct (Z.lt_ge_cases Dr (D - i)); [left; apply Z.leb_gt|right; apply Z.ltb_ge]; nia.
Qed.

(** The entry that [getRecentActivity] computes for the day [i] days back *)
Lemma getRecentActivity_entries (w : World num) (userId : string) (days : nat) :
  faults w = [] ->
  exists entry : nat -> DailyActivity.t num,
    getRecentActivity userId days w = (Ok (reverse (map entry (seq 0 days))), w)
    /\ forall i : nat,
         let clk := clock w in
         let studied := reviewsOnLocalDay clk (localDay clk (now clk) - Z.of_nat i)
                          (userReviews (db w) userId) in
         DailyActivity.date (entry i) = isoDate (now clk) - Z.of_nat i
         /\ DailyActivity.cardsStudied (entry i) = count studied
         /\ (count studied = 0 -> DailyActivity.averageQuality (entry i) = lit 0).
Proof.
  intros Hf. unfold getRecentActivity.
  rewrite (bind_ok _ _ w w (clock w)) by reflexivity.
  eexists (fun i => _). split.
  - erewrite bind_ok; [reflexivity|].
    apply mapM_map. intros i.
    erewrite bind_ok; [|unfold cardReview_findMany; apply prisma_read_ok; exact Hf].
    reflexivity.
  - intros i.
    cbn [DailyActivity.date DailyActivity.cardsStudied DailyActivity.averageQuality].
    set (clk := clock w).
    assert (List.filter
              (fun r => reviewOfUser (db w) userId r
                        && (startOfLocalDay clk (addDays (now clk) (- Z.of_nat i))
                            <=? CardReview.reviewedAt r)
                        && (CardReview.reviewedAt r
                            <? addDays (startOfLocalDay clk (addDays (now clk) (- Z.of_nat i)))
                                 1))
              (cardReviews (db w))
            = reviewsOnLocalDay clk (localDay clk (now clk) - Z.of_nat i)
                (userReviews (db w) userId)) as ->.
    { unfold reviewsOnLocalDay, userReviews.
      rewrite <- filter_andb. apply List.filter_ext. intros r.
      rewrite <- andb_assoc. f_equal. apply local_day_window. }
    split; [apply isoDate_days_back|]. split; [reflexivity|].
    intros ->. reflexivity.
Qed.

(** Property X14.

    [getRecentActivity] returns one entry for each of the last [days]
    days, the oldest first and today last.  The entry for the day [i] days
    back is labelled with the UTC date of the instant [i] times 24 hours
    ago, and counts the user's reviews made on the local calendar day [i]
    days back; on a day without reviews the average quality is 0. *)
Theorem getRecentActivity_days (w : World num) (userId : string) (days : nat) :
  faults w = [] ->
  exists activity,
    getRecentActivity userId days w = (Ok activity, w)
    /\ length activity = days
    /\ forall (k : nat) (e : DailyActivity.t num),
         activity !! k = Some e ->
         let clk := clock w in
         let back := Z.of_nat (days - 1 - k) in
         let studied := reviewsOnLocalDay clk (localDay clk (now clk) - back)
                          (userReviews (db w) userId) in
         DailyActivity.date e = isoDate (now clk) - back
         /\ DailyActivity.cardsStudied e = count studied
         /\ (count studied = 0 -> DailyActivity.averageQuality e = lit 0).
Proof.
  intros Hf.
  destruct (getRecentActivity_entries w userId days Hf) as (entry & Hrun & Hentry).
  eexists. split; [exact Hrun|].
  split; [now rewrite length_reverse, length_map, length_seq|].
  intros k e Hk.
  assert (k < days)%nat as Hlt.
  { apply lookup_lt_Some in Hk.
    now rewrite length_reverse, length_map, length_seq in Hk. }
  rewrite reverse_lookup in Hk
    by (rewrite length_map, length_seq; exact Hlt).
  rewrite length_map, length_seq, list_lookup_fmap in Hk.
  replace (days - S k)%nat with (days - 1 - k)%nat in Hk by lia.
  rewrite lookup_seq_lt in Hk by lia. cbn in Hk. injection Hk as <-.
  apply Hentry.
Qed.

End ActivityFacts.

Lemma getRecentActivity_days_witness :
  exists activity,
    getRecentActivity "u1" 7 (sampleWorld []) = (Ok activity, sampleWorld [])
    /\ length activity = 7%nat.
Proof.
  destruct (getRecentActivity_days (sampleWorld []) "u1" 7 eq_refl)
    as (activity & Hrun & Hlen & _).
  exists activity. auto.
Defined.

Section UserCountsFacts.
Context {num : Type} `{!JsNumber num}.
Local Open Scope Z_scope.

(** What [getUserStats] counts *)
Lemma getUserStats_fields (w : World num) (userId : string) :
  faults w = [] ->
  exists stats activity,
    getUserStats userId w = (Ok stats, w)
    /\ getRecentActivity userId 7 w = (Ok activity, w)
    /\ UserStats.recentActivity stats = activity
    /\ (let startOfToday := startOfLocalDay (clock w) (now (clock w)) in
        let mine := List.filter (cardOfUser (db w) userId) (cards (db w)) in
        let reviews := userReviews (db w) userId in
        UserStats.totalDecks stats
        = count (List.filter (fun d => String.eqb (Deck.userId d) userId) (decks (db w)))
        /\ UserStats.totalCards stats = count mine
        /\ UserStats.cardsDueToday stats
           = count (List.filter (fun c => Card.nextReviewAt c <=? now (clock w)) mine)
        /\ UserStats.cardsStudiedToday stats
           = count (List.filter (fun r => startOfToday <=? CardReview.reviewedAt r) reviews)
        /\ UserStats.cardsStudiedThisWeek stats
           = count (List.filter
                      (fun r => addDays startOfToday (-7) <=? CardReview.reviewedAt r)
                      reviews)
        /\ UserStats.totalReviews stats = count reviews).
Proof.
  intros Hf.
  destruct (calculateStreaks_run w userId Hf) as (s & Hs & _).
  destruct (getRecentActivity_run w userId 7 Hf) as (activity & Ha).
  eexists _, activity.
  split; [|split; [exact Ha|]].
  - unfold getUserStats at 1.
    rewrite (bind_ok _ _ w w (clock w)) by reflexivity.
    do 8 (erewrite bind_ok;
          [|unfold deck_count, card_count, cardReview_count; apply prisma_read_ok; exact Hf]).
    erewrite bind_ok by exact Hs. erewrite bind_ok by exact Ha.
    unfold ret. reflexivity.
  - cbn [UserStats.recentActivity UserStats.totalDecks UserStats.totalCards
         UserStats.cardsDueToday UserStats.cardsStudiedToday
         UserStats.cardsStudiedThisWeek UserStats.totalReviews].
    unfold userReviews. rewrite <- !filter_andb. repeat split.
Qed.

Lemma count_filter_mono {A} (p q : A -> bool) (l : list A) :
  (forall x, p x = true -> q x = true) ->
  count (List.filter p l) <= count (List.filter q l).
Proof.
  intros Hpq. unfold count. induction l as [|x l IH]; [reflexivity|].
  cbn [List.filter]. specialize (Hpq x).
  destruct (p x); destruct (q x); cbn [length]; lia.
Qed.

(** The reviews of seven consecutive local days, today the last of them,
    were all made since the start of the day seven days ago. *)
Lemma week_of_days (clk : Clock) (reviews : list (CardReview.t num)) :
  let D := localDay clk (now clk) in
  let on i := count (reviewsOnLocalDay clk (D - i) reviews) in
  on 6 + (on 5 + (on 4 + (on 3 + (on 2 + (on 1 + (on 0 + 0))))))
  <= count (List.filter
              (fun r => addDays (startOfLocalDay clk (now clk)) (-7)
                        <=? CardReview.reviewedAt r) reviews).
Proof.
  intros D on. subst on. unfold reviewsOnLocalDay, count.
  induction reviews as [|r reviews IH]; [reflexivity|].
  cbn [List.filter].
  assert (forall i, 0 <= i <= 6 ->
            localDay clk (CardReview.reviewedAt r) = D - i ->
            (addDays (startOfLocalDay clk (now clk)) (-7) <=? CardReview.reviewedAt r)
            = true) as Hin.
  { intros i Hi Hday. apply Z.leb_le. subst D.
    unfold localDay, addDays, startOfLocalDay in *.
    pose proof (Z.div_mod (CardReview.reviewedAt r + tzOffset clk) msPerDay
                  ltac:(unfold msPerDay; lia)) as Hdm.
    pose proof (Z.mod_pos_bound (CardReview.reviewedAt r + tzOffset clk) msPerDay
                  ltac:(unfold msPerDay; lia)) as Hb.
    unfold msPerDay in *. nia. }
  destruct (Z.eqb_spec (localDay clk (CardReview.reviewedAt r)) (D - 0)) as [E0|E0];
  destruct (Z.eqb_spec (localDay clk (CardReview.reviewedAt r)) (D - 1)) as [E1|E1];
  destruct (Z.eqb_spec (localDay clk (CardReview.reviewedAt r)) (D - 2)) as [E2|E2];
  destruct (Z.eqb_spec (localDay clk (CardReview.reviewedAt r)) (D - 3)) as [E3|E3];
  destruct (Z.eqb_spec (localDay clk (CardReview.reviewedAt r)) (D - 4)) as [E4|E4];
  destruct (Z.eqb_spec (localDay clk (CardReview.reviewedAt r)) (D - 5)) as [E5|E5];
  destruct (Z.eqb_spec (localDay clk (CardReview.reviewedAt r)) (D - 6)) as [E6|E6];
    try lia;
    try (rewrite (Hin 0) by lia); try (rewrite (Hin 1) by lia);
    try (rewrite (Hin 2) by lia); try (rewrite (Hin 3) by lia);
    try (rewrite (Hin 4) by lia); try (rewrite (Hin 5) by lia);
    try (rewrite (Hin 6) by lia);
    cbn [length]; try lia.
  destruct (_ <=? _); cbn [length]; lia.
Qed.

(** Property X15.

    The counts of [getUserStats] are consistent with each other: today's
    reviews are among this week's, and this week's among all of the
    user's; the cards due are among the user's cards; and the seven daily
    counts of the recent activity add up to no more than the count for
    this week (which also takes in the day seven days ago). *)
Theorem getUserStats_counts_consistent (w : World num) (userId : string) :
  faults w = [] ->
  exists stats,
    getUserStats userId w = (Ok stats, w)
    /\ 0 <= UserStats.cardsStudiedToday stats
       <= UserStats.cardsStudiedThisWeek stats
    /\ UserStats.cardsStudiedThisWeek stats <= UserStats.totalReviews stats
    /\ 0 <= UserStats.cardsDueToday stats <= UserStats.totalCards stats
    /\ length (UserStats.recentActivity stats) = 7%nat
    /\ totalStudied (UserStats.recentActivity stats)
       <= UserStats.cardsStudiedThisWeek stats.
Proof.
  intros Hf.
  destruct (getUserStats_fields w userId Hf)
    as (stats & activity & Hrun & Hact & Hra & Hfields).
  cbv zeta in Hfields.
  destruct Hfields as (_ & Hcards & Hdue & Htoday & Hweek & Htotal).
  destruct (getRecentActivity_entries w userId 7 Hf) as (entry & Hact' & Hentry).
  assert (activity = reverse (map entry (seq 0 7))) as -> by congruence.
  exists stats. split; [exact Hrun|].
  rewrite Hra, Hcards, Hdue, Htoday, Hweek, Htotal.
  split; [split; [apply count_filter_bounds|]|].
  { apply count_filter_mono. intros r Hr. apply Z.leb_le in Hr. apply Z.leb_le.
    unfold addDays, msPerDay. lia. }
  split; [apply count_filter_bounds|]. split; [apply count_filter_bounds|].
  split; [reflexivity|].
  change (reverse (map entry (seq 0 7)))
    with [entry 6%nat; entry 5%nat; entry 4%nat; entry 3%nat; entry 2%nat; entry 1%nat;
          entry 0%nat].
  unfold totalStudied. cbn [fold_right].
  rewrite !(fun i => proj1 (proj2 (Hentry i))).
  apply (week_of_days (clock w) (userReviews (db w) userId)).
Qed.

End UserCountsFacts.

Lemma getUserStats_counts_consistent_witness :
  exists stats,
    getUserStats "u1" (sampleWorld []) = (Ok stats, sampleWorld [])
    /\ (totalStudied (UserStats.recentActivity stats)
        <= UserStats.cardsStudiedThisWeek stats)%Z.
Proof.
  destruct (getUserStats_counts_consistent (sampleWorld []) "u1" eq_refl)
    as (stats & Hrun & _ & _ & _ & _ & Hsum).
  exists stats. auto.
Defined.

(** ** study.service.ts: the streak over review days *)

Section StudyStreakFacts.
Context {num : Type} `{!JsNumber num}.
Local Open Scope Z_scope.

Lemma streakLoop_step (current previous : Z) (rest : list Z) (acc : Z) :
  streakLoop (current :: previous :: rest) acc
  = if current - previous =? 1 then streakLoop (previous :: rest) (acc + 1) else acc.
Proof.
  cbn [streakLoop].
  assert (Qeq_bool (inject_Z (dateOfIso current - dateOfIso previous) / 86400000) 1
          = (current - previous =? 1)) as ->; [|reflexivity].
  assert (inject_Z (dateOfIso current - dateOfIso previous) / 86400000
          == inject_Z (current - previous))%Q as E.
  { unfold dateOfIso, msPerDay.
    replace (current * 86400000 - previous * 86400000)
      with ((current - previous) * 86400000) by lia.
    rewrite inject_Z_mult. change (inject_Z 86400000) with 86400000%Q. field. }
  destruct (Z.eqb_spec (current - previous) 1) as [E1|E1].
  - apply Qeq_bool_iff. rewrite E, E1. reflexivity.
  - destruct (Qeq_bool _ _) eqn:Hq; [|reflexivity].
    apply Qeq_bool_iff in Hq. rewrite E in Hq.
    change 1%Q with (inject_Z 1) in Hq. rewrite inject_Z_injective in Hq. contradiction.
Qed.

Lemma streakLoop_currentStreakLoop (l : list Z) (acc : Z) :
  streakLoop l acc = currentStreakLoop l acc.
Proof.
  revert acc. induction l as [|a [|b l] IH]; intros acc; try reflexivity.
  rewrite streakLoop_step, currentStreakLoop_step, IH. reflexivity.
Qed.

Lemma descending_unique (l1 l2 : list Z) :
  StronglySorted Z.gt l1 -> StronglySorted Z.gt l2 ->
  (forall d, In d l1 <-> In d l2) -> l1 = l2.
Proof.
  revert l2. induction l1 as [|a l1 IH]; intros [|b l2] H1 H2 Hsame.
  - reflexivity.
  - destruct (proj2 (Hsame b) (or_introl eq_refl)).
  - destruct (proj1 (Hsame a) (or_introl eq_refl)).
  - apply descending_cons in H1 as [Ha H1]. apply descending_cons in H2 as [Hb H2].
    assert (a = b) as ->.
    { destruct (proj1 (Hsame a) (or_introl eq_refl)) as [E|E]; [auto|].
      destruct (proj2 (Hsame b) (or_introl eq_refl)) as [E'|E']; [auto|].
      specialize (Ha _ E'). specialize (Hb _ E). lia. }
    f_equal. apply IH; [exact H1|exact H2|].
    intros d. split; intros Hd.
    + destruct (proj1 (Hsame d) (or_intror Hd)) as [E|E]; [|exact E].
      specialize (Ha _ Hd). lia.
    + destruct (proj2 (Hsame d) (or_intror Hd)) as [E|E]; [|exact E].
      specialize (Hb _ Hd). lia.
Qed.

Lemma uniqueDatesOf_ext (l1 l2 : list Z) :
  (forall d, In d l1 <-> In d l2) -> uniqueDatesOf l1 = uniqueDatesOf l2.
Proof.
  intros Hsame.
  destruct (uniqueDatesOf_spec l1) as [H1 E1]. destruct (uniqueDatesOf_spec l2) as [H2 E2].
  apply descending_unique; [exact H1|exact H2|].
  intros d. rewrite E1, E2. apply Hsame.
Qed.

Lemma currentStreakOf_ext (l1 l2 : list Z) (today : Z) :
  (forall d, In d l1 <-> In d l2) -> currentStreakOf l1 today = currentStreakOf l2 today.
Proof. intros Hsame. unfold currentStreakOf. now rewrite (uniqueDatesOf_ext l1 l2). Qed.

Lemma currentStreakOf_spec (dates : list Z) (today : Z) :
  currentStreakAsSpecified dates today (currentStreakOf dates today).
Proof.
  unfold currentStreakOf.
  destruct (uniqueDatesOf_spec dates) as [Hdesc Hu].
  destruct (uniqueDatesOf dates) as [|d0 rest] eqn:Hud.
  { split; [reflexivity|]. intros latest Hl. apply Hu in Hl. destruct Hl. }
  assert (In d0 dates) as Hd0 by (apply Hu; left; reflexivity).
  assert (forall d, In d dates -> d <= d0) as Hmax.
  { intros d Hd. apply Hu in Hd as [->|Hd]; [lia|].
    apply descending_cons in Hdesc as [Hlt _]. specialize (Hlt d Hd). lia. }
  destruct (currentStreakLoop_spec rest d0 1 Hdesc) as (Hk & Hin & Hout).
  split; [intros Hnil; rewrite Hnil in Hd0; destruct Hd0|].
  intros latest Hl Hlmax.
  assert (latest = d0) as -> by (specialize (Hmax _ Hl); specialize (Hlmax _ Hd0); lia).
  split.
  - intros H1 H2.
    destruct (Z.eqb_spec d0 today); [contradiction|].
    destruct (Z.eqb_spec d0 (today - 1)); [contradiction|]. reflexivity.
  - intros Hact.
    assert ((d0 =? today) || (d0 =? today - 1) = true) as ->.
    { apply orb_true_iff. rewrite !Z.eqb_eq. exact Hact. }
    split; [lia|]. split.
    + intros j Hj. apply Hu, Hin. lia.
    + intros Hbad. apply Hu in Hbad. apply Hout.
      replace (d0 - (currentStreakLoop (d0 :: rest) 1 - 1) - 1)
        with (d0 - currentStreakLoop (d0 :: rest) 1) by lia. exact Hbad.
Qed.

Lemma calculateStreak_run (w : World num) (userId : string) :
  faults w = [] ->
  StudyService.calculateStreak userId w
  = (Ok (currentStreakOf (reviewDates (db w) userId) (isoDate (now (clock w)))), w).
Proof.
  intros Hf. unfold StudyService.calculateStreak.
  erewrite bind_ok; [|apply prisma_read_ok; exact Hf].
  set (reviews := reverse (orderByAsc CardReview.reviewedAt _)).
  set (today := isoDate (now (clock w))).
  assert (forall d, In d (map (fun r => isoDate (CardReview.reviewedAt r)) reviews)
                    <-> In d (reviewDates (db w) userId)) as Hsame
    by (intros d; apply In_map_sorted_reverse).
  rewrite <- (currentStreakOf_ext _ _ today Hsame).
  unfold currentStreakOf.
  destruct (Nat.eqb_spec (length reviews) 0) as [Hlen|Hlen].
  { apply length_zero_iff_nil in Hlen. rewrite Hlen. reflexivity. }
  rewrite (bind_ok _ _ w w (clock w)) by reflexivity.
  rewrite isoDate_yesterday. fold today.
  destruct (uniqueDatesOf _) as [|d0 rest]; [reflexivity|].
  rewrite streakLoop_currentStreakLoop.
  destruct (d0 =? today); destruct (d0 =? today - 1); reflexivity.
Qed.

Lemma calculateStreaks_current (w : World num) (userId : string) :
  faults w = [] ->
  exists s,
    calculateStreaks userId w = (Ok s, w)
    /\ Streaks.currentStreak s
       = currentStreakOf (studyDates (db w) userId) (isoDate (now (clock w))).
Proof.
  intros Hf. unfold calculateStreaks.
  erewrite bind_ok;
    [|unfold studySession_findMany_desc; apply prisma_read_ok; exact Hf].
  set (sessions := reverse (orderByAsc StudySession.startedAt _)).
  set (today := isoDate (now (clock w))).
  assert (forall d, In d (map (fun s => isoDate (StudySession.startedAt s)) sessions)
                    <-> In d (studyDates (db w) userId)) as Hsame
    by (intros d; apply In_map_sorted_reverse).
  rewrite <- (currentStreakOf_ext _ _ today Hsame).
  unfold currentStreakOf.
  destruct (Nat.eqb_spec (length sessions) 0) as [Hlen|Hlen].
  { apply length_zero_iff_nil in Hlen. rewrite Hlen. eexists. split; reflexivity. }
  destruct (uniqueDatesOf _) as [|d0 rest] eqn:Hud.
  { eexists. split; reflexivity. }
  cbn [length Nat.eqb].
  rewrite (bind_ok _ _ w w (clock w)) by reflexivity.
  rewrite isoDate_yesterday. fold today.
  destruct (longestStreakLoop (d0 :: rest) 0 1) as [a b].
  eexists. split; reflexivity.
Qed.

(** Property X16.

    The streak of [getUserStats] in study.service.ts is a current streak
    over the days on which the user made a review, where the streaks of
    stats.service.ts are over the days on which a session was started.
    The two figures agree when the two sets of days are the same; a user
    who opened a session today (and none dated later) without reviewing
    anything has a streak of 0 in the one and of at least 1 in the
    other. *)
Theorem calculateStreak_over_review_days (w : World num) (userId : string) :
  faults w = [] ->
  exists (streak : Z) (s : Streaks.t),
    StudyService.calculateStreak userId w = (Ok streak, w)
    /\ calculateStreaks userId w = (Ok s, w)
    /\ (let today := isoDate (now (clock w)) in
        let reviewDays := reviewDates (db w) userId in
        let sessionDays := studyDates (db w) userId in
        currentStreakAsSpecified reviewDays today streak
        /\ ((forall d, In d reviewDays <-> In d sessionDays) ->
            streak = Streaks.currentStreak s)
        /\ (reviewDays = [] -> In today sessionDays ->
            (forall d, In d sessionDays -> d <= today) ->
            streak = 0 /\ 1 <= Streaks.currentStreak s)).
Proof.
  intros Hf.
  destruct (calculateStreaks_current w userId Hf) as (s & Hs & Hcur).
  eexists _, s. split; [apply calculateStreak_run, Hf|]. split; [exact Hs|].
  cbv zeta. split; [apply currentStreakOf_spec|]. split.
  - intros Hsame. rewrite Hcur. apply currentStreakOf_ext, Hsame.
  - intros Hnil Htoday Hmax. rewrite Hnil. split; [reflexivity|].
    rewrite Hcur.
    pose proof (currentStreakOf_spec (studyDates (db w) userId) (isoDate (now (clock w))))
      as [_ Hspec].
    destruct (Hspec _ Htoday Hmax) as [_ Hact].
    apply Hact. now left.
Qed.

End StudyStreakFacts.

Lemma calculateStreak_over_review_days_witness :
  exists (streak : Z) (s : Streaks.t),
    StudyService.calculateStreak "u1" (sampleWorld []) = (Ok streak, sampleWorld [])
    /\ calculateStreaks "u1" (sampleWorld []) = (Ok s, sampleWorld [])
    /\ streak = 0%Z /\ (1 <= Streaks.currentStreak s)%Z.
Proof.
  destruct (calculateStreak_over_review_days (sampleWorld []) "u1" eq_refl)
    as (streak & s & H1 & H2 & _ & _ & H3).
  exists streak, s. split; [exact H1|]. split; [exact H2|].
  apply H3; [reflexivity|left; reflexivity|].
  intros d [<-|[]]. vm_compute. discriminate.
Defined.

(** ** study.service.ts: the counts of getUserStats *)

Section StudyCountsFacts.
Context {num : Type} `{!JsNumber num}.
Local Open Scope Z_scope.

Lemma startOfLocalDay_idem (clk : Clock) (t : Z) :
  startOfLocalDay clk (startOfLocalDay clk t) = startOfLocalDay clk t.
Proof.
  unfold startOfLocalDay.
  replace ((t + tzOffset clk) / msPerDay * msPerDay - tzOffset clk + tzOffset clk)
    with ((t + tzOffset clk) / msPerDay * msPerDay) by lia.
  rewrite Z.div_mul by (unfold msPerDay; lia). reflexivity.
Qed.

Lemma today_window (clk : Clock) (r : Z) :
  let startOfToday := startOfLocalDay clk (now clk) in
  (startOfToday <=? r) && (r <=? setHours clk startOfToday 23 59 59 999)
  = (localDay clk r =? localDay clk (now clk)).
Proof.
  intros startOfToday. subst startOfToday.
  rewrite setHours_end_of_day, startOfLocalDay_idem.
  unfold startOfLocalDay, localDay.
  set (D := (now clk + tzOffset clk) / msPerDay).
  pose proof (Z.div_mod (r + tzOffset clk) msPerDay ltac:(unfold msPerDay; lia)) as Hdm.
  pose proof (Z.mod_pos_bound (r + tzOffset clk) msPerDay ltac:(unfold msPerDay; lia)) as Hb.
  set (Dr := (r + tzOffset clk) / msPerDay) in *.
  unfold msPerDay in *.
  destruct (Z.eqb_spec Dr D) as [E|E].
  - apply andb_true_iff. split; apply Z.leb_le; nia.
  - apply andb_false_iff.
    destruct (Z.lt_ge_cases Dr D); [left|right]; apply Z.leb_gt; nia.
Qed.

(** Property X17.

    The two services report the same user in two ways.  The totals of
    cards, decks and reviews agree.  The cards due today of
    study.service.ts are those that [isDue] accepts (due by the end of the
    local day), where stats.service.ts counts only the cards due by now, so
    never more of them.  The reviews of today of study.service.ts are those
    of the local day; stats.service.ts counts all reviews since the start of
    the day, so never fewer, and as many when no review is dated after
    today. *)
Theorem getUserStats_of_both_services (w : World num) (userId : string) :
  faults w = [] ->
  exists (study : StudyStats.t) (stats : UserStats.t num),
    StudyService.getUserStats userId w = (Ok study, w)
    /\ getUserStats userId w = (Ok stats, w)
    /\ StudyStats.totalCards study = UserStats.totalCards stats
    /\ StudyStats.totalDecks study = UserStats.totalDecks stats
    /\ StudyStats.totalReviews study = UserStats.totalReviews stats
    /\ (let clk := clock w in
        let mine := List.filter (cardOfUser (db w) userId) (cards (db w)) in
        let reviews := userReviews (db w) userId in
        StudyStats.dueToday study
        = count (List.filter (fun c => isDue clk (Card.nextReviewAt c)) mine)
        /\ UserStats.cardsDueToday stats <= StudyStats.dueToday study
        /\ StudyStats.todayReviews study
           = count (reviewsOnLocalDay clk (localDay clk (now clk)) reviews)
        /\ StudyStats.todayReviews study <= UserStats.cardsStudiedToday stats
        /\ ((forall r, In r reviews ->
                       localDay clk (CardReview.reviewedAt r) <= localDay clk (now clk)) ->
            StudyStats.todayReviews study = UserStats.cardsStudiedToday stats)).
Proof.
  intros Hf.
  destruct (getUserStats_fields w userId Hf)
    as (stats & activity & Hrun & _ & _ & Hfields).
  cbv zeta in Hfields.
  destruct Hfields as (Hdecks & Hcards & Hdue & Htoday & _ & Htotal).
  eexists _, stats. split; [|split; [exact Hrun|]].
  - unfold StudyService.getUserStats.
    rewrite (bind_ok _ _ w w (clock w)) by reflexivity.
    do 5 (erewrite bind_ok;
          [|unfold deck_count, card_count, cardReview_count; apply prisma_read_ok; exact Hf]).
    erewrite bind_ok by (apply calculateStreak_run; exact Hf).
    reflexivity.
  - cbn [StudyStats.totalCards StudyStats.totalDecks StudyStats.totalReviews
         StudyStats.dueToday StudyStats.todayReviews].
    rewrite Hdecks, Hcards, Hdue, Htoday, Htotal.
    split; [reflexivity|]. split; [reflexivity|]. split; [reflexivity|].
    set (clk := clock w).
    assert (forall t, (t <=? setHours clk (startOfLocalDay clk (now clk)) 23 59 59 999)
                      = isDue clk t) as HisDue.
    { intros t. unfold isDue.
      now rewrite !setHours_end_of_day, startOfLocalDay_idem. }
    assert (List.filter
              (fun r => reviewOfUser (db w) userId r
                        && (startOfLocalDay clk (now clk) <=? CardReview.reviewedAt r)
                        && (CardReview.reviewedAt r
                            <=? setHours clk (startOfLocalDay clk (now clk)) 23 59 59 999))
              (cardReviews (db w))
            = reviewsOnLocalDay clk (localDay clk (now clk)) (userReviews (db w) userId))
      as Htoday'.
    { unfold reviewsOnLocalDay, userReviews.
      rewrite <- filter_andb. apply List.filter_ext. intros r.
      rewrite <- andb_assoc. f_equal. apply today_window. }
    rewrite Htoday'.
    assert (List.filter
              (fun c => cardOfUser (db w) userId c
                        && (Card.nextReviewAt c
                            <=? setHours clk (startOfLocalDay clk (now clk)) 23 59 59 999))
              (cards (db w))
            = List.filter (fun c => isDue clk (Card.nextReviewAt c))
                (List.filter (cardOfUser (db w) userId) (cards (db w)))) as Hdue'.
    { rewrite <- filter_andb. apply List.filter_ext. intros c. now rewrite HisDue. }
    rewrite Hdue'.
    split; [reflexivity|]. split.
    { apply count_filter_mono. intros c Hc. apply Z.leb_le in Hc.
      apply isDue_iff. pose proof (startOfLocalDay_spec clk (now clk)) as (_ & _ & Hs).
      unfold msPerDay in Hs. fold clk in Hc |- *. lia. }
    split; [reflexivity|]. split.
    { unfold reviewsOnLocalDay. apply count_filter_mono. intros r Hr.
      apply Z.eqb_eq in Hr. apply Z.leb_le.
      pose proof (startOfLocalDay_spec clk (CardReview.reviewedAt r)) as (_ & _ & Hs).
      unfold startOfLocalDay, localDay in *. rewrite <- Hr. lia. }
    intros Hpast. unfold reviewsOnLocalDay. f_equal. apply List.filter_ext_in.
    intros r Hr. specialize (Hpast r Hr).
    unfold localDay, startOfLocalDay in *.
    set (D := (now clk + tzOffset clk) / msPerDay) in *.
    pose proof (Z.div_mod (CardReview.reviewedAt r + tzOffset clk) msPerDay
                  ltac:(unfold msPerDay; lia)) as Hdm.
    pose proof (Z.mod_pos_bound (CardReview.reviewedAt r + tzOffset clk) msPerDay
                  ltac:(unfold msPerDay; lia)) as Hb.
    set (Dr := (CardReview.reviewedAt r + tzOffset clk) / msPerDay) in *.
    unfold msPerDay in *.
    destruct (Z.eqb_spec Dr D) as [E|E]; symmetry; [apply Z.leb_le|apply Z.leb_gt]; nia.
Qed.

End StudyCountsFacts.

Lemma getUserStats_of_both_services_witness :
  exists (study : StudyStats.t) (stats : UserStats.t Q),
    StudyService.getUserStats "u1" (sampleWorld []) = (Ok study, sampleWorld [])
    /\ getUserStats "u1" (sampleWorld []) = (Ok stats, sampleWorld [])
    /\ (UserStats.cardsDueToday stats <= StudyStats.dueToday study)%Z.
Proof.
  destruct (getUserStats_of_both_services (sampleWorld []) "u1" eq_refl)
    as (study & stats & H1 & H2 & _ & _ & _ & _ & H3 & _).
  exists study, stats. auto.
Defined.

(** ** study.service.ts: the statistics of a session *)

Section SessionStatsFacts.
Local Open Scope Q_scope.

Lemma sum_quality_bounds (l : list (CardReview.t Q)) (lo hi acc : Q) :
  Forall (fun r => lo <= CardReview.quality r <= hi) l ->
  acc + lo * inject_Z (count l)
  <= fold_left (fun sum r => num_add sum (CardReview.quality r)) l acc
  <= acc + hi * inject_Z (count l).
Proof.
  intros Hall. revert acc. induction Hall as [|r l Hr _ IH]; intros acc.
  - unfold count. cbn [length fold_left]. change (inject_Z (Z.of_nat 0)) with 0. lra.
  - cbn [fold_left]. specialize (IH (num_add acc (CardReview.quality r))).
    cbn [num_add exact] in *.
    assert (inject_Z (count (r :: l)) == inject_Z (count l) + 1) as E.
    { unfold count. cbn [length]. rewrite Nat2Z.inj_succ. unfold Z.succ.
      rewrite inject_Z_plus. reflexivity. }
    rewrite E. lra.
Qed.

Lemma averageQuality_bounds (session : StudySession.t) (l : list (CardReview.t Q))
    (lo hi : Z) :
  (0 < count l)%Z ->
  Forall (fun r => inject_Z lo <= CardReview.quality r <= inject_Z hi) l ->
  inject_Z lo <= SessionWithStats.averageQuality (StudyService.withStats session l)
  <= inject_Z hi.
Proof.
  intros Hn Hall. unfold StudyService.withStats.
  cbn [SessionWithStats.averageQuality].
  destruct (Z.gtb_spec (count l) 0) as [_|Hbad]; [|lia].
  pose proof (sum_quality_bounds l (inject_Z lo) (inject_Z hi) 0 Hall) as [Hlo Hhi].
  cbn [Math_round num_mul num_div num_add ofZ lit exact] in *.
  set (sum := fold_left _ l 0) in *.
  assert (0 < inject_Z (count l)) as Hpos
    by (change 0 with (inject_Z 0); rewrite <- Zlt_Qlt; exact Hn).
  assert (inject_Z lo <= sum / inject_Z (count l) <= inject_Z hi) as [Ha Hb].
  { split; [apply Qle_shift_div_l|apply Qle_shift_div_r]; try exact Hpos; lra. }
  assert (lo * 100 <= Qround_half_up (sum / inject_Z (count l) * 100) <= hi * 100)%Z
    as [Hr1 Hr2].
  { split.
    - apply round_half_up_ge. rewrite inject_Z_mult. change (inject_Z 100) with 100. lra.
    - rewrite <- (round_half_up_inject (hi * 100)). apply Qround_half_up_le.
      rewrite inject_Z_mult. change (inject_Z 100) with 100. lra. }
  rewrite Zle_Qle, inject_Z_mult in Hr1, Hr2. change (inject_Z 100) with 100 in *.
  split; lraQ.
Qed.

Lemma count_filter_all {A} (p : A -> bool) (l : list A) :
  count (List.filter p l) = count l -> Forall (fun x => p x = true) l.
Proof.
  unfold count. induction l as [|x l IH]; intros Hc; [constructor|].
  cbn [List.filter] in Hc. pose proof (List.filter_length_le p l) as Hle.
  destruct (p x) eqn:Hp; cbn [length] in Hc; [|lia].
  constructor; [exact Hp|apply IH; lia].
Qed.

Lemma count_filter_none {A} (p : A -> bool) (l : list A) :
  count (List.filter p l) = 0%Z -> Forall (fun x => p x = false) l.
Proof.
  unfold count. induction l as [|x l IH]; intros Hc; [constructor|].
  cbn [List.filter] in Hc.
  destruct (p x) eqn:Hp; cbn [length] in Hc; [lia|].
  constructor; [exact Hp|apply IH; lia].
Qed.

(** Property X18.

    [getSessionWithStats] answers [null] for a session that is not the
    user's.  For a session of the user, with qualities between 0 and 5 as
    the route admits them: the reviews counted are those filed under the
    session, the correct ones are among them, the average quality lies
    between 0 and 5 and is 0 for a session without reviews; it is at least
    3 when every review was correct, and at most 3 when none was. *)
Theorem getSessionWithStats_statistics (w : World Q) (userId sessionId : string) :
  faults w = [] ->
  (forall r, In r (cardReviews (db w)) -> 0 <= CardReview.quality r <= 5) ->
  match List.find (fun s => String.eqb (StudySession.id s) sessionId
                            && String.eqb (StudySession.userId s) userId)
                  (studySessions (db w)) with
  | None => StudyService.getSessionWithStats userId sessionId w = (Ok None, w)
  | Some session =>
      exists stats,
        StudyService.getSessionWithStats userId sessionId w = (Ok (Some stats), w)
        /\ SessionWithStats.session stats = session
        /\ SessionWithStats.reviewCount stats
           = count (StudyService.reviewsOf (db w) session)
        /\ (0 <= SessionWithStats.correctCount stats
            <= SessionWithStats.reviewCount stats)%Z
        /\ 0 <= SessionWithStats.averageQuality stats <= 5
        /\ (SessionWithStats.reviewCount stats = 0%Z ->
            SessionWithStats.averageQuality stats == 0)
        /\ ((0 < SessionWithStats.reviewCount stats)%Z ->
            SessionWithStats.correctCount stats = SessionWithStats.reviewCount stats ->
            3 <= SessionWithStats.averageQuality stats)
        /\ ((0 < SessionWithStats.reviewCount stats)%Z ->
            SessionWithStats.correctCount stats = 0%Z ->
            SessionWithStats.averageQuality stats <= 3)
  end.
Proof.
  intros Hf Hq. unfold StudyService.getSessionWithStats.
  erewrite bind_ok; [|apply prisma_read_ok; exact Hf].
  destruct (List.find _ (studySessions (db w))) as [session|]; [|reflexivity].
  cbn [option_map]. eexists. split; [reflexivity|].
  set (rs := StudyService.reviewsOf (db w) session).
  assert (Forall (fun r => inject_Z 0 <= CardReview.quality r <= inject_Z 5) rs) as Hall.
  { apply Forall_forall. intros r Hr. apply list_elem_of_In in Hr.
    subst rs. unfold StudyService.reviewsOf in Hr. apply filter_In in Hr as [Hr _].
    exact (Hq r Hr). }
  split; [reflexivity|]. split; [reflexivity|].
  split; [apply count_filter_bounds|].
  split; [|split; [|split]].
  - destruct (Z_lt_le_dec 0 (count rs)) as [Hn|Hn].
    + exact (averageQuality_bounds session rs 0 5 Hn Hall).
    + unfold StudyService.withStats. cbn [SessionWithStats.averageQuality].
      destruct (Z.gtb_spec (count rs) 0) as [Hbad|_]; [lia|].
      split; vm_compute; discriminate.
  - cbn [StudyService.withStats SessionWithStats.reviewCount]. intros H0.
    unfold StudyService.withStats. cbn [SessionWithStats.averageQuality].
    rewrite H0. reflexivity.
  - cbn [StudyService.withStats SessionWithStats.reviewCount SessionWithStats.correctCount].
    intros Hn Hc. apply count_filter_all in Hc.
    apply (averageQuality_bounds session rs 3 5 Hn).
    rewrite Forall_forall in Hall, Hc |- *. intros r Hr.
    specialize (Hall r Hr). specialize (Hc r Hr). cbn in Hc.
    apply Qle_bool_iff in Hc. split; [exact Hc|apply Hall].
  - cbn [StudyService.withStats SessionWithStats.reviewCount SessionWithStats.correctCount].
    intros Hn Hc. apply count_filter_none in Hc.
    apply (averageQuality_bounds session rs 0 3 Hn).
    rewrite Forall_forall in Hall, Hc |- *. intros r Hr.
    specialize (Hall r Hr). specialize (Hc r Hr). cbn in Hc.
    split; [apply Hall|].
    destruct (Qlt_le_dec (inject_Z 3) (CardReview.quality r)) as [Hlt|Hle]; [|exact Hle].
    apply Qlt_le_weak, Qle_bool_iff in Hlt.
    change (inject_Z 3) with 3 in Hlt. rewrite Hlt in Hc. discriminate.
Qed.

End SessionStatsFacts.

Lemma getSessionWithStats_statistics_witness :
  exists stats,
    StudyService.getSessionWithStats "u1" "s1" (reviewsWorld [5; 4; 2]%Q)
    = (Ok (Some stats), reviewsWorld [5; 4; 2]%Q)
    /\ SessionWithStats.reviewCount stats = 3%Z
    /\ (0 <= SessionWithStats.averageQuality stats <= 5)%Q.
Proof.
  destruct (getSessionWithStats_statistics (reviewsWorld [5; 4; 2]%Q) "u1" "s1" eq_refl)
    as (stats & Hrun & _ & Hcount & _ & Havg & _).
  - intros r [<-|[<-|[<-|[]]]]; split; vm_compute; discriminate.
  - exists stats. split; [exact Hrun|]. split; [exact Hcount|exact Havg].
Defined.

(** ** study.service.ts: the recent sessions *)

Section RecentSessionsFacts.
Context {num : Type} `{!JsNumber num}.
Local Open Scope Z_scope.

#[local] Existing Instance keyLe_trans.
#[local] Existing Instance keyLe_total.

(** Property X19.

    [getRecentSessions] returns sessions of the user only, at most [limit]
    of them and all of them when there are no more, the latest started
    first, each with the statistics of its own reviews; no session that is
    left out was started later than one that is returned. *)
Theorem getRecentSessions_latest_first (w : World num) (userId : string) (limit : Z) :
  faults w = [] ->
  0 <= limit ->
  let mine := List.filter (fun s => String.eqb (StudySession.userId s) userId)
                          (studySessions (db w)) in
  exists (result : list (SessionWithStats.t num)) (rest : list StudySession.t),
    StudyService.getRecentSessions userId limit w = (Ok result, w)
    /\ Z.of_nat (length result) = Z.min limit (count mine)
    /\ mine ≡ₚ map SessionWithStats.session result ++ rest
    /\ StronglySorted
         (fun a b => StudySession.startedAt (SessionWithStats.session b)
                     <= StudySession.startedAt (SessionWithStats.session a)) result
    /\ (forall e s, In e result -> In s rest ->
                    StudySession.startedAt s
                    <= StudySession.startedAt (SessionWithStats.session e))
    /\ (forall e, In e result ->
                  StudySession.userId (SessionWithStats.session e) = userId
                  /\ e = StudyService.withStats (SessionWithStats.session e)
                           (StudyService.reviewsOf (db w) (SessionWithStats.session e))).
Proof.
  intros Hf Hlimit mine.
  unfold StudyService.getRecentSessions.
  erewrite bind_ok; [|apply prisma_read_ok; exact Hf].
  fold mine. set (sorted := reverse (orderByAsc StudySession.startedAt mine)).
  assert (sorted ≡ₚ mine) as Hperm.
  { subst sorted. rewrite reverse_Permutation. apply merge_sort_Permutation. }
  assert (StronglySorted (fun a b => StudySession.startedAt b <= StudySession.startedAt a)
                         sorted) as Hsorted.
  { apply (StronglySorted_reverse (keyLe StudySession.startedAt)).
    apply (StronglySorted_merge_sort (keyLe StudySession.startedAt)). }
  set (n := Z.to_nat limit).
  rewrite <- (take_drop n sorted) in Hperm, Hsorted.
  apply StronglySorted_app in Hsorted as (Hcross & Htake & _).
  set (f := fun s => StudyService.withStats (num := num) s (StudyService.reviewsOf (db w) s)).
  assert (map (fun '(session, reviews) => StudyService.withStats session reviews)
              (map (fun s => (s, StudyService.reviewsOf (db w) s)) (takeRows limit sorted))
          = map f (take n sorted)) as E.
  { rewrite takeRows_nonneg by assumption. fold n. rewrite map_map. reflexivity. }
  exists (map f (take n sorted)), (drop n sorted).
  split; [exact (f_equal (fun x => (Ok x, w)) E)|].
  assert (map SessionWithStats.session (map f (take n sorted)) = take n sorted) as Hsess.
  { rewrite map_map. cbn. apply map_id. }
  split; [|split; [|split; [|split]]].
  - rewrite length_map, length_take. unfold count.
    rewrite <- (Permutation_length Hperm), length_app, length_take, length_drop.
    subst n. lia.
  - rewrite Hsess. symmetry. exact Hperm.
  - apply (StronglySorted_fmap f
             (fun a b => StudySession.startedAt b <= StudySession.startedAt a));
      [|exact Htake].
    intros a b Hab. exact Hab.
  - intros e s He Hs. apply in_map_iff in He as (s0 & <- & Hs0). cbn.
    apply Hcross; now apply list_elem_of_In.
  - intros e He. apply in_map_iff in He as (s0 & <- & Hs0). cbn. split; [|reflexivity].
    assert (In s0 mine) as Hin.
    { apply list_elem_of_In. rewrite <- Hperm. apply elem_of_app. left.
      now apply list_elem_of_In. }
    subst mine. apply filter_In in Hin as [_ Hu]. now apply String.eqb_eq in Hu.
Qed.

End RecentSessionsFacts.

Lemma getRecentSessions_latest_first_witness :
  exists (result : list (SessionWithStats.t Q)),
    StudyService.getRecentSessions "u2" 1 twoUsersWorld = (Ok result, twoUsersWorld)
    /\ Z.of_nat (length result) = 1%Z.
Proof.
  destruct (getRecentSessions_latest_first twoUsersWorld "u2" 1 eq_refl)
    as (result & rest & Hrun & Hlen & _).
  - lia.
  - exists result. split; [exact Hrun|exact Hlen].
Defined.

(** ** shuffleArray: what it uses and what it leaves *)

Section ShuffleWorldFacts.

Lemma shuffleFrom_world {T} (i : nat) (shuffled : list (option T)) (w : World Q) :
  snd (shuffleFrom i shuffled w)
  = {| db := db w; clock := clock w; random := random w;
       drawn := drawn w + i; faults := faults w |}.
Proof.
  revert shuffled w. induction i as [|i IH]; intros shuffled w.
  - cbn. rewrite Nat.add_0_r. destruct w; reflexivity.
  - cbn [shuffleFrom]. unfold bind at 1. cbn [Math_random].
    rewrite IH. cbn [db clock random drawn faults]. f_equal. lia.
Qed.

(** Property X20.

    For any kind of element, and numbers from [Math.random()] that lie in
    [0, 1): [shuffleArray] returns the elements of the array in some order,
    each as often as it occurs and none of them [undefined]; it draws one
    random number less than there are elements (none for an empty array or
    a single element), and touches neither the store nor the clock. *)
Theorem shuffleArray_draws_and_permutes {T} (array : list T) (w : World Q) :
  (forall k, 0 <= random w k < 1)%Q ->
  exists result : list T,
    shuffleArray array w
    = (Ok (Some <$> result),
       {| db := db w; clock := clock w; random := random w;
          drawn := drawn w + (length array - 1); faults := faults w |})
    /\ result ≡ₚ array
    /\ length result = length array
    /\ (length array <= 1 -> result = array)%nat.
Proof.
  intros Hr.
  destruct (shuffleArray_permutation array w Hr) as (result & w' & Hrun & Hperm & _).
  exists result.
  assert (w' = snd (shuffleArray array w)) as -> by now rewrite Hrun.
  unfold shuffleArray in Hrun |- *. rewrite shuffleFrom_world in Hrun.
  split; [exact Hrun|]. split; [exact Hperm|].
  split; [now apply Permutation_length|].
  intros Hlen. destruct array as [|x [|y array]]; cbn in Hlen; try lia.
  - now apply Permutation_nil_r in Hperm.
  - now apply Permutation_singleton_r in Hperm.
Qed.

End ShuffleWorldFacts.

Lemma shuffleArray_draws_and_permutes_witness :
  exists result : list Z,
    shuffleArray [1; 2; 3; 4]%Z (sampleWorld [])
    = (Ok (Some <$> result),
       {| db := db (sampleWorld []); clock := clock (sampleWorld []);
          random := random (sampleWorld []); drawn := 3; faults := [] |})
    /\ result ≡ₚ [1; 2; 3; 4]%Z.
Proof.
  destruct (shuffleArray_draws_and_permutes [1; 2; 3; 4]%Z (sampleWorld []))
    as (result & Hrun & Hperm & _).
  - intros k. split; [unfold Qle|unfold Qlt]; simpl; lia.
  - exists result. split; [exact Hrun|exact Hperm].
Defined.

(** ** getDueCards: quotas and repetitions *)

Section DueQuotaFacts.
Local Open Scope Z_scope.

#[local] Existing Instance keyLe_trans.
#[local] Existing Instance keyLe_total.

(** What [getDueCards] returns, as the code computes it *)
Lemma getDueCards_run (w : World Q) (rank : string -> nat) (fuel : nat)
    (userId deckId : string) (limit : Z) (includeSubDecks : bool) (deck : Deck.t) :
  faults w = [] ->
  (forall k, 0 <= random w k < 1)%Q ->
  (includeSubDecks = true ->
   (forall d p, In d (decks (db w)) -> Deck.parentId d = Some p ->
                (rank (Deck.id d) < rank p)%nat)
   /\ (rank deckId < fuel)%nat) ->
  List.find (ownedDeck userId deckId) (decks (db w)) = Some deck ->
  let endOfToday := setHours (clock w) (now (clock w)) 23 59 59 999 in
  exists (deckIds : list string) (result : list (Card.t Q)),
    let newPool := List.filter (isNewCard deckIds) (cards (db w)) in
    let duePool := List.filter (isDueCard deckIds endOfToday) (cards (db w)) in
    let newCards := takeRows (limit / 3) (orderByAsc Card.createdAt newPool) in
    let dueCards := takeRows (limit - count newCards)
                             (orderByAsc Card.nextReviewAt duePool) in
    getDueCards fuel userId deckId limit includeSubDecks w
    = (Ok (Some <$> result),
       {| db := db w; clock := clock w; random := random w;
          drawn := drawn w + (length (newCards ++ dueCards) - 1); faults := faults w |})
    /\ result ≡ₚ newCards ++ dueCards.
Proof.
  intros Hf Hr Htree Hfind endOfToday.
  assert (exists deckIds,
            (if includeSubDecks
             then (sub <- getSubDeckIds fuel deckId ;; ret (sub ++ [deckId]))
             else ret [deckId]) w = (Ok deckIds, w)) as (deckIds & HdeckIds).
  { destruct includeSubDecks.
    - destruct (Htree eq_refl) as [Hrank Hfuel].
      destruct (getSubDeckIds_run w rank Hf Hrank fuel deckId Hfuel) as (sub & Hrun & _).
      exists (sub ++ [deckId]). erewrite bind_ok by exact Hrun. reflexivity.
    - exists [deckId]. reflexivity. }
  exists deckIds.
  set (newPool := List.filter (isNewCard deckIds) (cards (db w))).
  set (duePool := List.filter (isDueCard deckIds endOfToday) (cards (db w))).
  set (newCards := takeRows (limit / 3) (orderByAsc Card.createdAt newPool)).
  set (dueCards := takeRows (limit - count newCards)
                            (orderByAsc Card.nextReviewAt duePool)).
  destruct (shuffleArray_permutation (newCards ++ dueCards) w Hr)
    as (result & w' & Hshuffle & Hperm & _).
  exists result. cbv zeta. split; [|exact Hperm].
  unfold getDueCards.
  erewrite bind_ok; [|unfold deck_findFirst; apply prisma_read_ok; exact Hf].
  change (List.find _ (decks (db w))) with (List.find (ownedDeck userId deckId) (decks (db w))).
  rewrite Hfind.
  erewrite bind_ok by exact HdeckIds.
  rewrite (bind_ok _ _ w w (clock w)) by reflexivity.
  erewrite bind_ok; [|unfold card_findMany; apply prisma_read_ok; exact Hf].
  erewrite bind_ok; [|unfold card_findMany; apply prisma_read_ok; exact Hf].
  fold endOfToday newPool newCards duePool dueCards.
  assert (w' = snd (shuffleArray (newCards ++ dueCards) w)) as -> by now rewrite Hshuffle.
  unfold shuffleArray in Hshuffle |- *. rewrite shuffleFrom_world in Hshuffle.
  exact Hshuffle.
Qed.

Lemma length_takeRows {A} (n : Z) (l : list A) :
  0 <= n -> count (takeRows n l) = Z.min n (count l).
Proof.
  intros Hn. rewrite takeRows_nonneg by exact Hn. unfold count. rewrite length_take. lia.
Qed.

Lemma count_orderByAsc {A} (key : A -> Z) (l : list A) : count (orderByAsc key l) = count l.
Proof.
  unfold count, orderByAsc. now rewrite (Permutation_length (merge_sort_Permutation _ l)).
Qed.

Lemma NoDup_takeRows_orderByAsc {A} (key : A -> Z) (n : Z) (l : list A) :
  NoDup l -> NoDup (takeRows n (orderByAsc key l)).
Proof.
  intros Hl.
  apply (sublist_NoDup _ (orderByAsc key l)); [|apply takeRows_sublist].
  unfold orderByAsc. now rewrite merge_sort_Permutation.
Qed.

Lemma In_takeRows_orderByAsc {A} (key : A -> Z) (n : Z) (l : list A) (x : A) :
  In x (takeRows n (orderByAsc key l)) -> In x l.
Proof.
  intros Hx. apply list_elem_of_In in Hx. apply list_elem_of_In.
  pose proof (elem_of_sublist _ _ _ Hx (takeRows_sublist n _)) as Hin.
  unfold orderByAsc in Hin. now rewrite merge_sort_Permutation in Hin.
Qed.

(** Property X21.

    How many cards [getDueCards] returns, and which: the new cards fill at
    most a third of the limit, the due cards what is then left of it, and
    the share that the due cards leave unused is not given to new cards.
    So with a limit below 3 no new card is ever returned, and a deck that
    has only new cards yields at most a third of the limit.  Every card
    returned is one of the new cards (0 repetitions) or of the cards due
    by the end of today (more than 0), and when the rows of the card table
    are distinct, no card is returned twice. *)
Theorem getDueCards_quotas (w : World Q) (rank : string -> nat) (fuel : nat)
    (userId deckId : string) (limit : Z) (includeSubDecks : bool) (deck : Deck.t) :
  faults w = [] ->
  (forall k, 0 <= random w k < 1)%Q ->
  (includeSubDecks = true ->
   (forall d p, In d (decks (db w)) -> Deck.parentId d = Some p ->
                (rank (Deck.id d) < rank p)%nat)
   /\ (rank deckId < fuel)%nat) ->
  List.find (ownedDeck userId deckId) (decks (db w)) = Some deck ->
  0 <= limit ->
  let endOfToday := setHours (clock w) (now (clock w)) 23 59 59 999 in
  exists (deckIds : list string) (result : list (Card.t Q)) (w' : World Q),
    let newPool := List.filter (isNewCard deckIds) (cards (db w)) in
    let duePool := List.filter (isDueCard deckIds endOfToday) (cards (db w)) in
    let new := Z.min (limit / 3) (count newPool) in
    let returnedNew := List.filter (fun c => Qeq_bool (Card.repetitions c) 0) result in
    getDueCards fuel userId deckId limit includeSubDecks w = (Ok (Some <$> result), w')
    /\ count returnedNew = new
    /\ count result = new + Z.min (limit - new) (count duePool)
    /\ (limit < 3 -> forall c, In c result -> (0 < Card.repetitions c)%Q)
    /\ (duePool = [] -> count result = Z.min (limit / 3) (count newPool))
    /\ (NoDup (cards (db w)) -> NoDup result)
    /\ (limit = 0 -> result = [] /\ w' = w)
    /\ (forall c, In c result -> In c newPool \/ In c duePool).
Proof.
  intros Hf Hr Htree Hfind Hlimit endOfToday.
  destruct (getDueCards_run w rank fuel userId deckId limit includeSubDecks deck
              Hf Hr Htree Hfind) as (deckIds & result & Hrun & Hperm).
  cbv zeta in Hrun, Hperm. fold endOfToday in Hrun, Hperm.
  set (newPool := List.filter (isNewCard deckIds) (cards (db w))) in *.
  set (duePool := List.filter (isDueCard deckIds endOfToday) (cards (db w))) in *.
  set (newCards := takeRows (limit / 3) (orderByAsc Card.createdAt newPool)) in *.
  set (dueCards := takeRows (limit - count newCards)
                            (orderByAsc Card.nextReviewAt duePool)) in *.
  assert (0 <= limit / 3) as H3 by (apply Z.div_pos; lia).
  assert (limit / 3 <= limit) as Hthird by (Z.div_mod_to_equations; lia).
  assert (count newCards = Z.min (limit / 3) (count newPool)) as Hnew.
  { subst newCards. rewrite length_takeRows by lia. now rewrite count_orderByAsc. }
  assert (count dueCards = Z.min (limit - count newCards) (count duePool)) as Hdue.
  { subst dueCards. rewrite length_takeRows by lia. now rewrite count_orderByAsc. }
  assert (forall c, In c newCards -> Qeq_bool (Card.repetitions c) 0 = true) as HnewRep.
  { intros c Hc. apply In_takeRows_orderByAsc in Hc. subst newPool.
    apply filter_In in Hc as [_ Hc]. unfold isNewCard in Hc.
    apply andb_prop in Hc as [_ Hc]. exact Hc. }
  assert (forall c, In c dueCards -> (0 < Card.repetitions c)%Q) as HdueRep.
  { intros c Hc. apply In_takeRows_orderByAsc in Hc. subst duePool.
    apply filter_In in Hc as [_ Hc]. now apply isDueCard_spec in Hc. }
  assert (forall c, In c dueCards -> Qeq_bool (Card.repetitions c) 0 = false) as HdueRep'.
  { intros c Hc. specialize (HdueRep c Hc).
    destruct (Qeq_bool _ _) eqn:E; [|reflexivity].
    apply Qeq_bool_iff in E. lra. }
  eexists deckIds, result, _. cbv zeta. fold endOfToday newPool duePool.
  split; [exact Hrun|].
  assert (count result = count newCards + count dueCards) as Hres.
  { unfold count. rewrite (Permutation_length Hperm), length_app. lia. }
  split; [|split; [|split; [|split; [|split; [|split]]]]].
  - rewrite <- Hnew. unfold count. f_equal.
    assert (forall l l' : list (Card.t Q), l ≡ₚ l' ->
              length (List.filter (fun c => Qeq_bool (Card.repetitions c) 0) l)
              = length (List.filter (fun c => Qeq_bool (Card.repetitions c) 0) l')) as Hpl.
    { intros l l' Hp. induction Hp as [|x l l' _ IH|x y l|l l' l'' _ IH1 _ IH2].
      - reflexivity.
      - cbn [List.filter]. destruct (Qeq_bool _ _); cbn [length]; lia.
      - cbn [List.filter]. do 2 destruct (Qeq_bool _ _); reflexivity.
      - lia. }
    rewrite (Hpl _ _ Hperm), List.filter_app, length_app.
    assert (List.filter (fun c => Qeq_bool (Card.repetitions c) 0) newCards = newCards) as ->.
    { apply forallb_filter_id. apply forallb_forall. exact HnewRep. }
    assert (List.filter (fun c => Qeq_bool (Card.repetitions c) 0) dueCards = []) as ->.
    { generalize HdueRep'. generalize dueCards. intros l Hl.
      induction l as [|x l IH]; [reflexivity|].
      cbn [List.filter]. rewrite (Hl x) by now left. apply IH. intros; apply Hl; now right. }
    cbn [length]. lia.
  - rewrite Hres, Hdue, Hnew. reflexivity.
  - intros Hsmall c Hc.
    assert (limit / 3 = 0) as H0 by (Z.div_mod_to_equations; lia).
    assert (newCards = []) as Hnil.
    { subst newCards. rewrite H0. reflexivity. }
    apply list_elem_of_In in Hc. rewrite Hperm, Hnil in Hc. cbn [app] in Hc.
    apply HdueRep. now apply list_elem_of_In.
  - intros Hnodue. rewrite Hres, Hdue, Hnew, Hnodue.
    change (count []) with 0. lia.
  - intros Hnd. rewrite Hperm. apply NoDup_app. split; [|split].
    + apply NoDup_takeRows_orderByAsc. subst newPool.
      apply NoDup_ListNoDup, List.NoDup_filter, NoDup_ListNoDup, Hnd.
    + intros c Hc1 Hc2. apply list_elem_of_In in Hc1, Hc2.
      pose proof (HnewRep c Hc1). pose proof (HdueRep' c Hc2). congruence.
    + apply NoDup_takeRows_orderByAsc. subst duePool.
      apply NoDup_ListNoDup, List.NoDup_filter, NoDup_ListNoDup, Hnd.
  - intros H0.
    assert (newCards = [] /\ dueCards = []) as [Hn Hd].
    { split.
      - subst newCards. rewrite H0. reflexivity.
      - assert (count dueCards = 0) as Hz.
        { rewrite Hdue, Hnew, H0. change (0 / 3) with 0. unfold count. lia. }
        unfold count in Hz. apply length_zero_iff_nil. lia. }
    rewrite Hn, Hd in *. cbn [app length] in *.
    split; [now apply Permutation_nil_r in Hperm|].
    rewrite Nat.add_0_r. destruct w; reflexivity.
  - intros c Hc. apply list_elem_of_In in Hc. rewrite Hperm in Hc.
    apply list_elem_of_In, in_app_or in Hc as [Hc|Hc];
      apply In_takeRows_orderByAsc in Hc; [now left|now right].
Qed.

Lemma getDueCards_quotas_witness :
  exists (result : list (Card.t Q)) (w' : World Q),
    getDueCards 4 "u1" "d1" 2 true (sampleWorld []) = (Ok (Some <$> result), w')
    /\ forall c, In c result -> (0 < Card.repetitions c)%Q.
Proof.
  destruct (getDueCards_quotas (sampleWorld []) sampleRank 4 "u1" "d1" 2 true
              (Deck.Build "d1" "u1" None))
    as (deckIds & result & w' & Hrun & _ & _ & Hsmall & _).
  - reflexivity.
  - intros k. split; [unfold Qle|unfold Qlt]; simpl; lia.
  - intros _. split; [|vm_compute; lia].
    intros d p [<-|[<-|[<-|[<-|[]]]]] [= <-]; vm_compute; lia.
  - reflexivity.
  - lia.
  - exists result, w'. split; [exact Hrun|]. apply Hsmall. lia.
Defined.

End DueQuotaFacts.

(** ** getNextReviewDescription *)

Section DescriptionFacts.
Local Open Scope Z_scope.

Lemma ceilDiv_spec (a b : Z) :
  0 < b -> (ceilDiv a b - 1) * b < a <= ceilDiv a b * b.
Proof.
  intros Hb. unfold ceilDiv.
  pose proof (Z.div_mod (- a) b ltac:(lia)). pose proof (Z.mod_pos_bound (- a) b Hb).
  nia.
Qed.

Lemma roundDiv_bounds (a b lo hi : Z) :
  0 < b -> lo * b <= a -> 2 * a < (2 * hi + 1) * b -> lo <= roundDiv a b <= hi.
Proof.
  intros Hb Hlo Hhi. unfold roundDiv.
  assert (0 < inject_Z b)%Q as Hb' by (change 0%Q with (inject_Z 0); now rewrite <- Zlt_Qlt).
  split.
  - apply round_half_up_ge. apply Qle_shift_div_l; [exact Hb'|].
    rewrite <- inject_Z_mult, <- Zle_Qle. exact Hlo.
  - pose proof (round_half_up_upper (inject_Z a / inject_Z b)) as Hup.
    assert (inject_Z a / inject_Z b + (1 # 2) < inject_Z (hi + 1))%Q as Hlt.
    { assert (inject_Z a / inject_Z b < inject_Z (2 * hi + 1) / 2)%Q as H1.
      { apply Qlt_shift_div_r; [exact Hb'|].
        assert (inject_Z (2 * a) < inject_Z ((2 * hi + 1) * b))%Q as H2
          by (rewrite <- Zlt_Qlt; exact Hhi).
        rewrite !inject_Z_mult in H2. change (inject_Z 2) with 2%Q in H2.
        assert (inject_Z (2 * hi + 1) / 2 * inject_Z b
                == inject_Z (2 * hi + 1) * inject_Z b / 2)%Q as E by field.
        rewrite E. set (P := (inject_Z (2 * hi + 1) * inject_Z b)%Q) in *. lraQ. }
      rewrite inject_Z_plus, inject_Z_mult in H1.
      rewrite inject_Z_plus.
      change (inject_Z 2) with 2%Q in H1. change (inject_Z 1) with 1%Q in *. lraQ. }
    assert (inject_Z (Qround_half_up (inject_Z a / inject_Z b)) < inject_Z (hi + 1))%Q as H
      by lra.
    rewrite <- Zlt_Qlt in H. lia.
Qed.

(** Property X22.

    The description of the next review, by how far ahead it lies: "Due
    now" when it is not ahead at all, "Tomorrow" when it is up to 24 hours
    ahead (even when that is later on the same day, so a card that [isDue]
    accepts today can read "Tomorrow"); beyond that a count of days (2 to
    6), weeks (1 to 4), months (1 to 12) or years (1 or more), which is
    never 0 and takes the plural exactly when the count is above 1. *)
Theorem getNextReviewDescription_cases (clk : Clock) (nextReviewAt : Z) :
  let description := getNextReviewDescription clk nextReviewAt in
  let ahead := nextReviewAt - now clk in
  let days := ceilDiv ahead msPerDay in
  (description = "Due now"%string <-> ahead <= 0)
  /\ (description = "Tomorrow"%string <-> 0 < ahead <= msPerDay)
  /\ (isDue clk nextReviewAt = true ->
      description = "Due now"%string \/ description = "Tomorrow"%string)
  /\ (now clk < nextReviewAt <= setHours clk (now clk) 23 59 59 999 ->
      isDue clk nextReviewAt = true /\ description = "Tomorrow"%string)
  /\ (msPerDay < ahead ->
      exists (n : Z) (unit : string),
        description
        = ("In " ++ numberToString n ++ " " ++ unit ++ plural n)%string
        /\ (unit = "day"%string /\ n = days /\ 2 <= n <= 6
            \/ unit = "week"%string /\ n = roundDiv days 7 /\ 7 <= days < 30 /\ 1 <= n <= 4
            \/ unit = "month"%string /\ n = roundDiv days 30 /\ 30 <= days < 365
               /\ 1 <= n <= 12
            \/ unit = "year"%string /\ n = roundDiv days 365 /\ 365 <= days /\ 1 <= n)).
Proof.
  intros description ahead days.
  pose proof (ceilDiv_spec ahead msPerDay ltac:(unfold msPerDay; lia)) as Hdays.
  fold days in Hdays.
  assert (description
          = if days <=? 0 then "Due now"%string
            else if days =? 1 then "Tomorrow"%string
            else if days <? 7
                 then ("In " ++ numberToString days ++ " days")%string
            else if days <? 30
                 then ("In " ++ numberToString (roundDiv days 7) ++ " week"
                       ++ plural (roundDiv days 7))%string
            else if days <? 365
                 then ("In " ++ numberToString (roundDiv days 30) ++ " month"
                       ++ plural (roundDiv days 30))%string
            else ("In " ++ numberToString (roundDiv days 365) ++ " year"
                  ++ plural (roundDiv days 365))%string) as Hdesc by reflexivity.
  clearbody description. unfold msPerDay in *.
  assert (isDue clk nextReviewAt = true -> ahead < 86400000) as HisDue.
  { intros Hdue. apply isDue_iff in Hdue.
    pose proof (startOfLocalDay_spec clk (now clk)) as (_ & _ & Hs).
    unfold msPerDay in Hs. subst ahead. lia. }
  destruct (Z.leb_spec days 0) as [H0|H0].
  { subst description. split; [split; [intros _; nia|reflexivity]|].
    split; [split; [discriminate|intros; nia]|].
    split; [intros _; now left|]. split; [intros [? _]; subst ahead; nia|intros; nia]. }
  destruct (Z.eqb_spec days 1) as [H1|H1].
  { subst description. split; [split; [discriminate|intros; nia]|].
    split; [split; [intros _; nia|reflexivity]|].
    split; [intros _; now right|].
    split; [intros [_ H]; split; [apply isDue_iff; rewrite <- setHours_end_of_day; exact H
                                 |reflexivity]|intros; nia]. }
  assert (86400000 < ahead) as Hfar by nia.
  split.
  { split; [|intros; lia]. subst description.
    destruct (days <? 7); [discriminate|]. destruct (days <? 30); [discriminate|].
    destruct (days <? 365); discriminate. }
  split.
  { split; [|intros; lia]. subst description.
    destruct (days <? 7); [discriminate|]. destruct (days <? 30); [discriminate|].
    destruct (days <? 365); discriminate. }
  split; [intros Hdue; specialize (HisDue Hdue); lia|].
  split.
  { intros [_ H]. assert (isDue clk nextReviewAt = true) as Hdue
      by (apply isDue_iff; rewrite <- setHours_end_of_day; exact H).
    specialize (HisDue Hdue). lia. }
  intros _. subst description.
  destruct (Z.ltb_spec days 7) as [H7|H7].
  { exists days, "day"%string. split.
    - unfold plural. destruct (Z.gtb_spec days 1) as [_|?]; [reflexivity|lia].
    - left. repeat split; lia. }
  destruct (Z.ltb_spec days 30) as [H30|H30].
  { exists (roundDiv days 7), "week"%string. split; [reflexivity|].
    right; left. pose proof (roundDiv_bounds days 7 1 4 ltac:(lia) ltac:(lia) ltac:(lia)).
    repeat split; lia. }
  destruct (Z.ltb_spec days 365) as [H365|H365].
  { exists (roundDiv days 30), "month"%string. split; [reflexivity|].
    right; right; left.
    pose proof (roundDiv_bounds days 30 1 12 ltac:(lia) ltac:(lia) ltac:(lia)).
    repeat split; lia. }
  exists (roundDiv days 365), "year"%string. split; [reflexivity|].
  right; right; right.
  pose proof (roundDiv_bounds days 365 1 (days + 1) ltac:(lia) ltac:(lia) ltac:(lia)).
  repeat split; lia.
Qed.

End DescriptionFacts.

(** ** createCards *)

Section CreateCardsFacts.

Lemma validCards_hasDeck (d : DB Q) (userId : string) (cards : list CreateCardInput) :
  let deckIds := remove_dups (map card_deckId cards) in
  let found := List.filter (fun dk => existsb (String.eqb (Deck.id dk)) deckIds
                                      && String.eqb (Deck.userId dk) userId) (decks d) in
  List.filter (fun c => existsb (String.eqb (card_deckId c)) (map Deck.id found)) cards
  = List.filter (fun c => hasDeck d userId (card_deckId c)) cards.
Proof.
  intros deckIds found. apply List.filter_ext_in. intros c Hc.
  apply Bool.eq_iff_eq_true. unfold hasDeck. rewrite !existsb_exists. split.
  - intros (x & Hx & E). apply String.eqb_eq in E. subst x.
    apply in_map_iff in Hx as (dk & Hid & Hdk). subst found.
    apply filter_In in Hdk as [Hin Hdk]. apply andb_prop in Hdk as [_ Hu].
    exists dk. split; [exact Hin|]. rewrite Hid, String.eqb_refl. exact Hu.
  - intros (dk & Hin & Hdk). apply andb_prop in Hdk as [Hid Hu].
    apply String.eqb_eq in Hid.
    exists (Deck.id dk). split; [|rewrite Hid; apply String.eqb_refl].
    apply in_map. subst found. apply filter_In. split; [exact Hin|].
    rewrite Hu, andb_true_r. apply existsb_exists.
    exists (card_deckId c). split; [|rewrite Hid; apply String.eqb_refl].
    subst deckIds. apply list_elem_of_In, elem_of_remove_dups, list_elem_of_In.
    now apply in_map.
Qed.

Lemma imap_newCardRow (generated : nat -> Generated) (clk : Clock)
    (valid : list CreateCardInput) (k : nat) :
  let rows := imap (fun i row => newCardRow (generated (k + i)) row)
                (map (fun card => (card_deckId card, DEFAULT_EASE_FACTOR, lit 0, lit 0,
                                   now clk)) valid) in
  map Card.deckId rows = map card_deckId valid
  /\ map Card.id rows = map (fun i => gen_id (generated i)) (seq k (length valid))
  /\ length rows = length valid
  /\ forall row : Card.t Q, In row rows ->
       Card.repetitions row = 0%Q /\ Card.interval row = 0%Q
       /\ Card.easeFactor row = 2.5%Q /\ Card.nextReviewAt row = now clk.
Proof.
  revert k. induction valid as [|c valid IH]; intros k rows; subst rows.
  - split; [reflexivity|]. split; [reflexivity|]. split; [reflexivity|]. intros r [].
  - cbn [map imap newCardRow length seq]. rewrite Nat.add_0_r.
    assert (forall l : list (string * Q * Q * Q * Z),
              imap ((fun i row => newCardRow (generated (k + i)) row) ∘ S) l
              = imap (fun i row => newCardRow (generated (S k + i)) row) l) as E.
    { intros l. apply imap_ext. intros i x _. cbn. f_equal. f_equal. lia. }
    rewrite E. destruct (IH (S k)) as (H1 & H2 & H3 & H4). cbv zeta in *.
    cbn [Card.deckId Card.id]. rewrite H1, H2, H3.
    split; [reflexivity|]. split; [reflexivity|]. split; [reflexivity|].
    intros r [<-|Hr]; [repeat split|apply H4, Hr].
Qed.

(** Property X23.

    [createCards] creates the cards addressed to decks of the user and
    silently leaves out the others; it fails with "No valid decks found"
    when none is left.  Otherwise, the store giving the new rows
    identifiers that are distinct and not in use, it succeeds: it appends
    one card for each of these inputs, in their order, and returns their
    number.  Each new card is in the scheduling state of a new card (ease
    factor 2.5, interval 0, no repetition), so that its first review starts
    from that state, and it is due at once.  Nothing else in the store
    changes, a failure changes nothing at all, and the cards keep
    scheduling states as the code produces them. *)
Theorem createCards_adds_new_cards (w : World Q) (generated : nat -> Generated)
    (userId : string) (inputs : list CreateCardInput) :
  faults w = [] ->
  let valid := List.filter (fun c => hasDeck (db w) userId (card_deckId c)) inputs in
  let newIds := map (fun k => gen_id (generated k)) (seq 0 (length valid)) in
  let res := createCards generated userId inputs w in
  (valid = [] -> res = (Throw (JsError "No valid decks found"), w))
  /\ (valid <> [] -> distinctIds newIds = true ->
      (forall c, In c (cards (db w)) -> ~ In (Card.id c) newIds) ->
      exists rows : list (Card.t Q),
        res = (Ok (count valid),
               setStore w {| decks := decks (db w);
                             cards := cards (db w) ++ rows;
                             cardReviews := cardReviews (db w);
                             studySessions := studySessions (db w) |} [])
        /\ map Card.deckId rows = map card_deckId valid
        /\ map Card.id rows = newIds
        /\ forall row, In row rows ->
             Card.nextReviewAt row = now (clock w)
             /\ isDue (clock w) (Card.nextReviewAt row) = true
             /\ schedulingOk row
             /\ forall input : ReviewCardInput Q,
                  sm2InputOf input row = freshState (input_quality input))
  /\ (forall n, fst res = Ok n ->
        n = count valid
        /\ exists rows : list (Card.t Q),
             cards (db (snd res)) = cards (db w) ++ rows
             /\ decks (db (snd res)) = decks (db w)
             /\ cardReviews (db (snd res)) = cardReviews (db w)
             /\ studySessions (db (snd res)) = studySessions (db w)
             /\ map Card.deckId rows = map card_deckId valid
             /\ map Card.id rows = newIds)
  /\ (forall e, fst res = Throw e -> db (snd res) = db w)
  /\ (Forall schedulingOk (cards (db w)) ->
      Forall schedulingOk (cards (db (snd res)))).
Proof.
  intros Hf valid newIds res.
  assert (res = (if (length valid =? 0)%nat
                 then throw (JsError "No valid decks found") w
                 else card_createMany generated
                        (map (fun card => (card_deckId card, DEFAULT_EASE_FACTOR, lit 0,
                                           lit 0, now (clock w))) valid) w)) as Hres.
  { subst res. unfold createCards.
    erewrite bind_ok; [|unfold deck_findMany; apply prisma_read_ok; exact Hf].
    rewrite validCards_hasDeck. fold valid.
    destruct (length valid =? 0)%nat; reflexivity. }
  clearbody res. subst res.
  destruct (imap_newCardRow generated (clock w) valid 0)
    as (HdeckIds & Hids & Hlen & Hrows). cbv zeta in *. cbn [Nat.add] in *.
  fold newIds in Hids.
  set (rows := imap (fun i row => newCardRow (generated i) row) _) in *.
  assert (forall row, In row rows -> schedulingOk row) as Hok.
  { intros row Hrow. destruct (Hrows row Hrow) as (Hr & Hi & He & _).
    exists 0%Z, 0%Z, 250%Z. rewrite Hr, Hi, He. repeat split; try reflexivity; lia. }
  destruct (Nat.eqb_spec (length valid) 0) as [Hnil|Hsome].
  { split; [reflexivity|]. split.
    { intros Hne. destruct valid; [contradiction|discriminate]. }
    split; [discriminate|]. split; [reflexivity|auto]. }
  split; [intros E; rewrite E in Hsome; contradiction|].
  unfold card_createMany, prisma_write. rewrite Hf. fold rows.
  split.
  { intros _ Hdistinct Hfresh. rewrite Hids, Hdistinct. cbn [andb].
    assert (forallb (fun row => negb (existsb (fun c => String.eqb (Card.id c) (Card.id row))
                                              (cards (db w)))) rows = true) as ->.
    { apply forallb_forall. intros row Hrow. apply negb_true_iff.
      apply not_true_iff_false. intros Hex.
      apply existsb_exists in Hex as (c & Hc & E). apply String.eqb_eq in E.
      apply (Hfresh c Hc). rewrite E, <- Hids. now apply in_map. }
    exists rows. split; [unfold count; now rewrite Hlen|].
    split; [exact HdeckIds|]. split; [exact Hids|].
    intros row Hrow. destruct (Hrows row Hrow) as (Hr & Hi & He & Hnext).
    split; [exact Hnext|]. split; [|split; [apply Hok, Hrow|]].
    - apply isDue_iff. rewrite Hnext.
      pose proof (startOfLocalDay_spec (clock w) (now (clock w))) as (_ & _ & Hs).
      unfold msPerDay in Hs. lia.
    - intros input. unfold sm2InputOf, freshState. now rewrite Hr, Hi, He. }
  destruct (distinctIds (map Card.id rows) && forallb _ rows).
  - cbn [fst snd db setStore cards decks cardReviews studySessions].
    split; [|split; [discriminate|]].
    + intros n [= <-]. split; [unfold count; now rewrite Hlen|].
      exists rows. split; [reflexivity|]. split; [reflexivity|]. split; [reflexivity|].
      split; [reflexivity|]. split; [exact HdeckIds|exact Hids].
    + intros Hall. apply Forall_app. split; [exact Hall|].
      apply Forall_forall. intros row Hrow. apply Hok, list_elem_of_In, Hrow.
  - cbn [fst snd db]. split; [discriminate|]. split; [reflexivity|auto].
Qed.

End CreateCardsFacts.

Lemma createCards_adds_new_cards_witness :
  createCards sampleGenerated "u1" [{| card_deckId := "x1" |}] (sampleWorld [])
  = (Throw (JsError "No valid decks found"), sampleWorld [])
  /\ exists rows : list (Card.t Q),
       createCards sampleGenerated "u1"
         [{| card_deckId := "d2" |}; {| card_deckId := "x1" |}; {| card_deckId := "d3" |}]
         (sampleWorld [])
       = (Ok 2%Z,
          setStore (sampleWorld [])
            {| decks := decks (db (sampleWorld []));
               cards := cards (db (sampleWorld [])) ++ rows;
               cardReviews := cardReviews (db (sampleWorld []));
               studySessions := studySessions (db (sampleWorld [])) |} [])
       /\ map Card.deckId rows = ["d2"%string; "d3"%string]
       /\ map Card.id rows = ["n0"%string; "n1"%string].
Proof.
  split.
  - apply (proj1 (createCards_adds_new_cards (sampleWorld []) sampleGenerated "u1"
                    [{| card_deckId := "x1" |}] eq_refl)).
    reflexivity.
  - destruct (proj1 (proj2 (createCards_adds_new_cards (sampleWorld []) sampleGenerated "u1"
                              [{| card_deckId := "d2" |}; {| card_deckId := "x1" |};
                               {| card_deckId := "d3" |}] eq_refl)))
      as (rows & Hrun & Hdecks & Hids & _).
    + discriminate.
    + reflexivity.
    + intros c [<-|[<-|[<-|[]]]] [E|[E|[]]]; discriminate E.
    + exists rows. split; [exact Hrun|]. split; [exact Hdecks|exact Hids].
Defined.

(** ** getAllDeckStats *)

Section AllDeckStatsFacts.
Context {num : Type} `{!JsNumber num}.

Lemma getDeckStats_run (w : World num) (userId deckId : string) (deck : Deck.t) :
  faults w = [] ->
  List.find (ownedDeck userId deckId) (decks (db w)) = Some deck ->
  exists stats,
    getDeckStats userId deckId w = (Ok (Some stats), w)
    /\ DeckStats.deckId stats = deckId.
Proof.
  intros Hf Hdeck. destruct (find_ownedDeck _ _ _ _ Hdeck) as (_ & Hid & _).
  unfold getDeckStats.
  erewrite bind_ok; [|unfold deck_findFirst_withCards; apply prisma_read_ok; exact Hf].
  rewrite Hdeck. cbn [option_map].
  unfold bind at 1, getClock at 1.
  erewrite bind_ok; [|unfold cardReview_findMany; apply prisma_read_ok; exact Hf].
  eexists. split; [reflexivity|exact Hid].
Qed.

Lemma getAllDeckStats_loop (w : World num) (userId : string) (ds : list Deck.t)
    (acc : list (DeckStats.t num)) :
  faults w = [] ->
  (forall d, In d ds -> In d (decks (db w)) /\ Deck.userId d = userId) ->
  exists result,
    foldM (fun stats deck =>
             deckStats <- getDeckStats userId (Deck.id deck) ;;
             match deckStats with
             | Some s => ret (stats ++ [s])
             | None => ret stats
             end) ds acc w = (Ok (acc ++ result), w)
    /\ map DeckStats.deckId result = map Deck.id ds
    /\ forall s, In s result ->
                 getDeckStats userId (DeckStats.deckId s) w = (Ok (Some s), w).
Proof.
  intros Hf. revert acc. induction ds as [|d ds IH]; intros acc Hds.
  - exists []. rewrite app_nil_r. repeat split. intros s [].
  - destruct (Hds d ltac:(now left)) as [Hin Hu].
    destruct (List.find (ownedDeck userId (Deck.id d)) (decks (db w))) as [deck|] eqn:Hfind.
    2:{ pose proof (find_none _ _ Hfind d Hin) as Hn. unfold ownedDeck in Hn.
        rewrite Hu, !String.eqb_refl in Hn. discriminate. }
    destruct (getDeckStats_run w userId (Deck.id d) deck Hf Hfind) as (s & Hs & Hid).
    destruct (IH (acc ++ [s]) ltac:(intros; apply Hds; now right))
      as (result & Hrun & Hids & Hall).
    exists (s :: result). cbn [foldM].
    erewrite bind_ok; [|erewrite bind_ok by exact Hs; reflexivity].
    rewrite Hrun, <- app_assoc. split; [reflexivity|]. split.
    + cbn [map]. now rewrite Hid, Hids.
    + intros s' [<-|Hs']; [now rewrite Hid|now apply Hall].
Qed.

(** Property X24.

    [getAllDeckStats] returns one entry for each deck of the user, in the
    order of the store, and each entry is what [getDeckStats] returns for
    that deck: no deck of the user is left out, and none of another user
    is listed. *)
Theorem getAllDeckStats_one_entry_per_deck (w : World num) (userId : string) :
  faults w = [] ->
  exists result,
    getAllDeckStats userId w = (Ok result, w)
    /\ map DeckStats.deckId result
       = map Deck.id (List.filter (fun d => String.eqb (Deck.userId d) userId)
                                  (decks (db w)))
    /\ forall s, In s result ->
                 getDeckStats userId (DeckStats.deckId s) w = (Ok (Some s), w).
Proof.
  intros Hf. unfold getAllDeckStats.
  erewrite bind_ok; [|unfold deck_findMany; apply prisma_read_ok; exact Hf].
  destruct (getAllDeckStats_loop w userId
              (List.filter (fun d => String.eqb (Deck.userId d) userId) (decks (db w)))
              [] Hf) as (result & Hrun & Hids & Hall).
  { intros d Hd. apply filter_In in Hd as [Hin Hu]. now apply String.eqb_eq in Hu. }
  exists result. split; [exact Hrun|]. split; [exact Hids|exact Hall].
Qed.

End AllDeckStatsFacts.

Lemma getAllDeckStats_one_entry_per_deck_witness :
  exists result : list (DeckStats.t Q),
    getAllDeckStats "u1" (sampleWorld []) = (Ok result, sampleWorld [])
    /\ map DeckStats.deckId result = ["d1"; "d2"; "d3"]%string.
Proof.
  destruct (getAllDeckStats_one_entry_per_deck (sampleWorld []) "u1" eq_refl)
    as (result & Hrun & Hids & _).
  exists result. split; [exact Hrun|exact Hids].
Defined.

(** ** buildDeckHierarchy *)

Section HierarchyListingFacts.

Lemma createMap_fold (l : list DeckWithStats.t) (m0 : DeckMap) (x : string) :
  let m := fold_left (fun deckMap deck =>
                        mapSet deckMap (Deck.id (DeckWithStats.deck deck)) (deck, []))
                     l m0 in
  hasKey m x
  = existsb (String.eqb x) (map (fun d => Deck.id (DeckWithStats.deck d)) l) || hasKey m0 x
  /\ forall s ch, m x = Some (s, ch) ->
       m0 x = Some (s, ch) \/ (In s l /\ Deck.id (DeckWithStats.deck s) = x /\ ch = []).
Proof.
  revert m0. induction l as [|d l IH]; intros m0 m; subst m.
  - cbn. split; [reflexivity|]. intros s ch H. now left.
  - cbn [fold_left map existsb].
    destruct (IH (mapSet m0 (Deck.id (DeckWithStats.deck d)) (d, []))) as [IH1 IH2].
    cbv zeta in IH1, IH2. split.
    + rewrite IH1. unfold hasKey, mapSet.
      destruct (String.eqb x (Deck.id (DeckWithStats.deck d)));
        destruct (existsb _ _); destruct (m0 x); reflexivity.
    + intros s ch H. destruct (IH2 s ch H) as [H0|(Hin & Hid & Hch)].
      * unfold mapSet in H0.
        destruct (String.eqb x (Deck.id (DeckWithStats.deck d))) eqn:E.
        -- injection H0 as <- <-. apply String.eqb_eq in E. right.
           split; [now left|]. split; [now symmetry|reflexivity].
        -- now left.
      * right. split; [now right|]. split; assumption.
Qed.

Lemma createMap_spec (l : list DeckWithStats.t) (x : string) :
  hasKey (createMap l) x
  = existsb (String.eqb x) (map (fun d => Deck.id (DeckWithStats.deck d)) l)
  /\ forall s ch, createMap l x = Some (s, ch) ->
       In s l /\ Deck.id (DeckWithStats.deck s) = x /\ ch = [].
Proof.
  destruct (createMap_fold l (fun _ => None) x) as [H1 H2]. cbv zeta in *.
  split.
  - unfold createMap. rewrite H1. cbn. apply orb_false_r.
  - intros s ch H. destruct (H2 s ch H) as [H0|H0]; [discriminate|exact H0].
Qed.

Lemma rootsOf_cons (has : string -> bool) (d : DeckWithStats.t)
    (l : list DeckWithStats.t) :
  rootsOf has (d :: l)
  = match validParent has d with
    | Some _ => rootsOf has l
    | None => Deck.id (DeckWithStats.deck d) :: rootsOf has l
    end.
Proof. unfold rootsOf. cbn [List.filter]. destruct (validParent has d); reflexivity. Qed.

Lemma childrenOf_cons (has : string -> bool) (p : string) (d : DeckWithStats.t)
    (l : list DeckWithStats.t) :
  childrenOf has p (d :: l)
  = match validParent has d with
    | Some q => if String.eqb q p
                then Deck.id (DeckWithStats.deck d) :: childrenOf has p l
                else childrenOf has p l
    | None => childrenOf has p l
    end.
Proof.
  unfold childrenOf. cbn [List.filter].
  destruct (validParent has d) as [q|]; [destruct (String.eqb q p)|]; reflexivity.
Qed.

Lemma placeDeck_validParent (has : string -> bool) (r : list string) (m : DeckMap)
    (d : DeckWithStats.t) :
  (forall p, hasKey m p = has p) ->
  match validParent has d with
  | Some p0 =>
      exists parent children,
        m p0 = Some (parent, children)
        /\ placeDeck (r, m) d
           = (r, mapSet m p0 (parent, children ++ [Deck.id (DeckWithStats.deck d)]))
  | None => placeDeck (r, m) d = (r ++ [Deck.id (DeckWithStats.deck d)], m)
  end.
Proof.
  intros Hhas. unfold validParent, placeDeck.
  destruct (Deck.parentId (DeckWithStats.deck d)) as [p0|]; [|reflexivity].
  rewrite <- (Hhas p0). unfold hasKey.
  destruct (truthy p0); cbn [andb]; [|reflexivity].
  destruct (m p0) as [[parent children]|] eqn:Hp0; [|reflexivity].
  exists parent, children. split; [exact Hp0|reflexivity].
Qed.

Lemma second_pass (has : string -> bool) (l : list DeckWithStats.t)
    (r0 : list string) (m0 : DeckMap) :
  (forall p, hasKey m0 p = has p) ->
  let res := fold_left placeDeck l (r0, m0) in
  fst res = r0 ++ rootsOf has l
  /\ forall p, snd res p
               = match m0 p with
                 | Some (s, ch) => Some (s, ch ++ childrenOf has p l)
                 | None => None
                 end.
Proof.
  revert r0 m0. induction l as [|d l IH]; intros r0 m0 Hhas res; subst res.
  - cbn. rewrite app_nil_r. split; [reflexivity|].
    intros p. destruct (m0 p) as [[s ch]|]; [now rewrite app_nil_r|reflexivity].
  - cbn [fold_left]. rewrite rootsOf_cons.
    pose proof (placeDeck_validParent has r0 m0 d Hhas) as Hstep.
    destruct (validParent has d) as [p0|] eqn:Hv.
    + destruct Hstep as (parent & children & Hp0 & ->).
      destruct (IH r0 (mapSet m0 p0
                         (parent, children ++ [Deck.id (DeckWithStats.deck d)])))
        as [IH1 IH2].
      { intros p. rewrite <- (Hhas p). unfold hasKey, mapSet.
        destruct (String.eqb p p0) eqn:E; [|reflexivity].
        apply String.eqb_eq in E. subst p. now rewrite Hp0. }
      cbv zeta in *. split; [exact IH1|].
      intros p. rewrite IH2, childrenOf_cons, Hv. unfold mapSet.
      destruct (String.eqb p p0) eqn:E.
      * apply String.eqb_eq in E. subst p. rewrite Hp0, String.eqb_refl.
        now rewrite <- app_assoc.
      * rewrite String.eqb_sym, E. reflexivity.
    + rewrite Hstep.
      destruct (IH (r0 ++ [Deck.id (DeckWithStats.deck d)]) m0 Hhas) as [IH1 IH2].
      cbv zeta in *. rewrite IH1, <- app_assoc. split; [reflexivity|].
      intros p. rewrite IH2, childrenOf_cons, Hv. reflexivity.
Qed.

Lemma buildDeckHierarchy_spec (l : list DeckWithStats.t) :
  let ids := map (fun d => Deck.id (DeckWithStats.deck d)) l in
  let has := fun p => existsb (String.eqb p) ids in
  let res := buildDeckHierarchy l in
  fst res = rootsOf has l
  /\ forall p, match snd res p with
               | Some (s, ch) =>
                   In s l /\ Deck.id (DeckWithStats.deck s) = p /\ ch = childrenOf has p l
               | None => has p = false
               end.
Proof.
  intros ids has res. subst res. unfold buildDeckHierarchy.
  destruct (second_pass has l [] (createMap l)) as [H1 H2].
  { intros p. apply createMap_spec. }
  cbv zeta in *. split; [exact H1|].
  intros p. rewrite H2.
  destruct (createMap l p) as [[s ch]|] eqn:Hp.
  - destruct (proj2 (createMap_spec l p) s ch Hp) as (Hin & Hid & ->).
    split; [exact Hin|]. split; [exact Hid|reflexivity].
  - pose proof (proj1 (createMap_spec l p)) as Hk. unfold hasKey in Hk.
    rewrite Hp in Hk. symmetry. exact Hk.
Qed.

Lemma validParent_Some (has : string -> bool) (d : DeckWithStats.t) (p : string) :
  validParent has d = Some p ->
  Deck.parentId (DeckWithStats.deck d) = Some p /\ truthy p = true /\ has p = true.
Proof.
  unfold validParent. destruct (Deck.parentId (DeckWithStats.deck d)) as [q|]; [|discriminate].
  destruct (truthy q) eqn:Ht; destruct (has q) eqn:Hh; cbn [andb]; try discriminate.
  intros [= <-]. auto.
Qed.

Lemma validParent_of_parent (has : string -> bool) (d : DeckWithStats.t) (p : string) :
  Deck.parentId (DeckWithStats.deck d) = Some p -> truthy p = true -> has p = true ->
  validParent has d = Some p.
Proof. intros Hp Ht Hh. unfold validParent. now rewrite Hp, Ht, Hh. Qed.

Lemma listed_inv (l : list DeckWithStats.t) (x : string) :
  let has := fun p => existsb (String.eqb p)
                        (map (fun d => Deck.id (DeckWithStats.deck d)) l) in
  listed (buildDeckHierarchy l) x ->
  exists d, In d l /\ Deck.id (DeckWithStats.deck d) = x
            /\ (validParent has d = None
                \/ exists p, validParent has d = Some p /\ listed (buildDeckHierarchy l) p).
Proof.
  intros has Hl. destruct (buildDeckHierarchy_spec l) as [Hroots Hheap].
  cbv zeta in Hroots, Hheap. fold has in Hroots, Hheap.
  destruct Hl as [x Hx|p x parent children Hp Hsnd Hx].
  - rewrite Hroots in Hx. unfold rootsOf in Hx.
    apply in_map_iff in Hx as (d & Hid & Hd). apply filter_In in Hd as [Hin Hv].
    exists d. split; [exact Hin|]. split; [exact Hid|]. left.
    destruct (validParent has d); [discriminate|reflexivity].
  - specialize (Hheap p). rewrite Hsnd in Hheap. destruct Hheap as (_ & _ & ->).
    unfold childrenOf in Hx.
    apply in_map_iff in Hx as (d & Hid & Hd). apply filter_In in Hd as [Hin Hv].
    exists d. split; [exact Hin|]. split; [exact Hid|]. right.
    destruct (validParent has d) as [q|]; [|discriminate].
    apply String.eqb_eq in Hv. subst q. exists p. split; [reflexivity|exact Hp].
Qed.

Lemma descendant_last (ds : list Deck.t) (a b : string) :
  descendant ds a b ->
  exists d, In d ds /\ Deck.id d = b
            /\ exists q, Deck.parentId d = Some q /\ (q = a \/ descendant ds a q).
Proof.
  induction 1 as [a d Hin Hp|a c x Hin Hp Hcx IH].
  - exists d. split; [exact Hin|]. split; [reflexivity|]. exists a. split; [exact Hp|now left].
  - destruct IH as (d & Hd & Hid & q & Hq & Hcq).
    exists d. split; [exact Hd|]. split; [exact Hid|]. exists q. split; [exact Hq|]. right.
    destruct Hcq as [->|Hcq].
    + now apply descendant_child.
    + now apply descendant_deeper with (c := c).
Qed.

Lemma descendant_trans (ds : list Deck.t) (a b c : string) :
  descendant ds a b -> descendant ds b c -> descendant ds a c.
Proof.
  induction 1 as [a d Hin Hp|a c0 x Hin Hp _ IH]; intros Hbc.
  - now apply descendant_deeper with (c := d).
  - apply descendant_deeper with (c := c0); [assumption..|]. now apply IH.
Qed.

Lemma descendant_ext (l1 l2 : list Deck.t) (a b : string) :
  (forall d, In d l1 -> In d l2) -> descendant l1 a b -> descendant l2 a b.
Proof.
  intros Hsub. induction 1 as [a d Hin Hp|a c x Hin Hp _ IH].
  - apply descendant_child; auto.
  - apply descendant_deeper with (c := c); auto.
Qed.

Lemma NoDup_id_inj (ds : list Deck.t) (d d' : Deck.t) :
  NoDup (map Deck.id ds) -> In d ds -> In d' ds -> Deck.id d = Deck.id d' -> d = d'.
Proof.
  induction ds as [|x ds IH]; intros Hnd Hd Hd' Hid; [destruct Hd|].
  cbn [map] in Hnd. apply NoDup_cons in Hnd as [Hx Hnd].
  destruct Hd as [<-|Hd]; destruct Hd' as [<-|Hd']; auto.
  - exfalso. apply Hx. rewrite Hid. apply list_elem_of_In. now apply in_map.
  - exfalso. apply Hx. rewrite <- Hid. apply list_elem_of_In. now apply in_map.
Qed.

(** What [buildDeckHierarchy] shows of decks with distinct, non-empty
    identifiers: decks of the input only, none of those on a cycle, and
    all of them when there is no cycle. *)
Lemma buildDeckHierarchy_listed (l : list DeckWithStats.t) :
  let ds := map DeckWithStats.deck l in
  NoDup (map Deck.id ds) ->
  (forall d, In d ds -> truthy (Deck.id d) = true) ->
  (forall x, listed (buildDeckHierarchy l) x -> exists d, In d ds /\ Deck.id d = x)
  /\ (forall x, listed (buildDeckHierarchy l) x -> ~ descendant ds x x)
  /\ (acyclic ds -> forall d, In d ds -> listed (buildDeckHierarchy l) (Deck.id d)).
Proof.
  intros ds Hnd Htruthy.
  set (has := fun p => existsb (String.eqb p)
                         (map (fun d => Deck.id (DeckWithStats.deck d)) l)).
  assert (forall d, In d ds -> has (Deck.id d) = true) as Hhas.
  { intros d Hd. subst has. cbv beta. apply existsb_exists.
    exists (Deck.id d). split; [|apply String.eqb_refl].
    subst ds. apply in_map_iff in Hd as (s & <- & Hs).
    apply in_map_iff. exists s. auto. }
  assert (forall s, In s l -> In (DeckWithStats.deck s) ds) as Hin_ds
    by (intros s Hs; subst ds; now apply in_map).
  (* the parent of a deck on a path is a deck *)
  assert (forall a b, descendant ds a b -> (exists d, In d ds /\ Deck.id d = a) ->
            exists d, In d ds /\ Deck.id d = b
                      /\ exists q d', Deck.parentId d = Some q /\ In d' ds /\ Deck.id d' = q
                                      /\ (q = a \/ descendant ds a q)) as Hlast.
  { intros a b Hab Ha. destruct (descendant_last ds a b Hab) as (d & Hd & Hid & q & Hq & Hcq).
    exists d. split; [exact Hd|]. split; [exact Hid|].
    destruct Hcq as [->|Hcq].
    - destruct Ha as (d' & Hd' & Hid'). exists a, d'. auto.
    - destruct (descendant_last ds a q Hcq) as (d' & Hd' & Hid' & _).
      exists q, d'. auto. }
  split; [|split].
  - intros x Hx. destruct (listed_inv l x Hx) as (s & Hs & Hid & _).
    exists (DeckWithStats.deck s). auto.
  - intros x Hx. induction Hx as [x Hx|p x parent children Hp IH Hsnd Hx]; intros Hcycle.
    + destruct (listed_inv l x (listed_root _ x Hx)) as (s & Hs & Hid & Hv).
      fold has in Hv.
      destruct (Hlast x x Hcycle) as (d & Hd & Hidd & q & d' & Hq & Hd' & Hidq & _).
      { exists (DeckWithStats.deck s). auto. }
      assert (d = DeckWithStats.deck s) as ->
        by (apply (NoDup_id_inj ds); auto; congruence).
      assert (validParent has s = Some q) as Hvq.
      { apply validParent_of_parent; [exact Hq| |].
        - rewrite <- Hidq. now apply Htruthy.
        - rewrite <- Hidq. now apply Hhas. }
      (* the deck was filed as a root *)
      destruct (buildDeckHierarchy_spec l) as [Hroots _]. cbv zeta in Hroots.
      fold has in Hroots. rewrite Hroots in Hx. unfold rootsOf in Hx.
      apply in_map_iff in Hx as (s' & Hid' & Hs'). apply filter_In in Hs' as [Hs' Hv'].
      assert (DeckWithStats.deck s' = DeckWithStats.deck s) as E
        by (apply (NoDup_id_inj ds); auto; congruence).
      unfold validParent in Hv', Hvq. rewrite E in Hv'. rewrite Hvq in Hv'. discriminate.
    + destruct (buildDeckHierarchy_spec l) as [_ Hheap]. cbv zeta in Hheap.
      fold has in Hheap. specialize (Hheap p). rewrite Hsnd in Hheap.
      destruct Hheap as (Hparent & Hidp & ->).
      unfold childrenOf in Hx.
      apply in_map_iff in Hx as (s & Hid & Hs). apply filter_In in Hs as [Hs Hv].
      destruct (validParent has s) as [q|] eqn:Hvq; [|discriminate].
      apply String.eqb_eq in Hv. subst q.
      apply validParent_Some in Hvq as (Hps & _ & _).
      destruct (Hlast x x Hcycle) as (d & Hd & Hidd & q & d' & Hq & Hd' & Hidq & Hcq).
      { exists (DeckWithStats.deck s). auto. }
      assert (d = DeckWithStats.deck s) as ->
        by (apply (NoDup_id_inj ds); auto; congruence).
      assert (q = p) as -> by congruence.
      apply IH.
      assert (descendant ds p x) as Hpx.
      { rewrite <- Hid. apply descendant_child; auto. }
      destruct Hcq as [->|Hxp]; [exact Hcycle|].
      now apply descendant_trans with (b := x).
  - intros [rank Hrank] d Hd.
    set (M := list_max (map rank (map Deck.id ds))).
    assert (forall d, In d ds -> (rank (Deck.id d) <= M)%nat) as HM.
    { intros d0 Hd0. subst M.
      pose proof (proj1 (list_max_le (map rank (map Deck.id ds))
                           (list_max (map rank (map Deck.id ds)))) (Nat.le_refl _)) as Hall.
      rewrite List.Forall_forall in Hall. apply Hall.
      apply in_map, in_map, Hd0. }
    assert (forall k s, In s l -> (M <= rank (Deck.id (DeckWithStats.deck s)) + k)%nat ->
              listed (buildDeckHierarchy l) (Deck.id (DeckWithStats.deck s))) as Hk.
    { destruct (buildDeckHierarchy_spec l) as [Hroots Hheap]. cbv zeta in Hroots, Hheap.
      fold has in Hroots, Hheap.
      induction k as [|k IHk]; intros s Hs HMs.
      - destruct (validParent has s) as [p|] eqn:Hv.
        + apply validParent_Some in Hv as (Hp & _ & Hh).
          subst has. cbv beta in Hh. apply existsb_exists in Hh as (y & Hy & E).
          apply String.eqb_eq in E. subst y.
          apply in_map_iff in Hy as (s' & Hid' & Hs').
          pose proof (Hrank _ p (Hin_ds s Hs) Hp) as Hlt.
          pose proof (HM _ (Hin_ds s' Hs')) as Hle. rewrite Hid' in Hle. lia.
        + apply listed_root. rewrite Hroots. unfold rootsOf.
          apply in_map_iff. exists s. split; [reflexivity|].
          apply filter_In. split; [exact Hs|]. now rewrite Hv.
      - destruct (validParent has s) as [p|] eqn:Hv.
        + pose proof Hv as Hv'. apply validParent_Some in Hv' as (Hp & _ & Hh).
          pose proof Hh as Hh'.
          subst has. cbv beta in Hh'. apply existsb_exists in Hh' as (y & Hy & E).
          apply String.eqb_eq in E. subst y.
          apply in_map_iff in Hy as (s' & Hid' & Hs').
          pose proof (Hrank _ p (Hin_ds s Hs) Hp) as Hlt.
          assert (listed (buildDeckHierarchy l) p) as Hlp.
          { rewrite <- Hid'. apply IHk; [exact Hs'|]. rewrite Hid'. lia. }
          specialize (Hheap p). cbv beta in Hheap.
          destruct (snd (buildDeckHierarchy l) p) as [[parent children]|] eqn:Hsnd.
          * destruct Hheap as (_ & _ & ->).
            apply (listed_child _ p _ parent _ Hlp Hsnd).
            unfold childrenOf. apply in_map_iff. exists s. split; [reflexivity|].
            apply filter_In. split; [exact Hs|]. rewrite Hv. apply String.eqb_refl.
          * rewrite Hh in Hheap. discriminate.
        + apply listed_root. rewrite Hroots. unfold rootsOf.
          apply in_map_iff. exists s. split; [reflexivity|].
          apply filter_In. split; [exact Hs|]. now rewrite Hv. }
    subst ds. apply in_map_iff in Hd as (s & <- & Hs).
    apply (Hk M s Hs). lia.
Qed.

End HierarchyListingFacts.

(** ** getDecksWithStats *)

Section DecksWithStatsFacts.
Context {num : Type} `{!JsNumber num}.

(** The statistics that [getDecksWithStats] attaches to a deck *)
Lemma getDecksWithStats_run (w : World num) (nameOrder : Deck.t -> Z) (userId : string) :
  faults w = [] ->
  let mine := List.filter (fun dk => String.eqb (Deck.userId dk) userId) (decks (db w)) in
  let endOfToday := setHours (clock w) (now (clock w)) 23 59 59 999 in
  exists l : list DeckWithStats.t,
    getDecksWithStats nameOrder userId w = (Ok (buildDeckHierarchy l), w)
    /\ map DeckWithStats.deck l ≡ₚ mine
    /\ forall s, In s l ->
         let own := List.filter
                      (fun c => String.eqb (Card.deckId c) (Deck.id (DeckWithStats.deck s)))
                      (cards (db w)) in
         DeckWithStats.cardCount s = count own
         /\ DeckWithStats.dueCount s
            = count (List.filter (fun c => (Card.nextReviewAt c <=? endOfToday)%Z
                                           && num_ltb (lit 0) (Card.repetitions c)) own)
         /\ DeckWithStats.newCount s
            = count (List.filter (fun c => num_eqb (Card.repetitions c) (lit 0)) own).
Proof.
  intros Hf mine endOfToday. unfold getDecksWithStats.
  erewrite bind_ok; [|apply prisma_read_ok; exact Hf].
  rewrite (bind_ok _ _ w w (clock w)) by reflexivity.
  fold mine endOfToday. rewrite map_map. cbv beta iota.
  eexists. split; [reflexivity|]. split.
  - rewrite map_map. cbn [DeckWithStats.deck]. rewrite map_id.
    unfold orderByAsc. apply merge_sort_Permutation.
  - intros s Hs. apply in_map_iff in Hs as (dk & <- & _).
    cbn [DeckWithStats.deck DeckWithStats.cardCount DeckWithStats.dueCount
         DeckWithStats.newCount]. auto.
Qed.

(** Property X25.

    The hierarchy that [getDecksWithStats] returns, for decks with
    distinct, non-empty identifiers: it shows decks of the user only, and
    all of them when no deck is its own ancestor; a deck that lies on a
    cycle of parents is not shown at all, neither as a root nor below
    another deck. *)
Theorem getDecksWithStats_lists_the_hierarchy (w : World num) (nameOrder : Deck.t -> Z)
    (userId : string) :
  faults w = [] ->
  let mine := List.filter (fun dk => String.eqb (Deck.userId dk) userId) (decks (db w)) in
  NoDup (map Deck.id mine) ->
  (forall d, In d mine -> truthy (Deck.id d) = true) ->
  exists result,
    getDecksWithStats nameOrder userId w = (Ok result, w)
    /\ (forall x, listed result x -> exists d, In d mine /\ Deck.id d = x)
    /\ (forall x, descendant mine x x -> ~ listed result x)
    /\ (acyclic mine -> forall d, In d mine -> listed result (Deck.id d)).
Proof.
  intros Hf mine Hnd Htruthy.
  destruct (getDecksWithStats_run w nameOrder userId Hf) as (l & Hrun & Hperm & _).
  cbv zeta in Hperm. fold mine in Hperm.
  assert (forall d, In d (map DeckWithStats.deck l) <-> In d mine) as Hsame.
  { intros d. rewrite <- !list_elem_of_In, Hperm. reflexivity. }
  destruct (buildDeckHierarchy_listed l) as (H1 & H2 & H3).
  { rewrite Hperm. exact Hnd. }
  { intros d Hd. apply Htruthy, Hsame, Hd. }
  exists (buildDeckHierarchy l). split; [exact Hrun|]. split; [|split].
  - intros x Hx. destruct (H1 x Hx) as (d & Hd & Hid). exists d. split; [|exact Hid].
    apply Hsame, Hd.
  - intros x Hcycle Hx. apply (H2 x Hx).
    apply (descendant_ext mine); [|exact Hcycle]. intros d Hd. apply Hsame, Hd.
  - intros [rank Hrank] d Hd. apply H3; [|apply Hsame, Hd].
    exists rank. intros d0 p Hd0. apply Hrank, Hsame, Hd0.
Qed.

End DecksWithStatsFacts.

Section DecksWithStatsCounts.
Local Open Scope Z_scope.

(** Property X26.

    The numbers that [getDecksWithStats] attaches to a deck are the sizes
    of the pools from which [getDueCards] selects for that deck alone: its
    new cards, and its cards due by the end of today; together they are no
    more than the cards of the deck. *)
Theorem getDecksWithStats_counts (w : World Q) (nameOrder : Deck.t -> Z)
    (userId : string) :
  faults w = [] ->
  exists result,
    getDecksWithStats nameOrder userId w = (Ok result, w)
    /\ forall x s children,
         snd result x = Some (s, children) ->
         let endOfToday := setHours (clock w) (now (clock w)) 23 59 59 999 in
         In (DeckWithStats.deck s) (decks (db w))
         /\ Deck.userId (DeckWithStats.deck s) = userId
         /\ Deck.id (DeckWithStats.deck s) = x
         /\ DeckWithStats.cardCount s = count (List.filter (deckIn [x]) (cards (db w)))
         /\ DeckWithStats.newCount s = count (List.filter (isNewCard [x]) (cards (db w)))
         /\ DeckWithStats.dueCount s
            = count (List.filter (isDueCard [x] endOfToday) (cards (db w)))
         /\ DeckWithStats.newCount s + DeckWithStats.dueCount s
            <= DeckWithStats.cardCount s.
Proof.
  intros Hf.
  destruct (getDecksWithStats_run w nameOrder userId Hf) as (l & Hrun & Hperm & Hstats).
  cbv zeta in Hperm, Hstats.
  exists (buildDeckHierarchy l). split; [exact Hrun|].
  intros x s children Hsnd endOfToday.
  destruct (buildDeckHierarchy_spec l) as [_ Hheap]. cbv zeta in Hheap.
  specialize (Hheap x). rewrite Hsnd in Hheap. destruct Hheap as (Hs & Hid & _).
  destruct (Hstats s Hs) as (Hcount & Hdue & Hnew). rewrite Hid in Hcount, Hdue, Hnew.
  assert (In (DeckWithStats.deck s)
             (List.filter (fun dk => String.eqb (Deck.userId dk) userId) (decks (db w))))
    as Hmine.
  { apply list_elem_of_In. rewrite <- Hperm. apply list_elem_of_In. now apply in_map. }
  apply filter_In in Hmine as [Hin Hu]. apply String.eqb_eq in Hu.
  split; [exact Hin|]. split; [exact Hu|]. split; [exact Hid|].
  assert (forall c : Card.t Q, deckIn [x] c = String.eqb (Card.deckId c) x) as HdeckIn.
  { intros c. unfold deckIn. cbn [existsb]. apply orb_false_r. }
  set (own := List.filter (fun c => String.eqb (Card.deckId c) x) (cards (db w))) in *.
  assert (List.filter (deckIn [x]) (cards (db w)) = own) as E1
    by (apply List.filter_ext; exact HdeckIn).
  assert (List.filter (isNewCard [x]) (cards (db w))
          = List.filter (fun c => num_eqb (Card.repetitions c) (lit 0)) own) as E2.
  { subst own. rewrite <- filter_andb. apply List.filter_ext. intros c.
    unfold isNewCard. now rewrite HdeckIn. }
  assert (List.filter (isDueCard [x] endOfToday) (cards (db w))
          = List.filter (fun c => (Card.nextReviewAt c <=? endOfToday)
                                  && num_ltb (lit 0) (Card.repetitions c)) own) as E3.
  { subst own. rewrite <- filter_andb. apply List.filter_ext. intros c.
    unfold isDueCard. rewrite HdeckIn. now rewrite andb_assoc. }
  rewrite E1, E2, E3. split; [exact Hcount|]. split; [exact Hnew|]. split; [exact Hdue|].
  rewrite Hcount, Hdue, Hnew. fold endOfToday. unfold count.
  generalize own. intros cs. induction cs as [|c cs IH]; [reflexivity|].
  cbn [List.filter num_eqb num_ltb lit exact].
  destruct (Qeq_bool (Card.repetitions c) 0) eqn:E0;
    destruct (Qltb 0 (Card.repetitions c)) eqn:Elt;
    destruct (Card.nextReviewAt c <=? endOfToday); cbn [andb length];
    cbn [List.filter num_eqb num_ltb lit exact] in IH; try lia.
  all: apply Qeq_bool_iff in E0; apply Qltb_lt in Elt; lra.
Qed.

End DecksWithStatsCounts.

Lemma getDecksWithStats_lists_the_hierarchy_witness :
  exists result,
    getDecksWithStats (fun _ => 0%Z) "u1" cyclicWorld = (Ok result, cyclicWorld)
    /\ ~ listed result "a" /\ ~ listed result "b".
Proof.
  destruct (getDecksWithStats_lists_the_hierarchy cyclicWorld (fun _ => 0%Z) "u1" eq_refl)
    as (result & Hrun & _ & Hcycle & _).
  - cbn. repeat constructor; [intros H; apply list_elem_of_In in H; cbn in H; intuition discriminate
                             |intros H; apply list_elem_of_In in H; cbn in H; intuition].
  - intros d [<-|[<-|[]]]; reflexivity.
  - exists result. split; [exact Hrun|]. split; apply Hcycle.
    + apply descendant_deeper with (c := Deck.Build "b" "u1" (Some "a"%string));
        [right; left; reflexivity|reflexivity|].
      apply (descendant_child _ "b" (Deck.Build "a" "u1" (Some "b"%string)));
        [left; reflexivity|reflexivity].
    + apply descendant_deeper with (c := Deck.Build "a" "u1" (Some "b"%string));
        [left; reflexivity|reflexivity|].
      apply (descendant_child _ "a" (Deck.Build "b" "u1" (Some "a"%string)));
        [right; left; reflexivity|reflexivity].
Defined.

Lemma getDecksWithStats_counts_witness :
  exists result,
    getDecksWithStats (fun _ => 0%Z) "u1" (sampleWorld []) = (Ok result, sampleWorld []).
Proof.
  destruct (getDecksWithStats_counts (sampleWorld []) (fun _ => 0%Z) "u1" eq_refl)
    as (result & Hrun & _).
  exists result. exact Hrun.
Defined.
